(** * Election survey cleaning: the categoriser of [scripts/data_cleaning.py]

    A shallow embedding of [ElectionDataCleaner]: the text repair
    ([clean_text]), the per-column rule tables ([COLUMN_PATTERNS]), the
    first-match categoriser ([standardize_column_with_search]), the legacy
    bulk replacer ([standardize_column]), the loader ([load_data]) and the
    orchestrator ([clean_data]).

    Python strings are sequences of Unicode code points, so text is a list
    of code points ([N]).  The regular expressions of the script are run by
    a backtracking matcher that lists the candidate ends of a match in the
    order in which Python's [re] explores them; [re.search] and [re.sub] are
    built on it. *)

From Stdlib Require Import NArith ZArith Bool Ascii String List Lia.
Import ListNotations.

Local Open Scope nat_scope.
Local Open Scope list_scope.

(** ** Text *)

(** A Python [str]: its code points. *)
Definition pystr : Type := list N.

(** The text of an ASCII literal of the source. *)
Definition u (s : string) : pystr :=
  List.map N_of_ascii (list_ascii_of_string s).

Fixpoint pystr_eqb (a b : pystr) : bool :=
  match a, b with
  | [], [] => true
  | x :: a', y :: b' => (x =? y)%N && pystr_eqb a' b'
  | _, _ => false
  end.

(** A cell of a column as [clean_text] sees it: [pd.isna(text)] holds
    ([NaN]), or [str(text)] is the text [s]. *)
Inductive value : Type :=
| NaN
| Str (s : pystr).

(** ** Character classes of [re] on [str] patterns *)

Definition between (lo hi c : N) : bool := ((lo <=? c) && (c <=? hi))%N.

(** [str.isspace], which is also [\s] of a Unicode pattern and the set
    [str.strip()] removes. *)
Definition is_space (c : N) : bool :=
  between 0x09 0x0D c || between 0x1C 0x20 c || (c =? 0x85)%N || (c =? 0xA0)%N
  || (c =? 0x1680)%N || between 0x2000 0x200A c || (c =? 0x2028)%N
  || (c =? 0x2029)%N || (c =? 0x202F)%N || (c =? 0x205F)%N || (c =? 0x3000)%N.

(** [str.isalnum] on ASCII and Latin-1. *)
Definition latin1_alnum (c : N) : bool :=
  between 0x30 0x39 c || between 0x41 0x5A c || between 0x61 0x7A c
  || (c =? 0xAA)%N || between 0xB2 0xB3 c || (c =? 0xB5)%N
  || between 0xB9 0xBA c || between 0xBC 0xBE c || between 0xC0 0xD6 c
  || between 0xD8 0xF6 c || between 0xF8 0xFF c.

Definition ascii_upper (c : N) : bool := between 0x41 0x5A c.
Definition ascii_lower (c : N) : bool := between 0x61 0x7A c.
Definition ascii_tolower (c : N) : N := if ascii_upper c then (c + 32)%N else c.

(** The code points other than the letter and its capital that match an
    ASCII letter of a pattern under IGNORECASE: dotted capital I and
    dotless i for [i], the Kelvin sign for [k], long s for [s]. *)
Definition fold_extra (lo c : N) : bool :=
  ((lo =? 0x69) && ((c =? 0x130) || (c =? 0x131))
   || (lo =? 0x6B) && (c =? 0x212A)
   || (lo =? 0x73) && (c =? 0x17F))%N.

(** Does the text character [c] match the pattern literal [l]?  Under
    IGNORECASE an ASCII letter matches both of its cases and the code
    points of [fold_extra].  Every pattern of the script that is matched
    with IGNORECASE is ASCII; a literal outside ASCII is compared as it is. *)
Definition lit_matches (ic : bool) (l c : N) : bool :=
  if ic && (ascii_upper l || ascii_lower l)
  then (ascii_tolower c =? ascii_tolower l)%N || fold_extra (ascii_tolower l) c
  else (c =? l)%N.

(** ** Regular expressions *)

(** A member of a bracket expression. *)
Inductive citem : Type :=
| CChar (c : N)     (* a literal character *)
| CSpace            (* \s *)
| CWord.            (* \w *)

Inductive regex : Type :=
| Empty                                   (* the empty pattern *)
| Lit (c : N)                             (* a literal character *)
| Dot                                     (* .  any character but newline *)
| Set_ (neg : bool) (items : list citem)  (* [...] and [^...]; \s is [\s] *)
| Bol                                     (* ^ *)
| Eol                                     (* $ *)
| Cat (r1 r2 : regex)
| Alt (r1 r2 : regex)                     (* r1|r2 *)
| Opt (r : regex)                         (* r?  greedy *)
| Star (r : regex)                        (* r*  greedy *)
| Plus (r : regex).                       (* r+  greedy *)

(** A pattern string: its inline flag [(?i)] and its body. *)
Record pattern : Type := Pat { ignore_case : bool; body : regex }.

(** The literal text [s] as a pattern. *)
Fixpoint lits (s : pystr) : regex :=
  match s with
  | [] => Empty
  | [c] => Lit c
  | c :: t => Cat (Lit c) (lits t)
  end.
Definition txt (s : string) : regex := lits (u s).

Definition ws : regex := Set_ false [CSpace].        (* \s *)
Definition word : regex := Set_ false [CWord].       (* \w *)

(** A sequence [r1 r2 ... rn] and an alternation [r1|r2|...|rn]. *)
Fixpoint cat (l : list regex) : regex :=
  match l with
  | [] => Empty
  | [r] => r
  | r :: t => Cat r (cat t)
  end.

Fixpoint alt (l : list regex) : regex :=
  match l with
  | [] => Empty
  | [r] => r
  | r :: t => Alt r (alt t)
  end.

(** A literal character of a pattern, and a bracket expression of
    literal characters. *)
Definition ch (a : ascii) : N := N_of_ascii a.
Definition oneof (s : string) : regex := Set_ false (List.map CChar (u s)).

(** Greedy repetition of a matcher [m]: the candidate lengths of [m*] on
    [s], longest iteration first.  An iteration that consumes nothing ends
    the repetition (no repeated pattern of the script matches the empty
    text).  [fuel] bounds the number of iterations; [length s] is enough. *)
Fixpoint star (m : bool -> pystr -> list nat) (fuel : nat) (bol : bool)
    (s : pystr) : list nat :=
  match fuel with
  | 0 => [0]
  | S fuel' =>
      flat_map (fun n =>
          match n with
          | 0 => []
          | S _ => List.map (Nat.add n) (star m fuel' false (skipn n s))
          end) (m bol s) ++ [0]
  end.

Section Unicode.

(** [str.isalnum] beyond Latin-1: a table of the interpreter's Unicode
    database, which is not part of the repository. *)
Variable uni_alnum : N -> bool.

(** [\w] of a Unicode pattern: alphanumeric or the underscore. *)
Definition is_word (c : N) : bool :=
  if (c <? 0x100)%N then latin1_alnum c || (c =? 0x5F)%N else uni_alnum c.

Definition citem_matches (ic : bool) (i : citem) (c : N) : bool :=
  match i with
  | CChar l => lit_matches ic l c
  | CSpace => is_space c
  | CWord => is_word c
  end.

Definition in_set (ic : bool) (items : list citem) (c : N) : bool :=
  existsb (fun i => citem_matches ic i c) items.

(** [ends ic r bol s]: the lengths of the matches of [r] at the head of
    [s], in the order the backtracking matcher tries them.  [bol] tells
    whether [s] starts at the beginning of the subject ([^], no MULTILINE);
    [$] holds at the end of the subject and before a final newline. *)
Fixpoint ends (ic : bool) (r : regex) (bol : bool) (s : pystr) : list nat :=
  match r with
  | Empty => [0]
  | Lit l =>
      match s with
      | c :: _ => if lit_matches ic l c then [1] else []
      | [] => []
      end
  | Dot =>
      match s with
      | c :: _ => if (c =? 0x0A)%N then [] else [1]
      | [] => []
      end
  | Set_ neg items =>
      match s with
      | c :: _ => if xorb neg (in_set ic items c) then [1] else []
      | [] => []
      end
  | Bol => if bol then [0] else []
  | Eol =>
      match s with
      | [] => [0]
      | [c] => if (c =? 0x0A)%N then [0] else []
      | _ => []
      end
  | Cat r1 r2 =>
      flat_map (fun n =>
          List.map (Nat.add n) (ends ic r2 (bol && (n =? 0)) (skipn n s)))
        (ends ic r1 bol s)
  | Alt r1 r2 => ends ic r1 bol s ++ ends ic r2 bol s
  | Opt r1 => ends ic r1 bol s ++ [0]
  | Star r1 => star (ends ic r1) (length s) bol s
  | Plus r1 =>
      flat_map (fun n =>
          List.map (Nat.add n)
            (star (ends ic r1) (length s) (bol && (n =? 0)) (skipn n s)))
        (ends ic r1 bol s)
  end.

(** [re.search]: is there a position of the subject where the pattern
    matches?  (A match object is truthy, whatever it matched.) *)
Fixpoint search_from (ic : bool) (r : regex) (bol : bool) (s : pystr) : bool :=
  match ends ic r bol s with
  | _ :: _ => true
  | [] =>
      match s with
      | [] => false
      | _ :: t => search_from ic r false t
      end
  end.

(** [re.search(pattern, text, flags)], [flags] being [re.IGNORECASE] or 0. *)
Definition re_search (p : pattern) (flag_i : bool) (text : pystr) : bool :=
  search_from (ignore_case p || flag_i) (body p) true text.

(** [re.sub] with a literal replacement, scanning left to right.  [skip]
    counts the characters of the last match still to step over.  At a
    position where the first candidate is the empty match, the replacement
    is emitted and the matcher is asked again for a match that advances
    (Python 3.7 and later). *)
Fixpoint sub_from (ic : bool) (r : regex) (repl : pystr) (bol : bool)
    (skip : nat) (s : pystr) {struct s} : pystr :=
  match skip with
  | S k =>
      match s with
      | [] => []
      | _ :: t => sub_from ic r repl false k t
      end
  | 0 =>
      match ends ic r bol s with
      | [] =>
          match s with
          | [] => []
          | c :: t => c :: sub_from ic r repl false 0 t
          end
      | S n :: _ =>
          repl ++ match s with
                  | [] => []
                  | _ :: t => sub_from ic r repl false n t
                  end
      | 0 :: rest =>
          repl ++ match s with
                  | [] => []
                  | c :: t =>
                      match List.find (fun n => 0 <? n) rest with
                      | Some (S n) => repl ++ sub_from ic r repl false n t
                      | _ => c :: sub_from ic r repl false 0 t
                      end
                  end
      end
  end.

Definition re_sub (p : pattern) (repl : pystr) (text : pystr) : pystr :=
  sub_from (ignore_case p) (body p) repl true 0 text.

End Unicode.

(** ** The tables of [ElectionDataCleaner] *)

Definition ci (r : regex) : pattern := Pat true r.     (* (?i)... *)
Definition cs (r : regex) : pattern := Pat false r.    (* no inline flag *)

(** [^$|none|no\s*response], the last rule of four columns. *)
Definition no_response : regex :=
  alt [cat [Bol; Eol]; txt "none"; cat [txt "no"; Star ws; txt "response"]].

(** [COLUMN_PATTERNS]: for each governed column, its rules in the order
    of the dict literal (a dict keeps the order of insertion). *)
Definition COLUMN_PATTERNS : list (string * list (pattern * pystr)) :=
  [ ("Occupation"%string,
     [ (* (?i)trade[r]?\s*$ *)
       (ci (cat [txt "trade"; Opt (oneof "r"); Star ws; Eol]), u "Trader");
       (* (?i)farm(er)?s?\s*$ *)
       (ci (cat [txt "farm"; Opt (txt "er"); Opt (txt "s"); Star ws; Eol]),
        u "Farmer");
       (* (?i)seam?stress|s[ei]amstress *)
       (ci (alt [cat [txt "sea"; Opt (txt "m"); txt "stress"];
                 cat [txt "s"; oneof "ei"; txt "amstress"]]), u "Seamstress");
       (* (?i)hair\s*dress?[e]?r|hair.*style *)
       (ci (alt [cat [txt "hair"; Star ws; txt "dres"; Opt (txt "s");
                      Opt (oneof "e"); txt "r"];
                 cat [txt "hair"; Star Dot; txt "style"]]), u "Hairdresser");
       (* (?i)teach(er)?\s*$ *)
       (ci (cat [txt "teach"; Opt (txt "er"); Star ws; Eol]), u "Teacher");
       (* (?i)driv(er)?\s*$ *)
       (ci (cat [txt "driv"; Opt (txt "er"); Star ws; Eol]), u "Driver");
       (* (?i)okada\s*(rider)? *)
       (ci (cat [txt "okada"; Star ws; Opt (txt "rider")]), u "Okada Rider");
       (* (?i)unemployed? *)
       (ci (cat [txt "unemploye"; Opt (txt "d")]), u "Unemployed") ]);
    ("Party_Belong"%string,
     [ (* (?i)^ndc\s*$|^n$ *)
       (ci (alt [cat [Bol; txt "ndc"; Star ws; Eol]; cat [Bol; txt "n"; Eol]]),
        u "NDC");
       (* (?i)^npp\s*$ *)
       (ci (cat [Bol; txt "npp"; Star ws; Eol]), u "NPP");
       (* (?i)^cpp\s*$ *)
       (ci (cat [Bol; txt "cpp"; Star ws; Eol]), u "CPP");
       (* (?i)new\s*force *)
       (ci (cat [txt "new"; Star ws; txt "force"]), u "New Force");
       (* (?i)none|unknown|cant\s*tell *)
       (ci (alt [txt "none"; txt "unknown"; cat [txt "cant"; Star ws; txt "tell"]]),
        u "Not Specified") ]);
    ("Voted_Last_Election"%string,
     [ (* (?i)^y(es)?$ *)
       (ci (cat [Bol; txt "y"; Opt (txt "es"); Eol]), u "Yes");
       (* (?i)^n(o)?$ *)
       (ci (cat [Bol; txt "n"; Opt (txt "o"); Eol]), u "No") ]);
    ("Reason_Not_Voted"%string,
     [ (* (?i)wasn'?t?\s*interested|no\s*interest *)
       (ci (alt [cat [txt "wasn"; Opt (txt "'"); Opt (txt "t"); Star ws;
                      txt "interested"];
                 cat [txt "no"; Star ws; txt "interest"]]), u "Not Interested");
       (* (?i)no\s*transport|transportation *)
       (ci (alt [cat [txt "no"; Star ws; txt "transport"]; txt "transportation"]),
        u "No Transportation");
       (* (?i)missing\s*id|no\s*id|lost\s*id *)
       (ci (alt [cat [txt "missing"; Star ws; txt "id"];
                 cat [txt "no"; Star ws; txt "id"];
                 cat [txt "lost"; Star ws; txt "id"]]), u "ID Issues");
       (* (?i)sick|illness|health *)
       (ci (alt [txt "sick"; txt "illness"; txt "health"]), u "Health Issues");
       (* (?i)travel|busy|work *)
       (ci (alt [txt "travel"; txt "busy"; txt "work"]), u "Not Available");
       (* (?i)^$|none|no\s*response *)
       (ci no_response, u "No Response") ]);
    ("Know_Projects"%string,
     [ (* (?i)yes.*knew.*about.*them *)
       (ci (cat [txt "yes"; Star Dot; txt "knew"; Star Dot; txt "about";
                 Star Dot; txt "them"]), u "Yes, Knew Projects");
       (* (?i)heard.*but.*not.*helpful *)
       (ci (cat [txt "heard"; Star Dot; txt "but"; Star Dot; txt "not";
                 Star Dot; txt "helpful"]), u "Heard But Not Helpful");
       (* (?i)did.*not.*know|don'?t?\s*know *)
       (ci (alt [cat [txt "did"; Star Dot; txt "not"; Star Dot; txt "know"];
                 cat [txt "don"; Opt (txt "'"); Opt (txt "t"); Star ws;
                      txt "know"]]), u "Did Not Know");
       (* (?i)^$|none|no\s*response *)
       (ci no_response, u "No Response") ]);
    ("Solved_Community_Problems"%string,
     [ (* (?i)yes.*solved.*major.*issue *)
       (ci (cat [txt "yes"; Star Dot; txt "solved"; Star Dot; txt "major";
                 Star Dot; txt "issue"]), u "Yes, Solved Major Issues");
       (* (?i)tried.*but.*wasn'?t?\s*enough|partial *)
       (ci (alt [cat [txt "tried"; Star Dot; txt "but"; Star Dot; txt "wasn";
                      Opt (txt "'"); Opt (txt "t"); Star ws; txt "enough"];
                 txt "partial"]), u "Partial Solution");
       (* (?i)no.*solution|didn'?t?\s*solve *)
       (ci (alt [cat [txt "no"; Star Dot; txt "solution"];
                 cat [txt "didn"; Opt (txt "'"); Opt (txt "t"); Star ws;
                      txt "solve"]]), u "No Solution");
       (* (?i)^$|none|no\s*response *)
       (ci no_response, u "No Response") ]);
    ("Fair_Election_Results"%string,
     [ (* (?i)^y(es)?$|fair *)
       (ci (alt [cat [Bol; txt "y"; Opt (txt "es"); Eol]; txt "fair"]), u "Yes");
       (* (?i)^n(o)?$|unfair *)
       (ci (alt [cat [Bol; txt "n"; Opt (txt "o"); Eol]; txt "unfair"]), u "No");
       (* (?i)don'?t?\s*know|unsure *)
       (ci (alt [cat [txt "don"; Opt (txt "'"); Opt (txt "t"); Star ws;
                      txt "know"]; txt "unsure"]), u "Don't Know");
       (* (?i)^$|none|no\s*response *)
       (ci no_response, u "No Response") ]) ].

(** The mis-decoded sequences of the source, by code point:
    U+00C3 A-tilde, U+00C2 A-circumflex, U+00E2 a-circumflex, U+00A2 cent,
    U+20AC euro, U+2122 trade mark, U+0153 oe, U+201A low quote,
    U+00AC not sign, U+201E low double quote, U+0082 and U+0092 controls. *)
Definition quote_char : N := 0x22%N.
Definition apostrophe : N := ch "'".

(** [TEXT_PATTERNS], in the order of the dict literal. *)
Definition TEXT_PATTERNS : list (string * pattern) :=
  [ ("encoding_artifacts"%string,
     cs (alt [cat [Lit 0xC3; Star ws; Lit 0xC2];
              cat [Lit 0xC3; Star ws; word];
              cat [Star ws; Lit 0xC2];
              cat [Lit 0xC2; Lit (ch "t")];
              lits [0xE2; 0x20AC; 0x2122]%N;
              lits [0xE2; 0x20AC]%N;
              lits [0xC3; 0xA2; 0xE2; 0x201A; 0xAC; 0xE2; 0x201E; 0xA2]%N]));
    ("apostrophes"%string, cs (Set_ false [CChar apostrophe; CChar apostrophe]));
    ("quotes"%string,
     cs (Set_ false [CChar quote_char; CChar quote_char; CChar quote_char]));
    ("whitespace"%string, cs (Plus ws));
    ("special_chars"%string,
     cs (Set_ true [CWord; CSpace; CChar apostrophe; CChar (ch "-")]));
    ("trailing"%string, cs (alt [cat [Bol; Plus ws]; cat [Plus ws; Eol]]));
    ("multiple_spaces"%string, cs (Plus (Lit (ch " ")))) ].

Definition TEXT_REPLACEMENTS : list (string * pystr) :=
  [ ("encoding_artifacts"%string, []);
    ("apostrophes"%string, [apostrophe]);
    ("whitespace"%string, u " ");
    ("special_chars"%string, []);
    ("trailing"%string, []);
    ("quotes"%string, []);
    ("multiple_spaces"%string, u " ") ].

(** Lookup in a dict literal kept as an association list. *)
Fixpoint assoc {A : Type} (k : string) (l : list (string * A)) : option A :=
  match l with
  | [] => None
  | (k', v) :: t => if String.eqb k k' then Some v else assoc k t
  end.

(** The pattern of [TEXT_PATTERNS] with the given name. *)
Definition text_pattern (name : string) : pattern :=
  match assoc name TEXT_PATTERNS with
  | Some p => p
  | None => cs Empty
  end.

(** ** Builtins of [str] *)

Fixpoint is_prefix (p s : pystr) : bool :=
  match p, s with
  | [], _ => true
  | a :: p', b :: s' => (a =? b)%N && is_prefix p' s'
  | _ :: _, [] => false
  end.

(** [s.replace(old, new)] for a non-empty [old]: the occurrences of [old]
    from left to right, without overlap.  [skip] counts the characters of
    the last occurrence still to step over. *)
Fixpoint replace_from (old new : pystr) (skip : nat) (s : pystr) : pystr :=
  match skip with
  | S k =>
      match s with
      | [] => []
      | _ :: t => replace_from old new k t
      end
  | 0 =>
      match s with
      | [] => []
      | c :: t =>
          if is_prefix old s
          then new ++ replace_from old new (length old - 1) t
          else c :: replace_from old new 0 t
      end
  end.

Definition str_replace (old new s : pystr) : pystr := replace_from old new 0 s.

Fixpoint lstrip (s : pystr) : pystr :=
  match s with
  | c :: t => if is_space c then lstrip t else s
  | [] => []
  end.

Fixpoint rstrip (s : pystr) : pystr :=
  match s with
  | [] => []
  | c :: t =>
      match rstrip t with
      | [] => if is_space c then [] else [c]
      | t' => c :: t'
      end
  end.

(** [s.strip()]. *)
Definition str_strip (s : pystr) : pystr := rstrip (lstrip s).

Section Cleaner.

Variable uni_alnum : N -> bool.

(** The loop of [clean_text] over [TEXT_PATTERNS.items()]: every pattern
    but [encoding_artifacts], each with the replacement of its name.
    (Every name has a replacement, so the lookup never raises.) *)
Definition apply_text_patterns (text : pystr) : pystr :=
  fold_left (fun text (kv : string * pattern) =>
      let (pattern_name, p) := kv in
      if String.eqb pattern_name "encoding_artifacts" then text
      else
        match assoc pattern_name TEXT_REPLACEMENTS with
        | Some replacement => re_sub uni_alnum p replacement text
        | None => text
        end) TEXT_PATTERNS text.

Definition encoding_artifacts : pattern := text_pattern "encoding_artifacts".

(** The body of [clean_text] for a value that is not missing, up to its
    [return]. *)
Definition clean_steps (text : pystr) : pystr :=
  let text := str_replace [0xC3; 0xA2]%N (u "a") text in
  let text := str_replace [0xC2; ch "t"]%N (u "'t") text in
  let text := str_replace [0xE2; 0x20AC; 0x2122]%N [apostrophe] text in
  let text := str_replace [0xE2; 0x20AC; 0x153]%N [quote_char] text in
  let text := str_replace [0xE2; 0x20AC]%N [quote_char] text in
  let text := str_replace [0xC3; 0x82; 0xC2; 0x92]%N [apostrophe] text in
  let text := str_replace [0xC3; 0x82; 0xC2]%N [apostrophe] text in
  let text := re_sub uni_alnum encoding_artifacts [] text in
  let text := apply_text_patterns text in
  let text := str_strip text in
  re_sub uni_alnum (cs (Plus ws)) (u " ") text.

(** [clean_text]: [text or "Unknown"] is ["Unknown"] for the empty text. *)
Definition clean_text (v : value) : pystr :=
  match v with
  | NaN => u "Unknown"
  | Str text =>
      match clean_steps text with
      | [] => u "Unknown"
      | text => text
      end
  end.

(** The rules of a column ([None]: the column is not governed). *)
Definition rules_of (column : string) : option (list (pattern * pystr)) :=
  assoc column COLUMN_PATTERNS.

(** The loop of [match_pattern] over the rules of the column. *)
Fixpoint first_match (rules : list (pattern * pystr)) (text : pystr) : pystr :=
  match rules with
  | [] => u "Other"
  | (p, replacement) :: rest =>
      if re_search uni_alnum p true text then replacement
      else first_match rest text
  end.

(** [match_pattern], the closure of [standardize_column_with_search] for a
    governed column with rules [rules]. *)
Definition match_pattern (rules : list (pattern * pystr)) (text : value) : pystr :=
  first_match rules (clean_text text).

End Cleaner.

(** ** The dataset *)

(** A pandas [Series] of cells, and a [DataFrame]: the length of its index
    and its columns in order.  [pd.read_csv] makes the column names
    unique, and every column of a frame has as many cells as the index. *)
Definition Series : Type := list value.

Record DataFrame : Type := Frame { index : nat; columns : list (string * Series) }.

Definition column_names (df : DataFrame) : list string := List.map fst (columns df).

(** [column in df.columns] *)
Definition has_column (df : DataFrame) (column : string) : bool :=
  existsb (String.eqb column) (column_names df).

(** [df[column]]; [None] stands for [KeyError]. *)
Definition get_column (df : DataFrame) (column : string) : option Series :=
  assoc column (columns df).

Fixpoint set_assoc (k : string) (s : Series) (l : list (string * Series)) :
    list (string * Series) :=
  match l with
  | [] => [(k, s)]
  | (k', s') :: t => if String.eqb k k' then (k, s) :: t else (k', s') :: set_assoc k s t
  end.

(** [df[column] = s]: the column is replaced where it stands, or added
    after the others. *)
Definition set_column (df : DataFrame) (column : string) (s : Series) : DataFrame :=
  Frame (index df) (set_assoc column s (columns df)).

Definition well_formed (df : DataFrame) : Prop :=
  NoDup (column_names df) /\
  Forall (fun c : string * Series => length (snd c) = index df) (columns df).

(** [df.isnull().sum()]: the number of missing cells of each column. *)
Definition is_nan (v : value) : bool :=
  match v with NaN => true | Str _ => false end.

Definition null_counts (df : DataFrame) : list (string * nat) :=
  List.map (fun c : string * Series => (fst c, length (List.filter is_nan (snd c))))
    (columns df).

(** What a method does: it returns, or a [KeyError] escapes it. *)
Inductive outcome (A : Type) : Type :=
| Returns (a : A)
| KeyError.
Arguments Returns {A} a.
Arguments KeyError {A}.

Section Standardize.

Variable uni_alnum : N -> bool.

(** [standardize_column_with_search]. *)
Definition standardize_column_with_search (column : string) (df : DataFrame) :
    outcome DataFrame :=
  match rules_of column with
  | None => Returns df
  | Some rules =>
      match get_column df column with
      | None => KeyError
      | Some s =>
          Returns (set_column df column
                     (List.map (fun v => Str (match_pattern uni_alnum rules v)) s))
      end
  end.

(** [Series.replace(to_replace=pattern, value=replacement, regex=True)] on
    a cell: a text cell becomes [re.sub(pattern, replacement, cell)], any
    other cell is kept. *)
Definition replace_regex (p : pattern) (replacement : pystr) (v : value) : value :=
  match v with
  | Str s => Str (re_sub uni_alnum p replacement s)
  | NaN => NaN
  end.

(** What [standardize_column] makes of one cell: [clean_text], then the
    replacement of every rule in turn. *)
Definition bulk_value (rules : list (pattern * pystr)) (v : value) : value :=
  fold_left (fun cell (rule : pattern * pystr) => replace_regex (fst rule) (snd rule) cell)
    rules (Str (clean_text uni_alnum v)).

(** [standardize_column], the legacy method (no caller); the report it
    logs afterwards reads the frame and changes nothing. *)
Definition standardize_column (column : string) (df : DataFrame) : outcome DataFrame :=
  match rules_of column with
  | None => Returns df
  | Some rules =>
      match get_column df column with
      | None => KeyError
      | Some s => Returns (set_column df column (List.map (bulk_value rules) s))
      end
  end.

End Standardize.

(** ** The cleaner: loading, cleaning, saving *)

Inductive encoding : Type := utf_8 | latin1 | cp1252.

(** What [pd.read_csv(input_file, encoding=...)] does: it returns a frame,
    raises [UnicodeDecodeError], or raises another [Exception] (with its
    text). *)
Inductive read_result : Type :=
| Parsed (df : DataFrame)
| UnicodeDecodeError
| OtherException (e : string).

Inductive level : Type := INFO | WARNING | ERROR.

(** The lines that are logged, by their format string. *)
Inductive message : Type :=
| Logging_to_file (log_file : string)
| Missing_columns (missing_cols : list string)
| Successfully_loaded (enc : encoding)
| Loaded_records (n : nat)
| Error_loading_data (e : string)
| Failed_to_load_with_any_encoding
| No_data_loaded
| Starting_cleaning
| Cleaning_column (column : string)
| Cleaning_summary
| Filled_nulls (column : string) (filled : Z)
| Saved_cleaned_data
| Error_saving_data (e : string).

(** The state of a run: [self.data], the log written so far and the
    encodings [pd.read_csv] was called with, oldest first. *)
Record cleaner : Type := Cleaner {
  data : option DataFrame;
  log : list (level * message);
  reads : list encoding
}.

(** [__init__] *)
Definition init : cleaner := Cleaner None [] [].

Definition logging (l : level) (m : message) (st : cleaner) : cleaner :=
  Cleaner (data st) (log st ++ [(l, m)]) (reads st).

(** What the file system answers to [setup_logging], which makes the
    directory [../logs] and opens in it a log file named after the time
    of the run: the path of the file, or the exception that [mkdir] or
    [logging.FileHandler] raises (its text). *)
Inductive log_result : Type :=
| LogFile (log_file : string)
| LogError (e : string).

(** [setup_logging]: the exception escapes, or the two handlers are
    installed and the first line is logged. *)
Definition setup_logging (open_log : log_result) : string + list (level * message) :=
  match open_log with
  | LogError e => inl e
  | LogFile log_file => inr [(INFO, Logging_to_file log_file)]
  end.

(** The state of the run after [setup_logging] and [__init__]. *)
Definition started (log_file : string) : cleaner :=
  Cleaner None [(INFO, Logging_to_file log_file)] [].

(** How a run of [main] ends: it returns, the exception of
    [setup_logging] escapes, or a [KeyError] does. *)
Inductive ending (A : Type) : Type :=
| Finishes (a : A)
| SetupRaises (e : string)
| KeyErrorRaised.
Arguments Finishes {A} a.
Arguments SetupRaises {A} e.
Arguments KeyErrorRaised {A}.

Definition governed : list string := List.map fst COLUMN_PATTERNS.

(** [validate_data] *)
Definition validate_data (st : cleaner) : cleaner :=
  match data st with
  | None => st
  | Some df =>
      let missing_cols := List.filter (fun col => negb (has_column df col)) governed in
      match missing_cols with
      | [] => st
      | _ => logging WARNING (Missing_columns missing_cols) st
      end
  end.

Definition encodings : list encoding := [utf_8; latin1; cp1252].

Section Load.

(** The input file, seen through [pd.read_csv]. *)
Variable read_csv : encoding -> read_result.

(** The loop of [load_data] over the encodings left to try. *)
Fixpoint load_loop (encs : list encoding) (st : cleaner) : cleaner * bool :=
  match encs with
  | [] => (logging ERROR Failed_to_load_with_any_encoding st, false)
  | enc :: rest =>
      let st := Cleaner (data st) (log st) (reads st ++ [enc]) in
      match read_csv enc with
      | Parsed df =>
          let st := Cleaner (Some df) (log st) (reads st) in
          let st := validate_data st in
          let st := logging INFO (Successfully_loaded enc) st in
          let st := logging INFO (Loaded_records (index df)) st in
          (st, true)
      | UnicodeDecodeError => load_loop rest st
      | OtherException e => (logging ERROR (Error_loading_data e) st, false)
      end
  end.

(** [load_data] *)
Definition load_data (st : cleaner) : cleaner * bool := load_loop encodings st.

End Load.

Section Clean.

Variable uni_alnum : N -> bool.

(** The loop of [clean_data] over [COLUMN_PATTERNS.keys()]. *)
Fixpoint clean_columns (cols : list string) (df : DataFrame) (lg : list (level * message)) :
    outcome (DataFrame * list (level * message)) :=
  match cols with
  | [] => Returns (df, lg)
  | column :: rest =>
      if has_column df column then
        let lg := lg ++ [(INFO, Cleaning_column column)] in
        match standardize_column_with_search uni_alnum column df with
        | Returns df' => clean_columns rest df' lg
        | KeyError => KeyError
        end
      else clean_columns rest df lg
  end.

(** The summary of [clean_data]: a line for each column whose number of
    missing cells changed. *)
Definition summary (initial final : list (string * nat)) : list (level * message) :=
  flat_map (fun c : string * nat =>
      match assoc (fst c) initial with
      | Some initial_nulls =>
          if Nat.eqb initial_nulls (snd c) then []
          else [(INFO, Filled_nulls (fst c) (Z.of_nat initial_nulls - Z.of_nat (snd c)))]
      | None => []
      end) final.

(** [clean_data] *)
Definition clean_data (st : cleaner) : outcome (cleaner * bool) :=
  match data st with
  | None => Returns (logging ERROR No_data_loaded st, false)
  | Some df =>
      let lg := log st ++ [(INFO, Starting_cleaning)] in
      let initial_null_counts := null_counts df in
      match clean_columns governed df lg with
      | KeyError => KeyError
      | Returns (df', lg) =>
          let final_null_counts := null_counts df' in
          let lg := lg ++ [(INFO, Cleaning_summary)]
                       ++ summary initial_null_counts final_null_counts in
          Returns (Cleaner (Some df') lg (reads st), true)
      end
  end.

(** [save_cleaned_data]: [to_csv] writes the frame ([None]) or raises
    (its text); the files written are kept next to the state. *)
Definition save_cleaned_data (to_csv : DataFrame -> option string)
    (st : cleaner) (written : list DataFrame) : cleaner * list DataFrame * bool :=
  match data st with
  | None =>
      (logging ERROR (Error_saving_data "'NoneType' object has no attribute 'to_csv'") st,
       written, false)
  | Some df =>
      match to_csv df with
      | None => (logging INFO Saved_cleaned_data st, written ++ [df], true)
      | Some e => (logging ERROR (Error_saving_data e) st, written, false)
      end
  end.

(** [main]: [setup_logging()] comes first, outside any [try]; then
    [load_data() and clean_data()] guards the save. *)
Definition main (open_log : log_result) (read_csv : encoding -> read_result)
    (to_csv : DataFrame -> option string) : ending (cleaner * list DataFrame) :=
  match setup_logging open_log with
  | inl e => SetupRaises e
  | inr lg =>
      (* [ElectionDataCleaner(...)]: the state of [init], with the log so far *)
      let cleaner := Cleaner (data init) lg (reads init) in
      let (st, loaded) := load_data read_csv cleaner in
      if loaded then
        match clean_data st with
        | KeyError => KeyErrorRaised
        | Returns (st, cleaned) =>
            if cleaned then
              let '(st, written, _) := save_cleaned_data to_csv st [] in
              Finishes (st, written)
            else Finishes (st, [])
        end
      else Finishes (st, [])
  end.

End Clean.

(** ** Names used by the statements *)

(** A table of [str.isalnum] with nothing beyond Latin-1, for the closed
    instances below; none of them reads it. *)
Definition latin1_table : N -> bool := fun _ => false.

(** The rules of a governed column (empty for any other name) and the
    labels they can give. *)
Definition rules_at (column : string) : list (pattern * pystr) :=
  match rules_of column with
  | Some rules => rules
  | None => []
  end.

Definition labels (rules : list (pattern * pystr)) : list pystr := List.map snd rules.

(** The canonical labels that the categoriser does not map to themselves. *)
Definition lost_labels : list (string * pystr) :=
  [ ("Party_Belong"%string, u "Not Specified");
    ("Reason_Not_Voted"%string, u "Not Interested");
    ("Reason_Not_Voted"%string, u "ID Issues");
    ("Reason_Not_Voted"%string, u "Not Available");
    ("Know_Projects"%string, u "Yes, Knew Projects") ].

Definition is_lost (column : string) (label : pystr) : bool :=
  existsb (fun e : string * pystr => String.eqb column (fst e) && pystr_eqb label (snd e))
    lost_labels.

(** A survey file with its header and no record, as [pd.read_csv] parses
    it, and the file every encoding reads like that. *)
Definition header_only : DataFrame :=
  Frame 0 (List.map (fun column => (column, [])) ("Respondent"%string :: governed)).

Definition read_header_only : encoding -> read_result := fun _ => Parsed header_only.

(** A file that is not UTF-8 and parses as Latin-1, and one that no
    encoding decodes. *)
Definition latin1_file (df : DataFrame) : encoding -> read_result :=
  fun enc => match enc with utf_8 => UnicodeDecodeError | _ => Parsed df end.

Definition undecodable : encoding -> read_result := fun _ => UnicodeDecodeError.

(** A small survey: two governed columns and one that is not. *)
Definition survey : DataFrame :=
  Frame 3
    [ ("Age"%string, [Str (u "34"); Str (u "51"); NaN]);
      ("Occupation"%string, [Str (u "FARMERS "); Str (u "petty trader"); Str (u "Nurse")]);
      ("Party_Belong"%string, [Str (u "ndc"); NaN; Str (u "dont know")]) ].

(** [pd.read_csv] raises [UnicodeDecodeError] for the encoding. *)
Definition decode_fails (read_csv : encoding -> read_result) (enc : encoding) : Prop :=
  read_csv enc = UnicodeDecodeError.

(** The state [load_data] leaves when [enc] parses as [df] after the
    encodings [before] were refused. *)
Definition loaded (st : cleaner) (before : list encoding) (enc : encoding)
    (df : DataFrame) : cleaner :=
  logging INFO (Loaded_records (index df))
    (logging INFO (Successfully_loaded enc)
       (validate_data (Cleaner (Some df) (log st) (reads st ++ before ++ [enc])))).

(** The new cell of a governed column. *)
Definition cell_of (uni_alnum : N -> bool) (column : string) (v : value) : value :=
  Str (match_pattern uni_alnum (rules_at column) v).

(** The rule of a column at a position of its table. *)
Definition rule_at (column : string) (i : nat) : pattern * pystr :=
  nth i (rules_at column) (cs Empty, []).

(** What [clean_data] makes of [survey]. *)
Definition survey_cleaned : DataFrame :=
  Frame 3
    [ ("Age"%string, [Str (u "34"); Str (u "51"); NaN]);
      ("Occupation"%string, [Str (u "Farmer"); Str (u "Trader"); Str (u "Other")]);
      ("Party_Belong"%string, [Str (u "NDC"); Str (u "Not Specified"); Str (u "Other")]) ].

(** ** Shapes of text used to state what [clean_text] does *)

(** The value is missing or its text has no A-tilde (U+00C3), the first
    character of the two-byte sequences that were decoded as Latin-1. *)
Definition without_A_tilde (v : value) : bool :=
  match v with
  | NaN => true
  | Str s => forallb (fun c => negb (c =? 0xC3)%N) s
  end.

(** The length of the run of characters of class [C] at the head of [s]. *)
Fixpoint run (C : N -> bool) (s : pystr) : nat :=
  match s with
  | c :: t => if C c then S (run C t) else 0
  | [] => 0
  end.

(** Every run of characters of class [C] replaced by [repl]; [inrun]
    tells that the character before [s] was of the class. *)
Fixpoint squeeze (C : N -> bool) (repl : pystr) (inrun : bool) (s : pystr) : pystr :=
  match s with
  | [] => []
  | c :: t =>
      if C c then (if inrun then [] else repl) ++ squeeze C repl true t
      else c :: squeeze C repl false t
  end.

(** Every white space of [s] is a single U+0020 between two other
    characters; [prev_ws] tells that [s] follows a white space (or
    starts the text). *)
Fixpoint spaced (prev_ws : bool) (s : pystr) : bool :=
  match s with
  | [] => negb prev_ws
  | c :: t =>
      if is_space c then negb prev_ws && (c =? 0x20)%N && spaced true t
      else spaced false t
  end.

(** The characters that the pattern [special_chars] keeps. *)
Definition keep (uni_alnum : N -> bool) (c : N) : bool :=
  in_set uni_alnum false [CWord; CSpace; CChar apostrophe; CChar (ch "-")] c.

(** A character that [clean_text] can return: kept by [special_chars]
    and neither A-tilde nor A-circumflex. *)
Definition plain (uni_alnum : N -> bool) (c : N) : bool :=
  keep uni_alnum c && negb (c =? 0xC3)%N && negb (c =? 0xC2)%N.

(** Text that [clean_text] leaves as it is. *)
Definition normal (uni_alnum : N -> bool) (s : pystr) : bool :=
  forallb (plain uni_alnum) s && spaced true s.

(** A mis-decoded answer: the e-acute of "cafe au lait", UTF-8 read as
    Latin-1 (A-tilde, copyright sign); and an answer whose apostrophe was
    mis-decoded (a-circumflex, euro sign, trade mark sign). *)
Definition cafe_au_lait : pystr := u "caf" ++ [0xC3; 0xA9]%N ++ u " au lait".
Definition dont_know : pystr := u "don" ++ [0xE2; 0x20AC; 0x2122]%N ++ u "t  know".

(** [Ã\s*\w], the second alternative of [encoding_artifacts]: an A-tilde
    and, after optional white space, a word character. *)
Definition A_tilde_then_word : pattern := cs (cat [Lit 0xC3%N; Star ws; word]).

(** A mis-decoded answer that [clean_text] repairs at once: the
    a-circumflex of "pate", UTF-8 read as Latin-1 (A-tilde, cent sign). *)
Definition pate : pystr := u "p" ++ [0xC3; 0xA2]%N ++ u "te".

(** A necessary condition for the rule [none|unknown|cant\s*tell] to match
    at the head of [s]: [s] starts with [u], [no] or [ca], in any case. *)
Definition none_may_start (s : pystr) : bool :=
  match s with
  | [] => false
  | a :: t =>
      lit_matches true (ch "u") a
      || lit_matches true (ch "n") a
         && match t with x :: _ => lit_matches true (ch "o") x | [] => false end
      || lit_matches true (ch "c") a
         && match t with x :: _ => lit_matches true (ch "a") x | [] => false end
  end.

(** ** Names used by the further properties *)

(** A file that [pd.read_csv] cannot read as UTF-8 for another reason than
    its bytes (the parser gives up), and reads as [df] otherwise. *)
Definition unparsable_utf8 (df : DataFrame) : encoding -> read_result :=
  fun enc =>
    match enc with
    | utf_8 => OtherException "Error tokenizing data"
    | _ => Parsed df
    end.

(** The governed columns that the frame has not, in the order of
    [COLUMN_PATTERNS]. *)
Definition missing_columns (df : DataFrame) : list string :=
  List.filter (fun col => negb (has_column df col)) governed.

Definition is_governed (column : string) : bool :=
  match rules_of column with
  | Some _ => true
  | None => false
  end.

(** The number of missing cells of a column. *)
Definition nulls (s : Series) : nat := length (List.filter is_nan s).

(** A survey without the column [Occupation] and five more governed
    columns. *)
Definition party_only : DataFrame :=
  Frame 2 [ ("Party_Belong"%string, [Str (u "npp"); NaN]) ].

(** The repaired texts that the rule [^ndc\s*$|^n$] accepts. *)
Definition ndc_spellings : list pystr :=
  [ u "n"; u "N"; u "ndc"; u "ndC"; u "nDc"; u "nDC";
    u "Ndc"; u "NdC"; u "NDc"; u "NDC" ].

(** [to_csv] that writes every frame, and one that cannot write. *)
Definition writes_all : DataFrame -> option string := fun _ => None.
Definition disk_full : DataFrame -> option string := fun _ => Some "No space left on device"%string.

(** ** The report of [scripts/electoral_loss_analysis.py]

    The script is a sequence of statements on the frame it reads.  The
    columns it counts are modelled with the operations of pandas it uses;
    a percentage it prints is a float made of two counts, and the model
    keeps the two counts. *)

(** [s.fillna(value)] *)
Definition fillna (value : pystr) (s : Series) : Series :=
  List.map (fun v => match v with NaN => Str value | Str _ => v end) s.

(** The cell holds the text [label]. *)
Definition holds (label : pystr) (v : value) : bool :=
  match v with
  | Str t => pystr_eqb t label
  | NaN => false
  end.

(** [s.value_counts()], read in the two ways the key findings read it:
    [counts[label]], which raises [KeyError] for a label that no cell
    holds (the counts have an entry for each text of the column, missing
    cells left out), and [counts.sum()]. *)
Definition count_of (label : pystr) (s : Series) : nat :=
  length (List.filter (holds label) s).

Definition value_counts_at (label : pystr) (s : Series) : outcome nat :=
  match count_of label s with
  | 0 => KeyError
  | n => Returns n
  end.

Definition value_counts_sum (s : Series) : nat :=
  length (List.filter (fun v => negb (is_nan v)) s).

(** [s[s.isin(labels)]] *)
Definition isin (labels : list pystr) (s : Series) : Series :=
  List.filter (fun v => existsb (fun l => holds l v) labels) s.

(** Key finding 1: the two counts of the voting participation rate,
    [voted_distribution['Yes']] and [voted_distribution.sum()], of the
    column [Voted_Last_Election] after its [fillna('No Response')]. *)
Definition participation_counts (voted : Series) : outcome (nat * nat) :=
  let voted_distribution := fillna (u "No Response") voted in
  match value_counts_at (u "Yes") voted_distribution with
  | KeyError => KeyError
  | Returns yes => Returns (yes, value_counts_sum voted_distribution)
  end.

(** Key finding 2: the two counts of the party support ratio,
    [party_support['NDC']] and [party_support['NPP']], of the column
    [Party_Belong] after its [fillna('No Response')]. *)
Definition party_support_counts (party : Series) : outcome (nat * nat) :=
  let party_support := isin [u "NPP"; u "NDC"] (fillna (u "No Response") party) in
  match value_counts_at (u "NDC") party_support with
  | KeyError => KeyError
  | Returns ndc =>
      match value_counts_at (u "NPP") party_support with
      | KeyError => KeyError
      | Returns npp => Returns (ndc, npp)
      end
  end.

(** [s.str.contains('Yes', na=False)] on a cell: [re.search('Yes', text)],
    and [False] for a missing cell. *)
Definition contains_yes (uni_alnum : N -> bool) (v : value) : bool :=
  match v with
  | Str t => re_search uni_alnum (cs (txt "Yes")) false t
  | NaN => false
  end.

(** A cell of a column as [pd.read_csv] gives it to the report: a text or
    a missing cell, or a number or a boolean where the parser read one
    (its value plays no part below). *)
Inductive parsed : Type :=
| Object (v : value)
| Number.

Definition is_text (c : parsed) : bool :=
  match c with
  | Object (Str _) => true
  | _ => false
  end.

Definition is_missing (c : parsed) : bool :=
  match c with
  | Object NaN => true
  | _ => false
  end.

(** [s.str]: pandas gives the accessor for a column that holds a text or
    has no row (dtype object), and raises [AttributeError] for any other
    column: numbers, booleans, or missing cells only. *)
Definition has_str (s : list parsed) : bool :=
  match s with
  | [] => true
  | _ :: _ => existsb is_text s
  end.

(** [s.str.contains('Yes', na=False)] on a cell of a column that has the
    accessor: a cell that is no text gives a missing answer, which
    [na=False] makes [False]. *)
Definition str_contains_yes (uni_alnum : N -> bool) (c : parsed) : bool :=
  match c with
  | Object v => contains_yes uni_alnum v
  | Number => false
  end.

(** What the computation of a count on [s.str] does: it gives the count,
    or the [AttributeError] of the accessor escapes. *)
Inductive counted (A : Type) : Type :=
| Counted (a : A)
| AttributeError.
Arguments Counted {A} a.
Arguments AttributeError {A}.

(** Key finding 4: the two counts of the project awareness rate, the rows
    of [Know_Projects] that contain [Yes] and [notna().sum()]; the
    accessor is evaluated first. *)
Definition awareness_counts (uni_alnum : N -> bool) (know : list parsed) :
    counted (nat * nat) :=
  if has_str know
  then Counted (length (List.filter (str_contains_yes uni_alnum) know),
                length (List.filter (fun c => negb (is_missing c)) know))
  else AttributeError.

(** ** The requirements of [setup.py] *)

Definition starts_with (c : N) (line : pystr) : bool :=
  match line with
  | x :: _ => (x =? c)%N
  | [] => false
  end.

Definition nonempty (s : pystr) : bool :=
  match s with
  | [] => false
  | _ :: _ => true
  end.

(** [install_requires]: the list comprehension over the lines of
    [requirements.txt] (each with its end of line). *)
Definition install_requires (lines : list pystr) : list pystr :=
  List.map str_strip
    (List.filter (fun line => nonempty (str_strip line) && negb (starts_with (ch "#") line))
       lines).

(** * Properties *)

(** ** Columns of a frame *)

Lemma assoc_set_assoc_eq k s l : assoc k (set_assoc k s l) = Some s.
Proof.
  induction l as [|[k' s'] t IH]; simpl.
  - now rewrite String.eqb_refl.
  - destruct (String.eqb k k') eqn:E; simpl.
    + now rewrite String.eqb_refl.
    + now rewrite E.
Qed.

Lemma assoc_set_assoc_ne k k' s l : k <> k' -> assoc k' (set_assoc k s l) = assoc k' l.
Proof.
  intros Hne. induction l as [|[k0 s0] t IH]; simpl.
  - destruct (String.eqb k' k) eqn:E; [|reflexivity].
    apply String.eqb_eq in E. congruence.
  - destruct (String.eqb k k0) eqn:E; simpl.
    + apply String.eqb_eq in E. subst k0.
      destruct (String.eqb k' k) eqn:E'; [|reflexivity].
      apply String.eqb_eq in E'. congruence.
    + now rewrite IH.
Qed.

Lemma names_set_assoc k s l :
  assoc k l <> None -> List.map fst (set_assoc k s l) = List.map fst l.
Proof.
  induction l as [|[k' s'] t IH]; simpl; intros H.
  - congruence.
  - destruct (String.eqb k k') eqn:E; simpl.
    + apply String.eqb_eq in E. now subst.
    + f_equal. now apply IH.
Qed.

Lemma get_set_column_eq df column s :
  get_column (set_column df column s) column = Some s.
Proof. apply assoc_set_assoc_eq. Qed.

Lemma get_set_column_ne df column column' s :
  column <> column' -> get_column (set_column df column s) column' = get_column df column'.
Proof. apply assoc_set_assoc_ne. Qed.

Lemma has_column_get df column :
  has_column df column = true <-> get_column df column <> None.
Proof.
  unfold has_column, get_column, column_names. destruct df as [n cols]. simpl.
  induction cols as [|[k s] t IH]; simpl.
  - split; [discriminate | congruence].
  - destruct (String.eqb column k); simpl; [split; [discriminate | reflexivity] | exact IH].
Qed.

Lemma assoc_In {A} (k : string) (v : A) l : assoc k l = Some v -> In (k, v) l.
Proof.
  induction l as [|[k' v'] t IH]; simpl; [discriminate|].
  destruct (String.eqb k k') eqn:E.
  - apply String.eqb_eq in E. intros [= ->]. left. now subst.
  - intros H. right. now apply IH.
Qed.

(** ** The categoriser *)

Section Matcher.

Variable uni_alnum : N -> bool.

Lemma first_match_in_labels rules text :
  In (first_match uni_alnum rules text) (labels rules ++ [u "Other"]).
Proof.
  induction rules as [|[p l] rest IH]; simpl.
  - now left.
  - destruct (re_search uni_alnum p true text); [now left | now right].
Qed.

(** C1: for a governed column, whatever the cell, [match_pattern] returns
    one of the labels of the column's rule table or ["Other"]; after
    [standardize_column_with_search] every cell of the column is such a
    label, whatever text it held. *)
Theorem match_pattern_in_labels column rules :
  rules_of column = Some rules ->
  (forall text : value,
     In (match_pattern uni_alnum rules text) (labels rules ++ [u "Other"])) /\
  (forall df df' s,
     standardize_column_with_search uni_alnum column df = Returns df' ->
     get_column df' column = Some s ->
     Forall (fun cell => exists l, cell = Str l /\ In l (labels rules ++ [u "Other"])) s).
Proof.
  intros Hrules. split.
  - intros text. apply first_match_in_labels.
  - intros df df' s. unfold standardize_column_with_search. rewrite Hrules.
    destruct (get_column df column) as [s0|] eqn:Hget; [|discriminate].
    intros [= <-]. rewrite get_set_column_eq. intros [= <-].
    apply Forall_forall. intros cell Hin. apply in_map_iff in Hin.
    destruct Hin as [v [<- _]]. eexists. split; [reflexivity|].
    apply first_match_in_labels.
Qed.

Lemma first_match_split before p l after text :
  Forall (fun r : pattern * pystr => re_search uni_alnum (fst r) true text = false) before ->
  re_search uni_alnum p true text = true ->
  first_match uni_alnum (before ++ (p, l) :: after) text = l.
Proof.
  induction 1 as [|[q m] before Hq _ IH]; simpl; intros Hp.
  - now rewrite Hp.
  - simpl in Hq. rewrite Hq. now apply IH.
Qed.

(** C4: the rules of a column are tried in the order of the table, with
    IGNORECASE, and the label of the first rule that matches the repaired
    text is returned, whatever the later rules [after] do. *)
Theorem first_match_wins column rules before p l after (text : value) :
  rules_of column = Some rules ->
  rules = before ++ (p, l) :: after ->
  Forall (fun r : pattern * pystr =>
            re_search uni_alnum (fst r) true (clean_text uni_alnum text) = false) before ->
  re_search uni_alnum p true (clean_text uni_alnum text) = true ->
  match_pattern uni_alnum rules text = l.
Proof.
  intros _ -> Hbefore Hp. unfold match_pattern. now apply first_match_split.
Qed.

(** No rule matches: the fallback. *)
Lemma first_match_other rules text :
  Forall (fun r : pattern * pystr => re_search uni_alnum (fst r) true text = false) rules ->
  first_match uni_alnum rules text = u "Other".
Proof.
  induction 1 as [|[q m] rest Hq _ IH]; simpl; [reflexivity|].
  simpl in Hq. now rewrite Hq.
Qed.

(** C5: [clean_text] returns a text that is not empty; a missing value
    gives ["Unknown"], and so does a text of which the steps leave
    nothing, as the empty text or [" ?! "]. *)
Theorem clean_text_never_empty :
  (forall v : value, 0 < length (clean_text uni_alnum v)) /\
  clean_text uni_alnum NaN = u "Unknown" /\
  (forall text : pystr,
     clean_text uni_alnum (Str text) =
       match clean_steps uni_alnum text with
       | [] => u "Unknown"
       | _ => clean_steps uni_alnum text
       end) /\
  clean_steps uni_alnum [] = [] /\
  clean_text uni_alnum (Str []) = u "Unknown" /\
  clean_steps uni_alnum (u " ?! ") = [] /\
  clean_text uni_alnum (Str (u " ?! ")) = u "Unknown".
Proof.
  split; [|split; [|split]].
  - intros [|text]; simpl.
    + lia.
    + destruct (clean_steps uni_alnum text); simpl; lia.
  - reflexivity.
  - intros text. simpl. now destruct (clean_steps uni_alnum text).
  - repeat split; vm_compute; reflexivity.
Qed.

(** C10: a missing [Party_Belong] becomes ["Not Specified"], because the
    repaired text ["Unknown"] matches the rule [none|unknown|cant\s*tell];
    a missing [Voted_Last_Election] becomes ["Other"]. *)
Theorem missing_party_not_specified :
  clean_text uni_alnum NaN = u "Unknown" /\
  List.map (fun r : pattern * pystr => (re_search uni_alnum (fst r) true (u "Unknown"), snd r))
      (rules_at "Party_Belong")
    = [(false, u "NDC"); (false, u "NPP"); (false, u "CPP"); (false, u "New Force");
       (true, u "Not Specified")] /\
  match_pattern uni_alnum (rules_at "Party_Belong") NaN = u "Not Specified" /\
  match_pattern uni_alnum (rules_at "Voted_Last_Election") NaN = u "Other".
Proof.
  repeat split; vm_compute; reflexivity.
Qed.

End Matcher.

(** ** Canonical labels under the categoriser *)

Lemma pystr_eqb_eq (a b : pystr) : pystr_eqb a b = true <-> a = b.
Proof.
  revert b. induction a as [|x a IH]; intros [|y b]; simpl; split; try discriminate; auto.
  - intros H. apply andb_true_iff in H. destruct H as [Hx Hab].
    apply N.eqb_eq in Hx. apply IH in Hab. now subst.
  - intros [= -> ->]. rewrite N.eqb_refl. simpl. now apply IH.
Qed.

Section Labels.

Variable uni_alnum : N -> bool.

Lemma relabel_table :
  forallb (fun cr : string * list (pattern * pystr) =>
      forallb (fun l =>
          pystr_eqb (match_pattern uni_alnum (snd cr) (Str l))
            (if is_lost (fst cr) l then u "Other" else l))
        (labels (snd cr)))
    COLUMN_PATTERNS = true.
Proof. vm_compute. reflexivity. Qed.

(** C2, as the code has it: the categoriser maps a canonical label of a
    governed column to itself, except five labels that no rule of their
    column matches (["Not Specified"], ["Not Interested"], ["ID Issues"],
    ["Not Available"], ["Yes, Knew Projects"]): these become ["Other"]. *)
Theorem canonical_label_relabelled column rules (l : pystr) :
  rules_of column = Some rules ->
  In l (labels rules) ->
  match_pattern uni_alnum rules (Str l) = if is_lost column l then u "Other" else l.
Proof.
  intros Hrules Hl. apply assoc_In in Hrules.
  pose proof relabel_table as H.
  rewrite forallb_forall in H. specialize (H _ Hrules). simpl in H.
  rewrite forallb_forall in H. specialize (H _ Hl).
  now apply pystr_eqb_eq in H.
Qed.

(** C9: on the occupation ["Nurse"], which no rule matches, the bulk
    replacement of [standardize_column] leaves the repaired text where
    [standardize_column_with_search] gives ["Other"]. *)
Theorem bulk_replace_keeps_unmatched :
  List.map (fun r : pattern * pystr => re_search uni_alnum (fst r) true (u "Nurse"))
      (rules_at "Occupation")
    = [false; false; false; false; false; false; false; false] /\
  clean_text uni_alnum (Str (u "Nurse")) = u "Nurse" /\
  bulk_value uni_alnum (rules_at "Occupation") (Str (u "Nurse")) = Str (u "Nurse") /\
  match_pattern uni_alnum (rules_at "Occupation") (Str (u "Nurse")) = u "Other" /\
  standardize_column uni_alnum "Occupation" (Frame 1 [("Occupation"%string, [Str (u "Nurse")])])
    = Returns (Frame 1 [("Occupation"%string, [Str (u "Nurse")])]) /\
  standardize_column_with_search uni_alnum "Occupation"
      (Frame 1 [("Occupation"%string, [Str (u "Nurse")])])
    = Returns (Frame 1 [("Occupation"%string, [Str (u "Other")])]).
Proof.
  repeat split; vm_compute; reflexivity.
Qed.

End Labels.

(** C2 fails as stated: ["Not Specified"] is a canonical label of
    [Party_Belong] and the categoriser maps it to ["Other"]. *)
Lemma not_specified_becomes_other :
  In (u "Not Specified") (labels (rules_at "Party_Belong")) /\
  match_pattern latin1_table (rules_at "Party_Belong") (Str (u "Not Specified")) = u "Other".
Proof.
  split; [|vm_compute; reflexivity].
  unfold labels. simpl. do 4 right. now left.
Qed.

(** ** Loading *)

Section Loading.

Variable read_csv : encoding -> read_result.

Lemma load_loop_first_parse before enc after df st :
  Forall (decode_fails read_csv) before ->
  read_csv enc = Parsed df ->
  load_loop read_csv (before ++ enc :: after) st = (loaded st before enc df, true).
Proof.
  intros Hbefore Henc. revert st.
  induction Hbefore as [|e before He _ IH]; intros st; simpl.
  - rewrite Henc. reflexivity.
  - rewrite He, IH. unfold loaded. simpl. now rewrite <- app_assoc.
Qed.

Lemma load_loop_exhausted encs st :
  Forall (decode_fails read_csv) encs ->
  load_loop read_csv encs st =
    (Cleaner (data st) (log st ++ [(ERROR, Failed_to_load_with_any_encoding)])
       (reads st ++ encs), false).
Proof.
  intros H. revert st.
  induction H as [|e encs He _ IH]; intros st; simpl.
  - unfold logging. now rewrite app_nil_r.
  - rewrite He, IH. simpl. now rewrite <- app_assoc.
Qed.

Lemma data_validate_data st : data (validate_data st) = data st.
Proof.
  unfold validate_data. destruct (data st) as [df|] eqn:E; [|exact E].
  destruct (filter _ governed); [exact E | exact E].
Qed.

Lemma reads_validate_data st : reads (validate_data st) = reads st.
Proof.
  unfold validate_data. destruct (data st) as [df|]; [|reflexivity].
  destruct (filter _ governed); reflexivity.
Qed.

Lemma data_loaded st before enc df : data (loaded st before enc df) = Some df.
Proof. unfold loaded, logging. cbn [data]. now rewrite data_validate_data. Qed.

Lemma reads_loaded st before enc df :
  reads (loaded st before enc df) = reads st ++ before ++ [enc].
Proof. unfold loaded, logging. cbn [reads]. now rewrite reads_validate_data. Qed.

(** C6: [load_data] calls [pd.read_csv] with UTF-8, Latin-1 and cp1252 in
    this order; the first encoding that parses, the earlier ones having
    raised [UnicodeDecodeError], gives the data and the answer [True];
    when all three raise [UnicodeDecodeError] the answer is [False], the
    data is as before, an error is logged, and [main] cleans and writes
    nothing (it ends after the line of [setup_logging] and the error, or
    with the exception of [setup_logging]). *)
Theorem load_data_tries_encodings_in_order :
  encodings = [utf_8; latin1; cp1252] /\
  (forall st, exists k,
     1 <= k /\ reads (fst (load_data read_csv st)) = reads st ++ firstn k encodings) /\
  (forall st before enc after df,
     encodings = before ++ enc :: after ->
     Forall (decode_fails read_csv) before ->
     read_csv enc = Parsed df ->
     snd (load_data read_csv st) = true /\
     data (fst (load_data read_csv st)) = Some df /\
     reads (fst (load_data read_csv st)) = reads st ++ before ++ [enc]) /\
  (Forall (decode_fails read_csv) encodings ->
     (forall st,
        load_data read_csv st =
          (Cleaner (data st) (log st ++ [(ERROR, Failed_to_load_with_any_encoding)])
             (reads st ++ [utf_8; latin1; cp1252]), false)) /\
     (forall uni_alnum open_log to_csv,
        main uni_alnum open_log read_csv to_csv =
          match open_log with
          | LogFile log_file =>
              Finishes (Cleaner None
                          [(INFO, Logging_to_file log_file);
                           (ERROR, Failed_to_load_with_any_encoding)]
                          [utf_8; latin1; cp1252], [])
          | LogError e => SetupRaises e
          end)).
Proof.
  split; [reflexivity|]. split; [|split].
  - intros st. unfold load_data, encodings. cbn [load_loop].
    destruct (read_csv utf_8) as [df| |e].
    + exists 1. split; [lia|]. cbn [fst logging reads]. now rewrite reads_validate_data.
    + destruct (read_csv latin1) as [df| |e].
      * exists 2. split; [lia|]. cbn [fst logging reads].
        rewrite reads_validate_data. cbn [reads]. now rewrite <- app_assoc.
      * destruct (read_csv cp1252) as [df| |e]; exists 3; (split; [lia|]);
          cbn [fst logging reads]; try rewrite reads_validate_data;
          cbn [reads]; now rewrite <- !app_assoc.
      * exists 2. split; [lia|]. cbn [fst logging reads]. now rewrite <- app_assoc.
    + exists 1. split; [lia|]. reflexivity.
  - intros st before enc after df Henc Hbefore Hparse.
    unfold load_data. rewrite Henc.
    rewrite (load_loop_first_parse _ _ _ _ _ Hbefore Hparse). simpl.
    split; [reflexivity|]. split; [apply data_loaded | apply reads_loaded].
  - intros Hall. split.
    + intros st. unfold load_data. now rewrite load_loop_exhausted.
    + intros uni_alnum open_log to_csv. unfold main, setup_logging, load_data.
      destruct open_log as [log_file|e]; [|reflexivity].
      now rewrite load_loop_exhausted.
Qed.

(** C7, as the code has it: [load_data] answers [True] exactly when one of
    the encodings parses after the earlier ones raised
    [UnicodeDecodeError]; the number of records of the parsed frame plays
    no part. *)
Theorem load_succeeds_iff_parses (st : cleaner) :
  snd (load_data read_csv st) = true <->
  exists before enc after df,
    encodings = before ++ enc :: after /\
    Forall (decode_fails read_csv) before /\
    read_csv enc = Parsed df.
Proof.
  split.
  - unfold load_data, encodings. cbn [load_loop].
    destruct (read_csv utf_8) as [df| |e] eqn:E1; cbn [snd]; try discriminate.
    + intros _. exists [], utf_8, [latin1; cp1252], df. auto.
    + destruct (read_csv latin1) as [df| |e] eqn:E2; cbn [snd]; try discriminate.
      * intros _. exists [utf_8], latin1, [cp1252], df.
        repeat split; auto.
      * destruct (read_csv cp1252) as [df| |e] eqn:E3; cbn [snd]; try discriminate.
        intros _. exists [utf_8; latin1], cp1252, [], df.
        repeat split; auto.
  - intros (before & enc & after & df & Henc & Hbefore & Hparse).
    unfold load_data. rewrite Henc.
    now rewrite (load_loop_first_parse _ _ _ _ _ Hbefore Hparse).
Qed.

End Loading.

(** C7 fails as stated: a file with its header and no record loads, and
    [load_data] answers [True]. *)
Lemma header_only_loads :
  index header_only = 0 /\
  snd (load_data read_header_only init) = true /\
  data (fst (load_data read_header_only init)) = Some header_only.
Proof. repeat split. Qed.

(** ** Cleaning *)

Lemma assoc_None_iff {A} (k : string) (l : list (string * A)) :
  assoc k l = None <-> ~ In k (List.map fst l).
Proof.
  induction l as [|[k' v] t IH]; simpl.
  - tauto.
  - destruct (String.eqb k k') eqn:E.
    + apply String.eqb_eq in E. subst. split; [discriminate | tauto].
    + apply String.eqb_neq in E. rewrite IH. split.
      * intros H [H'|H']; [congruence | tauto].
      * tauto.
Qed.

Lemma NoDup_assoc {A} (k : string) (v : A) (l : list (string * A)) :
  NoDup (List.map fst l) -> In (k, v) l -> assoc k l = Some v.
Proof.
  induction l as [|[k' v'] t IH]; simpl; intros Hnd Hin; [destruct Hin|].
  inversion Hnd as [|? ? Hnotin Hnd']; subst.
  destruct Hin as [[= -> ->]|Hin].
  - now rewrite String.eqb_refl.
  - destruct (String.eqb k k') eqn:E; [|now apply IH].
    apply String.eqb_eq in E. subst k'. exfalso. apply Hnotin.
    apply in_map_iff. now exists (k, v).
Qed.

Lemma governed_NoDup : NoDup governed.
Proof.
  unfold governed. simpl.
  repeat (constructor; [simpl; intros H; repeat (destruct H as [H|H]; [discriminate|]); exact H|]).
  constructor.
Qed.

Section Cleaning.

Variable uni_alnum : N -> bool.

Lemma clean_columns_spec cols :
  NoDup cols ->
  Forall (fun c => rules_of c <> None) cols ->
  forall df lg, exists df' lg',
    clean_columns uni_alnum cols df lg = Returns (df', lg') /\
    index df' = index df /\
    column_names df' = column_names df /\
    (forall c, ~ In c cols -> get_column df' c = get_column df c) /\
    (forall c s, In c cols -> get_column df c = Some s ->
       get_column df' c = Some (List.map (cell_of uni_alnum c) s)).
Proof.
  induction 1 as [|column rest Hnotin Hnodup IH]; intros Hgov df lg.
  - exists df, lg. simpl. split; [reflexivity|]. split; [reflexivity|].
    split; [reflexivity|]. split; [reflexivity|]. intros c s [].
  - inversion Hgov as [|? ? Hcol Hrest]; subst.
    simpl. destruct (has_column df column) eqn:Hhas.
    + apply has_column_get in Hhas.
      destruct (get_column df column) as [s0|] eqn:Hget; [|congruence].
      unfold standardize_column_with_search.
      destruct (rules_of column) as [rules|] eqn:Hrules; [|congruence].
      rewrite Hget.
      set (df1 := set_column df column
                    (List.map (fun v => Str (match_pattern uni_alnum rules v)) s0)).
      destruct (IH Hrest df1 (lg ++ [(INFO, Cleaning_column column)]))
        as (df' & lg' & Hrun & Hidx & Hnames & Hframe & Hnew).
      exists df', lg'. split; [exact Hrun|]. split; [exact Hidx|]. split.
      * rewrite Hnames. unfold df1, column_names, set_column. simpl.
        apply names_set_assoc. unfold get_column in Hget. congruence.
      * split.
        -- intros c Hc. rewrite Hframe by tauto.
           unfold df1. apply get_set_column_ne. intros ->. apply Hc. now left.
        -- intros c s [<-|Hin] Hs.
           ++ rewrite Hframe by assumption. unfold df1.
              rewrite get_set_column_eq. rewrite Hget in Hs. injection Hs as <-.
              unfold cell_of, rules_at. now rewrite Hrules.
           ++ apply Hnew; [assumption|]. unfold df1.
              rewrite get_set_column_ne; [assumption|]. intros ->. contradiction.
    + destruct (IH Hrest df lg) as (df' & lg' & Hrun & Hidx & Hnames & Hframe & Hnew).
      exists df', lg'. split; [exact Hrun|]. split; [exact Hidx|].
      split; [exact Hnames|]. split.
      * intros c Hc. apply Hframe. tauto.
      * intros c s [<-|Hin] Hs.
        -- assert (has_column df column = true) as Habs
             by (apply has_column_get; congruence).
           congruence.
        -- now apply Hnew.
Qed.

(** C8: [clean_data] keeps the index and the columns of the frame, leaves
    every column that [COLUMN_PATTERNS] does not name as it is, and
    replaces every cell of every governed column of the frame by what
    [match_pattern] makes of it; the frame stays well formed. *)
Theorem clean_data_frame st df :
  data st = Some df ->
  exists df' lg,
    clean_data uni_alnum st = Returns (Cleaner (Some df') lg (reads st), true) /\
    index df' = index df /\
    column_names df' = column_names df /\
    (forall c, rules_of c = None -> get_column df' c = get_column df c) /\
    (forall c rules s,
       rules_of c = Some rules -> get_column df c = Some s ->
       get_column df' c = Some (List.map (fun v => Str (match_pattern uni_alnum rules v)) s)) /\
    (well_formed df -> well_formed df').
Proof.
  intros Hdata. unfold clean_data. rewrite Hdata.
  assert (Forall (fun c => rules_of c <> None) governed) as Hgov.
  { apply Forall_forall. intros c Hc Hnone.
    unfold rules_of in Hnone. apply assoc_None_iff in Hnone. contradiction. }
  destruct (clean_columns_spec governed governed_NoDup Hgov df
              (log st ++ [(INFO, Starting_cleaning)]))
    as (df' & lg' & Hrun & Hidx & Hnames & Hframe & Hnew).
  rewrite Hrun. eexists df', _. split; [reflexivity|].
  split; [exact Hidx|]. split; [exact Hnames|].
  assert (forall c, rules_of c = None -> get_column df' c = get_column df c) as Hkept.
  { intros c Hnone. apply Hframe. unfold rules_of in Hnone.
    now apply assoc_None_iff in Hnone. }
  assert (forall c rules s,
            rules_of c = Some rules -> get_column df c = Some s ->
            get_column df' c
              = Some (List.map (fun v => Str (match_pattern uni_alnum rules v)) s)) as Hrepl.
  { intros c rules s Hrules Hs.
    rewrite (Hnew c s); [|  | exact Hs].
    + unfold cell_of, rules_at. now rewrite Hrules.
    + destruct (in_dec string_dec c governed) as [Hin|Hout]; [exact Hin|].
      apply assoc_None_iff in Hout. unfold rules_of in Hrules. congruence. }
  split; [exact Hkept|]. split; [exact Hrepl|].
  intros [Hnodup Hlen]. split; [now rewrite Hnames|].
  apply Forall_forall. intros [c s'] Hin. cbn [snd]. rewrite Hidx.
  rewrite Forall_forall in Hlen.
  assert (get_column df' c = Some s') as Hget'.
  { apply NoDup_assoc; [|exact Hin]. fold (column_names df'). now rewrite Hnames. }
  destruct (rules_of c) as [rules|] eqn:Hrules.
  - destruct (get_column df c) as [s|] eqn:Hget.
    + rewrite (Hrepl c rules s Hrules Hget) in Hget'. injection Hget' as <-.
      rewrite length_map. apply assoc_In in Hget. exact (Hlen _ Hget).
    + exfalso. unfold get_column in Hget. apply assoc_None_iff in Hget. apply Hget.
      fold (column_names df). rewrite <- Hnames. unfold column_names.
      apply in_map_iff. now exists (c, s').
  - rewrite (Hkept c Hrules) in Hget'. apply assoc_In in Hget'. exact (Hlen _ Hget').
Qed.

End Cleaning.

(** ** [re.sub] and [str.replace] on lists *)

Section Substitution.

Variable uni_alnum : N -> bool.
Variable ic : bool.

Lemma sub_from_skip r repl b k c t :
  sub_from uni_alnum ic r repl b (S k) (c :: t) = sub_from uni_alnum ic r repl false k t.
Proof. reflexivity. Qed.

Lemma sub_from_here r repl b c t :
  sub_from uni_alnum ic r repl b 0 (c :: t) =
    match ends uni_alnum ic r b (c :: t) with
    | [] => c :: sub_from uni_alnum ic r repl false 0 t
    | S n :: _ => repl ++ sub_from uni_alnum ic r repl false n t
    | 0 :: rest =>
        repl ++ match List.find (fun n => 0 <? n) rest with
                | Some (S n) => repl ++ sub_from uni_alnum ic r repl false n t
                | _ => c :: sub_from uni_alnum ic r repl false 0 t
                end
    end.
Proof. reflexivity. Qed.

(** The characters of the result are characters of the subject or of the
    replacement. *)
Lemma sub_from_Forall (P : N -> Prop) r repl s :
  Forall P repl -> Forall P s ->
  forall b k, Forall P (sub_from uni_alnum ic r repl b k s).
Proof.
  intros Hrepl Hs. induction Hs as [|c t Hc Ht IH]; intros b k.
  - destruct k; simpl; [|constructor].
    destruct (ends uni_alnum ic r b []) as [|[|n] rest]; auto.
    + rewrite app_nil_r. exact Hrepl.
    + rewrite app_nil_r. exact Hrepl.
  - destruct k as [|k]; [|rewrite sub_from_skip; apply IH].
    rewrite sub_from_here.
    destruct (ends uni_alnum ic r b (c :: t)) as [|[|n] rest].
    + constructor; [exact Hc | apply IH].
    + apply Forall_app. split; [exact Hrepl|].
      destruct (find (fun n => 0 <? n) rest) as [[|n]|].
      * constructor; [exact Hc | apply IH].
      * apply Forall_app. split; [exact Hrepl | apply IH].
      * constructor; [exact Hc | apply IH].
    + apply Forall_app. split; [exact Hrepl | apply IH].
Qed.

(** Where the pattern matches nowhere, the subject is returned. *)
Lemma sub_from_no_match r repl s :
  forall b,
    ends uni_alnum ic r b s = [] ->
    (forall n, ends uni_alnum ic r false (skipn (S n) s) = []) ->
    sub_from uni_alnum ic r repl b 0 s = s.
Proof.
  induction s as [|c t IH]; intros b H0 Hn.
  - simpl. now rewrite H0.
  - rewrite sub_from_here, H0. f_equal. apply IH.
    + exact (Hn 0).
    + intros n. exact (Hn (S n)).
Qed.

(** A bracket expression: each character is kept or replaced. *)
Lemma sub_from_class neg items repl s :
  forall b,
    sub_from uni_alnum ic (Set_ neg items) repl b 0 s =
      flat_map (fun c => if xorb neg (in_set uni_alnum ic items c) then repl else [c]) s.
Proof.
  induction s as [|c t IH]; intros b; [reflexivity|].
  rewrite sub_from_here. simpl.
  destruct (xorb neg (in_set uni_alnum ic items c)); now rewrite IH.
Qed.

Section Runs.

(** A pattern [r1] that matches one character of the class [C]. *)
Variable r1 : regex.
Variable C : N -> bool.
Hypothesis r1_cons :
  forall b c t, ends uni_alnum ic r1 b (c :: t) = if C c then [1] else [].
Hypothesis r1_nil : forall b, ends uni_alnum ic r1 b [] = [].

Lemma star_head fuel :
  forall b t, length t <= fuel ->
    exists l, star (ends uni_alnum ic r1) fuel b t = run C t :: l.
Proof.
  induction fuel as [|fuel IH]; intros b t Hlen.
  - destruct t; [|simpl in Hlen; lia]. now exists [].
  - destruct t as [|c t]; simpl.
    + rewrite r1_nil. now exists [].
    + rewrite r1_cons. destruct (C c); simpl.
      * destruct (IH false t) as [l Hl]; [simpl in Hlen; lia|].
        rewrite Hl. simpl. eexists. reflexivity.
      * now exists [].
Qed.

(** Every candidate of the repetition covers characters of the class. *)
Lemma star_sound fuel :
  forall b t n, In n (star (ends uni_alnum ic r1) fuel b t) ->
    n <= length t /\ forallb C (firstn n t) = true.
Proof.
  induction fuel as [|fuel IH]; intros b t n Hin.
  - destruct Hin as [<-|[]]. split; [lia | reflexivity].
  - simpl in Hin. apply in_app_or in Hin. destruct Hin as [Hin|[<-|[]]].
    + destruct t as [|c t]; [now rewrite r1_nil in Hin|].
      rewrite r1_cons in Hin. destruct (C c) eqn:Hc; [|destruct Hin].
      simpl in Hin. rewrite app_nil_r in Hin.
      apply in_map_iff in Hin. destruct Hin as (m & <- & Hm).
      apply IH in Hm. destruct Hm as [Hle Hall]. simpl.
      split; [lia|]. now rewrite Hc, Hall.
    + split; [lia | reflexivity].
Qed.

Lemma ends_plus_cons b c t :
  ends uni_alnum ic (Plus r1) b (c :: t) =
    if C c
    then List.map S (star (ends uni_alnum ic r1) (S (length t)) false t)
    else [].
Proof.
  simpl. rewrite r1_cons. destruct (C c); [|reflexivity].
  simpl. rewrite app_nil_r. now rewrite andb_false_r.
Qed.

Lemma ends_plus_nil b : ends uni_alnum ic (Plus r1) b [] = [].
Proof. simpl. now rewrite r1_nil. Qed.

Lemma ends_plus_sound b s n :
  In n (ends uni_alnum ic (Plus r1) b s) ->
  1 <= n <= length s /\ forallb C (firstn n s) = true.
Proof.
  destruct s as [|c t]; [now rewrite ends_plus_nil|].
  rewrite ends_plus_cons. destruct (C c) eqn:Hc; [|intros []].
  intros Hin. apply in_map_iff in Hin. destruct Hin as (m & <- & Hm).
  apply star_sound in Hm. destruct Hm as [Hle Hall]. simpl.
  split; [lia|]. now rewrite Hc, Hall.
Qed.

(** [r1+] replaced by [repl]: every run of the class becomes [repl]. *)
Lemma sub_from_plus repl s :
  forall b,
    sub_from uni_alnum ic (Plus r1) repl b 0 s = squeeze C repl false s /\
    sub_from uni_alnum ic (Plus r1) repl b (run C s) s = squeeze C repl true s.
Proof.
  induction s as [|c t IH]; intros b.
  - simpl. rewrite r1_nil. simpl. auto.
  - assert (sub_from uni_alnum ic (Plus r1) repl b 0 (c :: t)
            = squeeze C repl false (c :: t)) as Hhere.
    { rewrite sub_from_here, ends_plus_cons. cbn [squeeze]. destruct (C c).
      - destruct (star_head (S (length t)) false t) as [l Hl]; [lia|].
        rewrite Hl. cbn [List.map]. f_equal. apply (IH false).
      - f_equal. apply (IH false). }
    split; [exact Hhere|].
    cbn [run]. destruct (C c) eqn:Hc.
    + rewrite sub_from_skip. cbn [squeeze]. rewrite Hc. apply (IH false).
    + rewrite Hhere. cbn [squeeze]. now rewrite Hc.
Qed.

End Runs.

End Substitution.

Lemma is_prefix_In (old s : pystr) (c : N) :
  In c old -> ~ In c s -> is_prefix old s = false.
Proof.
  revert s. induction old as [|a old IH]; intros s Hc Hs; [destruct Hc|].
  destruct s as [|b s]; [reflexivity|]. simpl.
  destruct (N.eqb_spec a b) as [->|Hne]; [|reflexivity]. simpl.
  destruct Hc as [->|Hc].
  - exfalso. apply Hs. now left.
  - apply IH; [exact Hc|]. intros H. apply Hs. now right.
Qed.

(** [replace] returns a text that has not all the characters of [old]. *)
Lemma str_replace_absent (old new s : pystr) (c : N) :
  In c old -> ~ In c s -> str_replace old new s = s.
Proof.
  intros Hc. unfold str_replace. induction s as [|b s IH]; intros Hs; [reflexivity|].
  simpl. rewrite (is_prefix_In old (b :: s) c Hc Hs). f_equal. apply IH.
  intros H. apply Hs. now right.
Qed.

Lemma replace_from_Forall (P : N -> Prop) old new s :
  Forall P new -> Forall P s -> forall k, Forall P (replace_from old new k s).
Proof.
  intros Hnew Hs. induction Hs as [|c t Hc Ht IH]; intros k.
  - destruct k; constructor.
  - destruct k as [|k]; simpl; [|apply IH].
    destruct (is_prefix old (c :: t)).
    + apply Forall_app. split; [exact Hnew | apply IH].
    + constructor; [exact Hc | apply IH].
Qed.

(** ** The steps of [clean_text] *)

Lemma flat_map_nil_In {A B} (f : A -> list B) (l : list A) :
  (forall x, In x l -> f x = []) -> flat_map f l = [].
Proof.
  induction l as [|a l IH]; intros H; [reflexivity|]. simpl.
  rewrite (H a) by (now left). apply IH. intros x Hx. apply H. now right.
Qed.

Lemma Forall_skipn {A} (P : A -> Prop) (n : nat) (l : list A) :
  Forall P l -> Forall P (skipn n l).
Proof.
  revert l. induction n as [|n IH]; intros l H; [exact H|].
  destruct H; simpl; [constructor | now apply IH].
Qed.

Section Steps.

Variable uni_alnum : N -> bool.

Lemma apply_text_patterns_eq text :
  apply_text_patterns uni_alnum text =
    re_sub uni_alnum (text_pattern "multiple_spaces") (u " ")
      (re_sub uni_alnum (text_pattern "trailing") []
         (re_sub uni_alnum (text_pattern "special_chars") []
            (re_sub uni_alnum (text_pattern "whitespace") (u " ")
               (re_sub uni_alnum (text_pattern "quotes") []
                  (re_sub uni_alnum (text_pattern "apostrophes") [apostrophe] text))))).
Proof. reflexivity. Qed.

Lemma ends_ws_cons b c t :
  ends uni_alnum false ws b (c :: t) = if is_space c then [1] else [].
Proof. simpl. now rewrite orb_false_r. Qed.

Lemma ends_space_cons b c t :
  ends uni_alnum false (Lit (ch " ")) b (c :: t) = if (c =? 0x20)%N then [1] else [].
Proof. reflexivity. Qed.

(** [\s+] replaced by a space. *)
Lemma sub_whitespace text :
  re_sub uni_alnum (cs (Plus ws)) (u " ") text = squeeze is_space (u " ") false text.
Proof.
  unfold re_sub. simpl ignore_case. simpl body.
  apply (sub_from_plus uni_alnum false ws is_space ends_ws_cons (fun _ => eq_refl)).
Qed.

(** [ +] replaced by a space. *)
Lemma sub_multiple_spaces text :
  re_sub uni_alnum (text_pattern "multiple_spaces") (u " ") text =
    squeeze (fun c => (c =? 0x20)%N) (u " ") false text.
Proof.
  unfold re_sub. change (body (text_pattern "multiple_spaces")) with (Plus (Lit (ch " "))).
  change (ignore_case (text_pattern "multiple_spaces")) with false.
  apply (sub_from_plus uni_alnum false (Lit (ch " ")) (fun c => (c =? 0x20)%N)
           ends_space_cons (fun _ => eq_refl)).
Qed.

Lemma sub_apostrophes text :
  re_sub uni_alnum (text_pattern "apostrophes") [apostrophe] text = text.
Proof.
  unfold re_sub.
  change (body (text_pattern "apostrophes"))
    with (Set_ false [CChar apostrophe; CChar apostrophe]).
  change (ignore_case (text_pattern "apostrophes")) with false.
  rewrite sub_from_class. induction text as [|c t IH]; [reflexivity|].
  cbn [flat_map]. rewrite IH.
  cbn [in_set existsb citem_matches xorb]. unfold lit_matches. cbn [andb].
  destruct (N.eqb_spec c apostrophe) as [->|Hne]; reflexivity.
Qed.

Lemma sub_quotes text :
  re_sub uni_alnum (text_pattern "quotes") [] text =
    filter (fun c => negb (c =? quote_char)%N) text.
Proof.
  unfold re_sub.
  change (body (text_pattern "quotes"))
    with (Set_ false [CChar quote_char; CChar quote_char; CChar quote_char]).
  change (ignore_case (text_pattern "quotes")) with false.
  rewrite sub_from_class. induction text as [|c t IH]; [reflexivity|].
  cbn [flat_map filter]. rewrite IH.
  cbn [in_set existsb citem_matches xorb]. unfold lit_matches. cbn [andb].
  destruct (c =? quote_char)%N; reflexivity.
Qed.

Lemma sub_special_chars text :
  re_sub uni_alnum (text_pattern "special_chars") [] text = filter (keep uni_alnum) text.
Proof.
  unfold re_sub.
  change (body (text_pattern "special_chars"))
    with (Set_ true [CWord; CSpace; CChar apostrophe; CChar (ch "-")]).
  change (ignore_case (text_pattern "special_chars")) with false.
  rewrite sub_from_class. induction text as [|c t IH]; [reflexivity|].
  cbn [flat_map filter]. rewrite IH. fold (keep uni_alnum c).
  destruct (keep uni_alnum c); reflexivity.
Qed.

End Steps.

(** ** Text that [clean_text] leaves as it is *)

Section Normal.

Variable uni_alnum : N -> bool.

Lemma ends_lit_other l b s :
  (forall c t, s = c :: t -> c <> l) -> ends uni_alnum false (Lit l) b s = [].
Proof.
  intros H. destruct s as [|c t]; [reflexivity|]. cbn [ends].
  unfold lit_matches. cbn [andb].
  destruct (N.eqb_spec c l) as [->|Hne]; [|reflexivity].
  now destruct (H l t eq_refl).
Qed.

Lemma ends_lit_absent l b n s :
  Forall (fun c => c <> l) s -> ends uni_alnum false (Lit l) b (skipn n s) = [].
Proof.
  intros H. apply ends_lit_other. intros c t E.
  apply (Forall_skipn _ n) in H. rewrite E in H. now inversion H.
Qed.

Lemma ends_alt r1 r2 b s :
  ends uni_alnum false (Alt r1 r2) b s =
    ends uni_alnum false r1 b s ++ ends uni_alnum false r2 b s.
Proof. reflexivity. Qed.

Lemma ends_cat_nil_l r1 r2 b s :
  ends uni_alnum false r1 b s = [] -> ends uni_alnum false (Cat r1 r2) b s = [].
Proof. intros H. simpl. now rewrite H. Qed.

Lemma ends_cat_nil_r r1 r2 b s :
  (forall b' n, ends uni_alnum false r2 b' (skipn n s) = []) ->
  ends uni_alnum false (Cat r1 r2) b s = [].
Proof.
  intros H. simpl. apply flat_map_nil_In. intros n _. now rewrite H.
Qed.

(** No alternative of [encoding_artifacts] matches where the text has
    none of A-tilde, A-circumflex and the euro sign. *)
Lemma encoding_artifacts_no_match s :
  Forall (fun c => c <> 0xC3%N) s ->
  Forall (fun c => c <> 0xC2%N) s ->
  Forall (fun c => c <> 0x20AC%N) s ->
  forall b n, ends uni_alnum false (body encoding_artifacts) b (skipn n s) = [].
Proof.
  intros H3 H2 He b n.
  change (body encoding_artifacts) with
    (Alt (Cat (Lit 0xC3) (Cat (Star ws) (Lit 0xC2)))
      (Alt (Cat (Lit 0xC3) (Cat (Star ws) word))
        (Alt (Cat (Star ws) (Lit 0xC2))
          (Alt (Cat (Lit 0xC2) (Lit (ch "t")))
            (Alt (Cat (Lit 0xE2) (Cat (Lit 0x20AC) (Lit 0x2122)))
              (Alt (Cat (Lit 0xE2) (Lit 0x20AC))
                 (Cat (Lit 0xC3) (lits [0xA2; 0xE2; 0x201A; 0xAC; 0xE2; 0x201E; 0xA2]%N)))))))).
  rewrite !ends_alt.
  rewrite (ends_cat_nil_l (Lit 0xC3)) by (now apply ends_lit_absent).
  rewrite (ends_cat_nil_l (Lit 0xC3)) by (now apply ends_lit_absent).
  rewrite (ends_cat_nil_r (Star ws) (Lit 0xC2)).
  2:{ intros b' m. rewrite skipn_skipn. now apply ends_lit_absent. }
  rewrite (ends_cat_nil_l (Lit 0xC2)) by (now apply ends_lit_absent).
  rewrite (ends_cat_nil_r (Lit 0xE2) (Cat (Lit 0x20AC) (Lit 0x2122))).
  2:{ intros b' m. apply ends_cat_nil_l. rewrite skipn_skipn. now apply ends_lit_absent. }
  rewrite (ends_cat_nil_r (Lit 0xE2) (Lit 0x20AC)).
  2:{ intros b' m. rewrite skipn_skipn. now apply ends_lit_absent. }
  rewrite (ends_cat_nil_l (Lit 0xC3)) by (now apply ends_lit_absent).
  reflexivity.
Qed.

(** A suffix of spaced text is empty or spaced. *)
Lemma spaced_skipn n :
  forall prev s, spaced prev s = true ->
    skipn n s = [] \/ exists prev', spaced prev' (skipn n s) = true.
Proof.
  induction n as [|n IH]; intros prev s H.
  - right. now exists prev.
  - destruct s as [|c t]; [now left|]. simpl in H. simpl skipn.
    destruct (is_space c).
    + apply andb_true_iff in H. destruct H as [_ H]. now apply (IH true).
    + now apply (IH false).
Qed.

(** [\s+$] matches nowhere in spaced text. *)
Lemma spaces_then_end_no_match prev s b :
  spaced prev s = true -> ends uni_alnum false (Cat (Plus ws) Eol) b s = [].
Proof.
  intros Hs. cbn [ends]. apply flat_map_nil_In. intros n Hn.
  change (flat_map _ (ends uni_alnum false ws b s)) with
    (ends uni_alnum false (Plus ws) b s) in Hn.
  apply (ends_plus_sound uni_alnum false ws is_space (ends_ws_cons uni_alnum)
           (fun _ => eq_refl)) in Hn.
  destruct Hn as [[Hn1 Hn2] Hall].
  destruct s as [|c t]; [simpl in Hn2; lia|].
  destruct n as [|n]; [lia|]. simpl in Hall. simpl skipn.
  destruct (is_space c) eqn:Hc; [|discriminate]. simpl in Hall.
  simpl in Hs. rewrite Hc in Hs.
  apply andb_true_iff in Hs. destruct Hs as [_ Hs].
  destruct t as [|d t']; [discriminate|]. simpl in Hs.
  destruct n as [|n].
  - simpl. destruct (is_space d) eqn:Hd; [discriminate|].
    destruct t' as [|e t'']; [|reflexivity].
    destruct (N.eqb_spec d 10) as [->|_]; [discriminate | reflexivity].
  - simpl in Hall. destruct (is_space d); [discriminate|discriminate].
Qed.

Lemma trailing_no_match s :
  spaced true s = true ->
  ends uni_alnum false (body (text_pattern "trailing")) true s = [] /\
  forall n, ends uni_alnum false (body (text_pattern "trailing")) false (skipn (S n) s) = [].
Proof.
  intros Hs.
  change (body (text_pattern "trailing"))
    with (Alt (Cat Bol (Plus ws)) (Cat (Plus ws) Eol)).
  split.
  - rewrite ends_alt, (spaces_then_end_no_match true) by exact Hs.
    rewrite app_nil_r.
    assert (ends uni_alnum false (Plus ws) true s = []) as H.
    { destruct s as [|c t]; [reflexivity|].
      rewrite (ends_plus_cons uni_alnum false ws is_space (ends_ws_cons uni_alnum)).
      simpl in Hs. destruct (is_space c); [discriminate | reflexivity]. }
    change (ends uni_alnum false (Cat Bol (Plus ws)) true s)
      with (List.map (Nat.add 0) (ends uni_alnum false (Plus ws) true s) ++ []).
    now rewrite H.
  - intros n. destruct (spaced_skipn (S n) true s Hs) as [E|[prev' E]].
    + rewrite E. reflexivity.
    + rewrite ends_alt, (spaces_then_end_no_match prev') by exact E. reflexivity.
Qed.

(** Squeezing the runs of a class of white space changes nothing in
    spaced text. *)
Lemma squeeze_spaced (C : N -> bool) :
  (forall c, C c = true -> is_space c = true) ->
  forall s prev inrun,
    spaced prev s = true -> (inrun = true -> prev = true) ->
    squeeze C (u " ") inrun s = s.
Proof.
  intros HC. induction s as [|c t IH]; intros prev inrun Hs Hrun; [reflexivity|].
  simpl in Hs. simpl. destruct (C c) eqn:Hc.
  - rewrite (HC c Hc) in Hs.
    apply andb_true_iff in Hs. destruct Hs as [Hs Ht].
    apply andb_true_iff in Hs. destruct Hs as [Hprev Hc20].
    apply N.eqb_eq in Hc20. subst c.
    destruct inrun.
    + rewrite Hrun in Hprev by reflexivity. discriminate.
    + simpl. f_equal. now apply (IH true true).
  - f_equal. destruct (is_space c).
    + apply andb_true_iff in Hs. destruct Hs as [_ Ht]. now apply (IH true false).
    + now apply (IH false false).
Qed.

Lemma spaced_last prev s :
  spaced prev s = true -> s <> [] -> is_space (last s 0%N) = false.
Proof.
  revert prev. induction s as [|c t IH]; intros prev Hs Hne; [congruence|].
  simpl in Hs. destruct t as [|d t'].
  - simpl. destruct (is_space c); [|reflexivity].
    simpl in Hs. now rewrite andb_false_r in Hs.
  - change (last (c :: d :: t') 0%N) with (last (d :: t') 0%N).
    destruct (is_space c).
    + apply andb_true_iff in Hs. destruct Hs as [_ Hs]. now apply (IH true).
    + now apply (IH false).
Qed.

Lemma rstrip_last s :
  s <> [] -> is_space (last s 0%N) = false -> rstrip s = s.
Proof.
  induction s as [|c t IH]; intros Hne Hlast; [congruence|].
  destruct t as [|d t'].
  - simpl in *. now rewrite Hlast.
  - change (last (c :: d :: t') 0%N) with (last (d :: t') 0%N) in Hlast.
    cbn [rstrip]. cbn [rstrip] in IH. rewrite IH by (congruence || assumption).
    reflexivity.
Qed.

Lemma str_strip_spaced s : spaced true s = true -> str_strip s = s.
Proof.
  intros Hs. unfold str_strip.
  destruct s as [|c t]; [discriminate|].
  assert (lstrip (c :: t) = c :: t) as ->.
  { simpl. simpl in Hs. destruct (is_space c); [discriminate | reflexivity]. }
  apply rstrip_last; [discriminate|].
  now apply (spaced_last true).
Qed.

End Normal.

Lemma filter_all {A} (f : A -> bool) (l : list A) :
  forallb f l = true -> filter f l = l.
Proof.
  induction l as [|a l IH]; simpl; [reflexivity|].
  intros H. apply andb_true_iff in H. destruct H as [Ha Hl].
  rewrite Ha. f_equal. now apply IH.
Qed.

Lemma Forall_filter {A} (P : A -> Prop) (f : A -> bool) (l : list A) :
  Forall P l -> Forall P (filter f l).
Proof.
  induction 1 as [|a l Ha _ IH]; simpl; [constructor|].
  destruct (f a); [constructor|]; assumption.
Qed.

Lemma Forall_filter_true {A} (f : A -> bool) (l : list A) :
  Forall (fun a => f a = true) (filter f l).
Proof.
  induction l as [|a l IH]; simpl; [constructor|].
  destruct (f a) eqn:E; [constructor|]; assumption.
Qed.

Lemma Forall_neq_not_In (c : N) (s : pystr) :
  Forall (fun x => x <> c) s -> ~ In c s.
Proof.
  intros H Hin. rewrite Forall_forall in H. now apply (H c Hin).
Qed.

Section Fixed.

Variable uni_alnum : N -> bool.
Hypothesis euro_not_alnum : uni_alnum 0x20AC%N = false.

Lemma plain_facts c :
  plain uni_alnum c = true ->
  keep uni_alnum c = true /\ c <> 0xC3%N /\ c <> 0xC2%N /\ c <> 0x20AC%N /\ c <> quote_char.
Proof.
  unfold plain. intros H.
  apply andb_true_iff in H. destruct H as [H H2].
  apply andb_true_iff in H. destruct H as [Hk H3].
  apply negb_true_iff, N.eqb_neq in H2. apply negb_true_iff, N.eqb_neq in H3.
  repeat split; try assumption.
  - intros ->. unfold keep, in_set in Hk. cbn in Hk.
    rewrite euro_not_alnum in Hk. discriminate.
  - intros ->. discriminate.
Qed.

(** Normal text is a fixed point of [clean_text]. *)
Lemma clean_text_normal_fixed (y : pystr) :
  normal uni_alnum y = true -> clean_text uni_alnum (Str y) = y.
Proof.
  unfold normal. intros H. apply andb_true_iff in H. destruct H as [Hplain Hsp].
  assert (Forall (fun c => plain uni_alnum c = true) y) as Hall
    by (apply Forall_forall; now apply forallb_forall).
  assert (Forall (fun c => c <> 0xC3%N) y) as H3
    by (eapply Forall_impl; [|exact Hall]; intros c Hc; now apply plain_facts in Hc).
  assert (Forall (fun c => c <> 0xC2%N) y) as H2
    by (eapply Forall_impl; [|exact Hall]; intros c Hc; now apply plain_facts in Hc).
  assert (Forall (fun c => c <> 0x20AC%N) y) as He
    by (eapply Forall_impl; [|exact Hall]; intros c Hc; now apply plain_facts in Hc).
  assert (forallb (keep uni_alnum) y = true) as Hk.
  { apply forallb_forall. rewrite Forall_forall in Hall.
    intros c Hc. now apply plain_facts, Hall. }
  assert (forallb (fun c => negb (c =? quote_char)%N) y = true) as Hq.
  { apply forallb_forall. rewrite Forall_forall in Hall.
    intros c Hc. apply negb_true_iff, N.eqb_neq. now apply plain_facts, Hall. }
  apply Forall_neq_not_In in H3 as N3. apply Forall_neq_not_In in H2 as N2.
  apply Forall_neq_not_In in He as Ne.
  assert (clean_steps uni_alnum y = y) as Hsteps.
  { unfold clean_steps. cbv zeta.
    rewrite (str_replace_absent [0xC3; 0xA2]%N _ y 0xC3%N) by (simpl; tauto).
    rewrite (str_replace_absent [0xC2; ch "t"]%N _ y 0xC2%N) by (simpl; tauto).
    rewrite (str_replace_absent [0xE2; 0x20AC; 0x2122]%N _ y 0x20AC%N) by (simpl; tauto).
    rewrite (str_replace_absent [0xE2; 0x20AC; 0x153]%N _ y 0x20AC%N) by (simpl; tauto).
    rewrite (str_replace_absent [0xE2; 0x20AC]%N _ y 0x20AC%N) by (simpl; tauto).
    rewrite (str_replace_absent [0xC3; 0x82; 0xC2; 0x92]%N _ y 0xC3%N) by (simpl; tauto).
    rewrite (str_replace_absent [0xC3; 0x82; 0xC2]%N _ y 0xC3%N) by (simpl; tauto).
    assert (re_sub uni_alnum encoding_artifacts [] y = y) as ->.
    { unfold re_sub. change (ignore_case encoding_artifacts) with false.
      apply sub_from_no_match.
      - exact (encoding_artifacts_no_match uni_alnum y H3 H2 He true 0).
      - intros n. exact (encoding_artifacts_no_match uni_alnum y H3 H2 He false (S n)). }
    rewrite apply_text_patterns_eq, sub_apostrophes, sub_quotes, (filter_all _ _ Hq).
    change (text_pattern "whitespace") with (cs (Plus ws)).
    rewrite (sub_whitespace uni_alnum y).
    rewrite (squeeze_spaced is_space (fun c H => H) y true false Hsp) by discriminate.
    rewrite sub_special_chars, (filter_all _ _ Hk).
    assert (re_sub uni_alnum (text_pattern "trailing") [] y = y) as ->.
    { unfold re_sub. change (ignore_case (text_pattern "trailing")) with false.
      destruct (trailing_no_match uni_alnum y Hsp) as [H0 Hn].
      now apply sub_from_no_match. }
    rewrite sub_multiple_spaces.
    rewrite (squeeze_spaced (fun c => (c =? 0x20)%N)) with (prev := true);
      [| intros c Hc; apply N.eqb_eq in Hc; now subst | exact Hsp | discriminate].
    rewrite (str_strip_spaced y Hsp), sub_whitespace.
    now rewrite (squeeze_spaced is_space (fun c H => H) y true false Hsp) by discriminate. }
  simpl. rewrite Hsteps. destruct y; [discriminate | reflexivity].
Qed.

End Fixed.

(** ** What [clean_text] returns *)

Lemma lstrip_Forall (P : N -> Prop) s : Forall P s -> Forall P (lstrip s).
Proof.
  induction 1 as [|c t Hc Ht IH]; simpl; [constructor|].
  destruct (is_space c); [exact IH | now constructor].
Qed.

Lemma rstrip_Forall (P : N -> Prop) s : Forall P s -> Forall P (rstrip s).
Proof.
  induction 1 as [|c t Hc Ht IH]; simpl; [constructor|].
  destruct (rstrip t) as [|d t'].
  - destruct (is_space c); constructor; [exact Hc | constructor].
  - now constructor.
Qed.

Lemma lstrip_head s :
  lstrip s = [] \/ exists c t, lstrip s = c :: t /\ is_space c = false.
Proof.
  induction s as [|c t IH]; simpl; [now left|].
  destruct (is_space c) eqn:E; [exact IH|]. right. now exists c, t.
Qed.

Lemma rstrip_head c t :
  rstrip (c :: t) = [] \/ exists t', rstrip (c :: t) = c :: t'.
Proof.
  simpl. destruct (rstrip t) as [|d t'].
  - destruct (is_space c); [now left | right; now exists []].
  - right. now eexists.
Qed.

Lemma rstrip_no_space_last s :
  rstrip s = [] \/ is_space (last (rstrip s) 0%N) = false.
Proof.
  induction s as [|c t IH]; [now left|]. simpl.
  destruct (rstrip t) as [|d t'] eqn:E.
  - destruct (is_space c) eqn:Hc; [now left | right; exact Hc].
  - right. destruct IH as [IH|IH]; [discriminate | exact IH].
Qed.

(** Text without a space at its end, squeezed, is spaced. *)
Lemma squeeze_is_spaced s :
  s <> [] -> is_space (last s 0%N) = false ->
  forall inrun, spaced inrun (squeeze is_space (u " ") inrun s) = true.
Proof.
  induction s as [|c t IH]; intros Hne Hlast inrun; [congruence|].
  destruct t as [|d t'].
  - simpl in Hlast. simpl. rewrite Hlast. simpl. now rewrite Hlast.
  - change (last (c :: d :: t') 0%N) with (last (d :: t') 0%N) in Hlast.
    assert (d :: t' <> []) as Hne' by discriminate.
    specialize (IH Hne' Hlast).
    cbn [squeeze]. destruct (is_space c) eqn:Hc.
    + destruct inrun.
      * simpl app. apply IH.
      * change (spaced false (0x20%N :: squeeze is_space (u " ") true (d :: t')) = true).
        cbn [spaced]. change (is_space 0x20%N) with true. cbn [negb andb].
        rewrite N.eqb_refl. apply IH.
    + cbn [spaced]. rewrite Hc. apply IH.
Qed.

Section Repair.

Variable uni_alnum : N -> bool.

(** Where the text has an A-circumflex, [encoding_artifacts] matches. *)
Lemma encoding_artifacts_at_C2 b t :
  exists n l,
    ends uni_alnum false (body encoding_artifacts) b (0xC2%N :: t) = S n :: l.
Proof.
  change (body encoding_artifacts) with
    (Alt (Cat (Lit 0xC3) (Cat (Star ws) (Lit 0xC2)))
      (Alt (Cat (Lit 0xC3) (Cat (Star ws) word))
        (Alt (Cat (Star ws) (Lit 0xC2))
          (Alt (Cat (Lit 0xC2) (Lit (ch "t")))
            (Alt (Cat (Lit 0xE2) (Cat (Lit 0x20AC) (Lit 0x2122)))
              (Alt (Cat (Lit 0xE2) (Lit 0x20AC))
                 (Cat (Lit 0xC3) (lits [0xA2; 0xE2; 0x201A; 0xAC; 0xE2; 0x201E; 0xA2]%N)))))))).
  rewrite !ends_alt.
  rewrite (ends_cat_nil_l uni_alnum (Lit 0xC3)) by reflexivity.
  rewrite (ends_cat_nil_l uni_alnum (Lit 0xC3)) by reflexivity.
  assert (ends uni_alnum false (Cat (Star ws) (Lit 0xC2)) b (0xC2%N :: t) = [1]) as ->.
  { reflexivity. }
  exists 0. eexists. reflexivity.
Qed.

(** [encoding_artifacts] leaves no A-circumflex. *)
Lemma encoding_artifacts_removes_C2 s :
  forall b k,
    Forall (fun c => c <> 0xC2%N)
      (sub_from uni_alnum false (body encoding_artifacts) [] b k s).
Proof.
  induction s as [|c t IH]; intros b k.
  - destruct k; simpl; [|constructor].
    destruct (ends uni_alnum false (body encoding_artifacts) b []) as [|[|n] rest];
      constructor.
  - destruct k as [|k]; [|rewrite sub_from_skip; apply IH].
    rewrite sub_from_here.
    destruct (N.eq_dec c 0xC2%N) as [->|Hne].
    + destruct (encoding_artifacts_at_C2 b t) as (n & l & ->). apply IH.
    + destruct (ends uni_alnum false (body encoding_artifacts) b (c :: t)) as [|[|n] rest].
      * constructor; [exact Hne | apply IH].
      * cbn [app]. destruct (find (fun n => 0 <? n) rest) as [[|n]|].
        -- constructor; [exact Hne | apply IH].
        -- apply IH.
        -- constructor; [exact Hne | apply IH].
      * apply IH.
Qed.

Lemma plain_space : plain uni_alnum 0x20%N = true.
Proof. reflexivity. Qed.

(** The characters of the result of the steps are plain, when the text
    has no A-tilde. *)
Lemma clean_steps_plain text :
  Forall (fun c => c <> 0xC3%N) text ->
  Forall (fun c => plain uni_alnum c = true) (clean_steps uni_alnum text).
Proof.
  intros H3. unfold clean_steps. cbv zeta.
  set (t7 := str_replace _ _ (str_replace _ _ (str_replace _ _ (str_replace _ _
               (str_replace _ _ (str_replace _ _ (str_replace _ _ text))))))).
  assert (Forall (fun c => c <> 0xC3%N) t7) as H7.
  { unfold t7, str_replace.
    repeat (apply replace_from_Forall; [repeat constructor; discriminate|]).
    exact H3. }
  clearbody t7.
  set (t8 := re_sub uni_alnum encoding_artifacts [] t7).
  assert (Forall (fun c => c <> 0xC3%N /\ c <> 0xC2%N) t8) as H8.
  { unfold t8, re_sub. change (ignore_case encoding_artifacts) with false.
    apply Forall_and.
    - apply sub_from_Forall; [constructor | exact H7].
    - apply encoding_artifacts_removes_C2. }
  clearbody t8.
  rewrite apply_text_patterns_eq, sub_apostrophes, sub_quotes.
  change (text_pattern "whitespace") with (cs (Plus ws)).
  rewrite sub_special_chars.
  set (t11 := filter (keep uni_alnum) _).
  assert (Forall (fun c => plain uni_alnum c = true) t11) as H11.
  { assert (Forall (fun c => c <> 0xC3%N /\ c <> 0xC2%N) t11) as Hn.
    { unfold t11. apply Forall_filter. unfold re_sub.
      apply sub_from_Forall; [repeat constructor; discriminate|].
      now apply Forall_filter. }
    pose proof (Forall_filter_true (keep uni_alnum)
                  (re_sub uni_alnum (cs (Plus ws)) (u " ")
                     (filter (fun c => negb (c =? quote_char)%N) t8))) as Hk.
    fold t11 in Hk. rewrite Forall_forall in Hn, Hk. apply Forall_forall.
    intros c Hc. unfold plain. rewrite (Hk c Hc).
    destruct (Hn c Hc) as [Hc3 Hc2].
    apply N.eqb_neq in Hc3, Hc2. now rewrite Hc3, Hc2. }
  clearbody t11.
  unfold re_sub, str_strip.
  apply sub_from_Forall; [repeat constructor|].
  apply rstrip_Forall, lstrip_Forall.
  apply sub_from_Forall; [repeat constructor|].
  apply sub_from_Forall; [constructor | exact H11].
Qed.

(** The result of the steps is empty or spaced. *)
Lemma clean_steps_spaced text :
  clean_steps uni_alnum text = [] \/ spaced true (clean_steps uni_alnum text) = true.
Proof.
  unfold clean_steps. cbv zeta. rewrite sub_whitespace.
  set (w := apply_text_patterns uni_alnum _). clearbody w.
  unfold str_strip.
  destruct (lstrip_head w) as [E|(c & t & E & Hc)]; rewrite E; [now left|].
  destruct (rstrip_head c t) as [E'|[t' E']]; [rewrite E'; now left|].
  destruct (rstrip_no_space_last (c :: t)) as [E''|Hlast]; [rewrite E''; now left|].
  rewrite E' in *. right.
  cbn [squeeze spaced]. rewrite Hc. cbn [spaced]. rewrite Hc.
  destruct t' as [|d t'']; [reflexivity|].
  apply squeeze_is_spaced; [discriminate | exact Hlast].
Qed.

(** [clean_text] returns normal text for a value without A-tilde. *)
Lemma clean_text_normal (v : value) :
  without_A_tilde v = true -> normal uni_alnum (clean_text uni_alnum v) = true.
Proof.
  destruct v as [|text]; [reflexivity|]. simpl without_A_tilde. intros H.
  assert (Forall (fun c => c <> 0xC3%N) text) as H3.
  { apply Forall_forall. intros c Hc. rewrite forallb_forall in H.
    now apply N.eqb_neq, negb_true_iff, H. }
  pose proof (clean_steps_plain text H3) as Hplain.
  simpl clean_text.
  destruct (clean_steps_spaced text) as [E|Hsp].
  - rewrite E. reflexivity.
  - destruct (clean_steps uni_alnum text) as [|c t] eqn:E; [discriminate|].
    unfold normal. rewrite Hsp, andb_true_r.
    apply forallb_forall. rewrite Forall_forall in Hplain. exact Hplain.
Qed.

Lemma keep_quote (c : N) : keep uni_alnum c = true -> c <> quote_char.
Proof. intros H E. subst c. vm_compute in H. discriminate. Qed.

(** The characters of the result of the steps: kept by [special_chars],
    and no A-circumflex. *)
Lemma clean_steps_kept text :
  Forall (fun c => keep uni_alnum c = true /\ c <> 0xC2%N) (clean_steps uni_alnum text).
Proof.
  unfold clean_steps. cbv zeta.
  set (t7 := str_replace _ _ (str_replace _ _ (str_replace _ _ (str_replace _ _
               (str_replace _ _ (str_replace _ _ (str_replace _ _ text))))))).
  clearbody t7.
  set (t8 := re_sub uni_alnum encoding_artifacts [] t7).
  assert (Forall (fun c => c <> 0xC2%N) t8) as H8.
  { unfold t8, re_sub. change (ignore_case encoding_artifacts) with false.
    apply encoding_artifacts_removes_C2. }
  clearbody t8.
  rewrite apply_text_patterns_eq, sub_apostrophes, sub_quotes.
  change (text_pattern "whitespace") with (cs (Plus ws)).
  rewrite sub_special_chars.
  set (t11 := filter (keep uni_alnum) _).
  assert (Forall (fun c => keep uni_alnum c = true /\ c <> 0xC2%N) t11) as H11.
  { apply Forall_and.
    - apply Forall_filter_true.
    - unfold t11. apply Forall_filter. unfold re_sub.
      apply sub_from_Forall; [repeat constructor; discriminate|].
      now apply Forall_filter. }
  clearbody t11.
  unfold re_sub, str_strip.
  apply sub_from_Forall; [repeat constructor; (reflexivity || discriminate)|].
  apply rstrip_Forall, lstrip_Forall.
  apply sub_from_Forall; [repeat constructor; (reflexivity || discriminate)|].
  apply sub_from_Forall; [constructor | exact H11].
Qed.

(** Whatever the value, [clean_text] returns spaced text of kept
    characters without A-circumflex. *)
Lemma clean_text_kept (v : value) :
  Forall (fun c => keep uni_alnum c = true /\ c <> 0xC2%N) (clean_text uni_alnum v) /\
  spaced true (clean_text uni_alnum v) = true.
Proof.
  destruct v as [|text].
  - split; [|reflexivity].
    repeat (constructor; [split; [reflexivity | discriminate]|]). constructor.
  - cbn [clean_text]. pose proof (clean_steps_kept text) as Hk.
    destruct (clean_steps_spaced text) as [E|Hsp].
    + rewrite E. split; [|reflexivity].
      repeat (constructor; [split; [reflexivity | discriminate]|]). constructor.
    + destruct (clean_steps uni_alnum text) as [|c t] eqn:E; [discriminate|].
      now split.
Qed.

End Repair.

(** ** The rules [NDC] and [Not Specified] of [Party_Belong] *)

(** Under IGNORECASE a lower-case letter of a pattern matches itself, its
    capital and the code points of [fold_extra]. *)
Lemma lit_matches_ci_letter (l c : N) :
  ascii_lower l = true -> lit_matches true l c = true ->
  c = l \/ (c + 32)%N = l \/
  (l = 0x69%N /\ (c = 0x130%N \/ c = 0x131%N)) \/
  (l = 0x6B%N /\ c = 0x212A%N) \/ (l = 0x73%N /\ c = 0x17F%N).
Proof.
  intros Hl. unfold lit_matches. rewrite Hl, orb_true_r. cbn [andb].
  assert (ascii_tolower l = l) as ->.
  { unfold ascii_tolower, ascii_upper, ascii_lower, between in *.
    apply andb_true_iff in Hl. destruct Hl as [Hl _]. apply N.leb_le in Hl.
    destruct (N.leb_spec l 0x5A); [lia|]. now rewrite andb_false_r. }
  intros H. apply orb_true_iff in H. destruct H as [H|H].
  - apply N.eqb_eq in H. unfold ascii_tolower in H.
    destruct (ascii_upper c); [right; now left | now left].
  - unfold fold_extra in H.
    repeat (rewrite ?orb_true_iff, ?andb_true_iff, ?N.eqb_eq in H). tauto.
Qed.

Lemma is_space_cases (c : N) :
  is_space c = true ->
  (0x09 <= c <= 0x0D \/ 0x1C <= c <= 0x20 \/ c = 0x85 \/ c = 0xA0 \/ c = 0x1680 \/
   0x2000 <= c <= 0x200A \/ c = 0x2028 \/ c = 0x2029 \/ c = 0x202F \/ c = 0x205F \/
   c = 0x3000)%N.
Proof.
  unfold is_space, between. intros H.
  repeat (rewrite ?orb_true_iff, ?andb_true_iff, ?N.eqb_eq, ?N.leb_le in H). tauto.
Qed.

Section Party.

Variable uni_alnum : N -> bool.

Lemma ends_lit_In ic l b s m :
  In m (ends uni_alnum ic (Lit l) b s) ->
  exists c t, s = c :: t /\ lit_matches ic l c = true /\ m = 1.
Proof.
  destruct s as [|c t]; [intros []|]. cbn [ends].
  destruct (lit_matches ic l c) eqn:E; [|intros []].
  intros [<-|[]]. now exists c, t.
Qed.

(** A pattern that starts with a literal matches text that starts with
    the literal. *)
Lemma ends_lit_cat_In ic l r b s m :
  In m (ends uni_alnum ic (Cat (Lit l) r) b s) ->
  exists c t k, s = c :: t /\ lit_matches ic l c = true /\
                In k (ends uni_alnum ic r false t) /\ m = S k.
Proof.
  cbn [ends]. intros H. apply in_flat_map in H. destruct H as (n & Hn & H).
  fold (ends uni_alnum ic (Lit l) b s) in Hn.
  apply ends_lit_In in Hn. destruct Hn as (c & t & -> & Hc & ->).
  apply in_map_iff in H. destruct H as (k & <- & Hk).
  rewrite andb_false_r in Hk. now exists c, t, k.
Qed.

Lemma ends_bol_cat_In ic r s m :
  In m (ends uni_alnum ic (Cat Bol r) true s) -> In m (ends uni_alnum ic r true s).
Proof.
  cbn [ends flat_map andb Nat.eqb skipn]. rewrite app_nil_r.
  intros H. apply in_map_iff in H. now destruct H as (k & <- & Hk).
Qed.

Lemma ends_alt_In ic r1 r2 b s m :
  In m (ends uni_alnum ic (Alt r1 r2) b s) ->
  In m (ends uni_alnum ic r1 b s) \/ In m (ends uni_alnum ic r2 b s).
Proof. cbn [ends]. apply in_app_or. Qed.

Lemma ends_cat_In ic r1 r2 b s m :
  In m (ends uni_alnum ic (Cat r1 r2) b s) ->
  exists n k, In n (ends uni_alnum ic r1 b s) /\
              In k (ends uni_alnum ic r2 (b && (n =? 0)) (skipn n s)) /\ m = n + k.
Proof.
  cbn [ends]. intros H. apply in_flat_map in H. destruct H as (n & Hn & H).
  apply in_map_iff in H. destruct H as (k & <- & Hk). now exists n, k.
Qed.

Lemma search_from_none ic r s :
  forall b,
    ends uni_alnum ic r b s = [] ->
    (forall n, ends uni_alnum ic r false (skipn (S n) s) = []) ->
    search_from uni_alnum ic r b s = false.
Proof.
  induction s as [|c t IH]; intros b H0 Hn; cbn [search_from]; rewrite H0;
    [reflexivity|].
  apply IH; [exact (Hn 0) | intros n; exact (Hn (S n))].
Qed.

Lemma search_from_here ic r b s :
  search_from uni_alnum ic r b s = true ->
  (forall t, search_from uni_alnum ic r false t = false) ->
  exists m, In m (ends uni_alnum ic r b s).
Proof.
  intros H Hfalse. destruct s as [|c t]; simpl in H;
    destruct (ends uni_alnum ic r b _) as [|m l] eqn:E;
    try (exists m; now left); [discriminate | now rewrite Hfalse in H].
Qed.

(** [re.search] finds the pattern exactly when the pattern matches at the
    head of a suffix of the subject. *)
Lemma search_from_found ic r pre :
  forall b suf m,
    In m (ends uni_alnum ic r (b && negb (nonempty pre)) suf) ->
    search_from uni_alnum ic r b (pre ++ suf) = true.
Proof.
  induction pre as [|c pre IH]; intros b suf m Hin.
  - cbn [nonempty negb app] in *. rewrite andb_true_r in Hin.
    destruct suf; cbn [search_from];
      (destruct (ends uni_alnum ic r b _); [destruct Hin | reflexivity]).
  - cbn [nonempty negb] in Hin. rewrite andb_false_r in Hin.
    cbn [app search_from].
    destruct (ends uni_alnum ic r b (c :: pre ++ suf)); [|reflexivity].
    apply (IH false suf m). now destruct pre.
Qed.

Lemma search_from_where ic r s :
  forall b,
    search_from uni_alnum ic r b s = true ->
    exists pre suf m,
      s = pre ++ suf /\ In m (ends uni_alnum ic r (b && negb (nonempty pre)) suf).
Proof.
  induction s as [|c t IH]; intros b H; cbn [search_from] in H.
  - destruct (ends uni_alnum ic r b []) as [|m l] eqn:E; [discriminate|].
    exists [], [], m. split; [reflexivity|]. cbn [nonempty negb].
    rewrite andb_true_r, E. now left.
  - destruct (ends uni_alnum ic r b (c :: t)) as [|m l] eqn:E.
    + destruct (IH false H) as (pre & suf & m & -> & Hin).
      exists (c :: pre), suf, m. split; [reflexivity|].
      cbn [nonempty negb]. rewrite andb_false_r. exact Hin.
    + exists [], (c :: t), m. split; [reflexivity|]. cbn [nonempty negb].
      rewrite andb_true_r, E. now left.
Qed.

(** The text that the rule [^ndc\s*$|^n$] is found in: an [n], perhaps
    with a final newline, or [ndc] followed by white space. *)
Lemma ndc_rule_shape text :
  re_search uni_alnum (fst (rule_at "Party_Belong" 0)) true text = true ->
  (exists c1 rest, text = c1 :: rest /\ lit_matches true (ch "n") c1 = true /\
                   (rest = [] \/ rest = [0x0A%N])) \/
  (exists c1 c2 c3 rest, text = c1 :: c2 :: c3 :: rest /\
     lit_matches true (ch "n") c1 = true /\ lit_matches true (ch "d") c2 = true /\
     lit_matches true (ch "c") c3 = true /\ forallb is_space rest = true).
Proof.
  unfold re_search.
  change (body (fst (rule_at "Party_Belong" 0))) with
    (Alt (Cat Bol (Cat (Cat (Lit (ch "n")) (Cat (Lit (ch "d")) (Lit (ch "c"))))
                     (Cat (Star ws) Eol)))
         (Cat Bol (Cat (Lit (ch "n")) Eol))).
  change (ignore_case (fst (rule_at "Party_Belong" 0)) || true) with true.
  intros H. apply search_from_here in H.
  2:{ intros t. apply search_from_none; [reflexivity | intros n; reflexivity]. }
  destruct H as [m Hm]. apply ends_alt_In in Hm.
  destruct Hm as [Hm|Hm]; apply ends_bol_cat_In in Hm.
  - right. apply ends_cat_In in Hm. destruct Hm as (n3 & k & Hn3 & Hk & _).
    apply ends_lit_cat_In in Hn3. destruct Hn3 as (c1 & t1 & k1 & -> & Hc1 & Hk1 & ->).
    apply ends_lit_cat_In in Hk1. destruct Hk1 as (c2 & t2 & k2 & -> & Hc2 & Hk2 & ->).
    apply ends_lit_In in Hk2. destruct Hk2 as (c3 & rest & -> & Hc3 & ->).
    exists c1, c2, c3, rest. split; [reflexivity|].
    split; [exact Hc1|]. split; [exact Hc2|]. split; [exact Hc3|].
    cbn [skipn] in Hk. apply ends_cat_In in Hk. destruct Hk as (j & e & Hj & He & _).
    apply (star_sound uni_alnum true ws is_space) in Hj.
    2:{ intros b c t. simpl. now rewrite orb_false_r. }
    2:{ reflexivity. }
    destruct Hj as [Hle Hall].
    rewrite <- (firstn_skipn j rest), forallb_app, Hall. cbn [andb].
    destruct (skipn j rest) as [|x [|y z]]; [reflexivity| |destruct He].
    cbn [ends] in He. destruct (N.eqb_spec x 10) as [Hx|Hx]; [|destruct He].
    rewrite Hx. reflexivity.
  - left. apply ends_lit_cat_In in Hm. destruct Hm as (c1 & rest & k & -> & Hc1 & Hk & _).
    exists c1, rest. split; [reflexivity|]. split; [exact Hc1|].
    cbn [ends] in Hk.
    destruct rest as [|x [|y z]]; [now left| |destruct Hk].
    destruct (N.eqb_spec x 10) as [Hx|Hx]; [|destruct Hk].
    right. now rewrite Hx.
Qed.

End Party.


Lemma lit_matches_distinct (l1 l2 c : N) :
  ascii_lower l1 = true -> ascii_lower l2 = true -> l1 <> l2 ->
  lit_matches true l1 c = true -> lit_matches true l2 c = false.
Proof.
  intros H1 H2 Hne Hc. destruct (lit_matches true l2 c) eqn:E; [|reflexivity].
  apply lit_matches_ci_letter in Hc; [|exact H1].
  apply lit_matches_ci_letter in E; [|exact H2].
  unfold ascii_lower, between in H1, H2.
  apply andb_true_iff in H1, H2. destruct H1 as [H1 H1'], H2 as [H2 H2'].
  apply N.leb_le in H1, H1', H2, H2'. lia.
Qed.

Lemma lit_matches_space (l c : N) :
  ascii_lower l = true -> is_space c = true -> lit_matches true l c = false.
Proof.
  intros Hl Hc. destruct (lit_matches true l c) eqn:E; [|reflexivity].
  apply lit_matches_ci_letter in E; [|exact Hl]. apply is_space_cases in Hc.
  unfold ascii_lower, between in Hl.
  apply andb_true_iff in Hl. destruct Hl as [Hl Hl']. apply N.leb_le in Hl, Hl'. lia.
Qed.

Section Exclusive.

Variable uni_alnum : N -> bool.

Lemma none_rule_needs b s m :
  In m (ends uni_alnum true (body (fst (rule_at "Party_Belong" 4))) b s) ->
  none_may_start s = true.
Proof.
  change (body (fst (rule_at "Party_Belong" 4))) with
    (Alt (Cat (Lit (ch "n")) (Cat (Lit (ch "o")) (Cat (Lit (ch "n")) (Lit (ch "e")))))
      (Alt (Cat (Lit (ch "u")) (lits (u "nknown")))
           (Cat (Cat (Lit (ch "c")) (Cat (Lit (ch "a")) (Cat (Lit (ch "n")) (Lit (ch "t")))))
                (Cat (Star ws) (lits (u "tell")))))).
  intros H. apply ends_alt_In in H. destruct H as [H|H].
  - apply ends_lit_cat_In in H. destruct H as (a & t & k & -> & Ha & Hk & _).
    apply ends_lit_cat_In in Hk. destruct Hk as (x & t' & k' & -> & Hx & _).
    cbn [none_may_start]. now rewrite Ha, Hx, orb_true_r.
  - apply ends_alt_In in H. destruct H as [H|H].
    + apply ends_lit_cat_In in H. destruct H as (a & t & k & -> & Ha & _).
      cbn [none_may_start]. now rewrite Ha.
    + apply ends_cat_In in H. destruct H as (n & k & Hn & _).
      apply ends_lit_cat_In in Hn. destruct Hn as (a & t & k1 & -> & Ha & Hk & _).
      apply ends_lit_cat_In in Hk. destruct Hk as (x & t' & k' & -> & Hx & _).
      cbn [none_may_start]. now rewrite Ha, Hx, !orb_true_r.
Qed.

Lemma none_rule_nil b s :
  none_may_start s = false ->
  ends uni_alnum true (body (fst (rule_at "Party_Belong" 4))) b s = [].
Proof.
  intros H. destruct (ends uni_alnum true _ b s) as [|m l] eqn:E; [reflexivity|].
  assert (none_may_start s = true) as H'
    by (apply (none_rule_needs b s m); rewrite E; now left).
  congruence.
Qed.

Lemma none_may_start_spaces s :
  forallb is_space s = true -> forall n, none_may_start (skipn n s) = false.
Proof.
  intros H n.
  assert (forallb is_space (skipn n s) = true) as H'.
  { apply forallb_forall. intros c Hc. rewrite forallb_forall in H. apply H.
    rewrite <- (firstn_skipn n s). apply in_or_app. now right. }
  destruct (skipn n s) as [|a t]; [reflexivity|].
  cbn [forallb] in H'. apply andb_true_iff in H'. destruct H' as [Ha _].
  cbn [none_may_start].
  now rewrite !(lit_matches_space _ a) by (reflexivity || exact Ha).
Qed.

(** No text is matched by both the rule [NDC] and the rule
    [Not Specified] of [Party_Belong]. *)
Lemma ndc_excludes_not_specified text :
  re_search uni_alnum (fst (rule_at "Party_Belong" 0)) true text = true ->
  re_search uni_alnum (fst (rule_at "Party_Belong" 4)) true text = false.
Proof.
  intros H. apply ndc_rule_shape in H.
  unfold re_search.
  change (ignore_case (fst (rule_at "Party_Belong" 4)) || true) with true.
  assert (forall n, none_may_start (skipn n text) = false) as Hnone.
  { destruct H as [(c1 & rest & -> & Hc1 & Hrest)
                  |(c1 & c2 & c3 & rest & -> & Hc1 & Hc2 & Hc3 & Hrest)].
    - assert (forallb is_space rest = true) as Hsp
        by (destruct Hrest as [->| ->]; reflexivity).
      intros [|n]; cbn [skipn]; [|apply none_may_start_spaces; exact Hsp].
      cbn [none_may_start].
      rewrite (lit_matches_distinct (ch "n") (ch "u") c1),
              (lit_matches_distinct (ch "n") (ch "c") c1)
        by (reflexivity || discriminate || exact Hc1).
      destruct Hrest as [->| ->]; [now rewrite andb_false_r | now rewrite Hc1].
    - intros [|[|[|n]]]; cbn [skipn]; [| | |apply none_may_start_spaces; exact Hrest];
        cbn [none_may_start].
      + rewrite (lit_matches_distinct (ch "n") (ch "u") c1),
                (lit_matches_distinct (ch "n") (ch "c") c1),
                (lit_matches_distinct (ch "d") (ch "o") c2)
          by (reflexivity || discriminate || assumption).
        now rewrite andb_false_r.
      + now rewrite (lit_matches_distinct (ch "d") (ch "u") c2),
                    (lit_matches_distinct (ch "d") (ch "n") c2),
                    (lit_matches_distinct (ch "d") (ch "c") c2)
          by (reflexivity || discriminate || assumption).
      + rewrite (lit_matches_distinct (ch "c") (ch "u") c3),
                (lit_matches_distinct (ch "c") (ch "n") c3)
          by (reflexivity || discriminate || assumption).
        cbn [orb andb]. destruct rest as [|x rest']; [now rewrite andb_false_r|].
        cbn [forallb] in Hrest. apply andb_true_iff in Hrest. destruct Hrest as [Hx _].
        rewrite (lit_matches_space (ch "a") x) by (reflexivity || exact Hx).
        now rewrite andb_false_r. }
  apply search_from_none.
  - apply none_rule_nil. exact (Hnone 0).
  - intros n. apply none_rule_nil. exact (Hnone (S n)).
Qed.

End Exclusive.

(** ** [clean_text] applied again *)

Lemma squeeze_length (C : N -> bool) (s : pystr) :
  forall inrun, length (squeeze C (u " ") inrun s) <= length s.
Proof.
  induction s as [|c t IH]; intros inrun; [reflexivity|]. cbn [squeeze].
  destruct (C c).
  - specialize (IH true). destruct inrun; simpl; lia.
  - specialize (IH false). simpl. lia.
Qed.

Lemma lstrip_length (s : pystr) : length (lstrip s) <= length s.
Proof.
  induction s as [|c t IH]; [reflexivity|]. cbn [lstrip].
  destruct (is_space c); simpl; lia.
Qed.

Lemma rstrip_length (s : pystr) : length (rstrip s) <= length s.
Proof.
  induction s as [|c t IH]; [reflexivity|]. cbn [rstrip].
  destruct (rstrip t) as [|d t'].
  - destruct (is_space c); simpl; lia.
  - simpl in *. lia.
Qed.

Lemma filter_shorter (f : N -> bool) (s : pystr) : length (filter f s) <= length s.
Proof.
  induction s as [|c t IH]; [reflexivity|]. cbn [filter].
  destruct (f c); simpl; lia.
Qed.

Section Again.

Variable uni_alnum : N -> bool.

(** [re.sub] with the empty replacement returns no longer text. *)
Lemma sub_from_length ic r s :
  forall b k, length (sub_from uni_alnum ic r [] b k s) <= length s - k.
Proof.
  induction s as [|c t IH]; intros b k.
  - destruct k; simpl; [|lia].
    destruct (ends uni_alnum ic r b []) as [|[|n] rest]; simpl; lia.
  - destruct k as [|k]; [|rewrite sub_from_skip; apply IH].
    rewrite sub_from_here.
    destruct (ends uni_alnum ic r b (c :: t)) as [|[|n] rest].
    + specialize (IH false 0). simpl. lia.
    + cbn [app]. destruct (find (fun n => 0 <? n) rest) as [[|n]|].
      * specialize (IH false 0). simpl. lia.
      * specialize (IH false n). simpl. lia.
      * specialize (IH false 0). simpl. lia.
    + specialize (IH false n). simpl. lia.
Qed.

(** [re.sub] with the empty replacement returns shorter text where a
    pattern that matches no empty text is found. *)
Lemma sub_from_shorter ic r :
  (forall b s m, In m (ends uni_alnum ic r b s) -> s <> [] /\ 1 <= m) ->
  forall s b,
    search_from uni_alnum ic r b s = true ->
    length (sub_from uni_alnum ic r [] b 0 s) < length s.
Proof.
  intros Hpos. induction s as [|c t IH]; intros b H.
  - cbn [search_from] in H.
    destruct (ends uni_alnum ic r b []) as [|m l] eqn:E; [discriminate|].
    destruct (Hpos b [] m) as [Hne _]; [rewrite E; now left | congruence].
  - cbn [search_from] in H. rewrite sub_from_here.
    destruct (ends uni_alnum ic r b (c :: t)) as [|[|n] rest] eqn:E.
    + specialize (IH false H). simpl. lia.
    + destruct (Hpos b (c :: t) 0) as [_ Hm]; [rewrite E; now left | lia].
    + pose proof (sub_from_length ic r t false n). simpl. lia.
Qed.

(** A pattern that starts with a literal matches the same, at the
    beginning of the subject or not. *)
Lemma ends_lit_cat_bol ic l r b s :
  ends uni_alnum ic (Cat (Lit l) r) b s = ends uni_alnum ic (Cat (Lit l) r) false s.
Proof.
  cbn [ends]. destruct s as [|c t]; [reflexivity|].
  destruct (lit_matches ic l c); [|reflexivity].
  cbn [flat_map]. now rewrite !andb_false_r.
Qed.

(** Where [re.search] does not find a pattern that starts with a literal,
    the pattern matches at no position. *)
Lemma search_from_false_ends ic l r s :
  search_from uni_alnum ic (Cat (Lit l) r) true s = false ->
  forall b n, ends uni_alnum ic (Cat (Lit l) r) b (skipn n s) = [].
Proof.
  intros H b n. rewrite ends_lit_cat_bol.
  destruct (ends uni_alnum ic (Cat (Lit l) r) false (skipn n s)) as [|m rest] eqn:E;
    [reflexivity|].
  rewrite <- (firstn_skipn n s) in H.
  rewrite (search_from_found uni_alnum ic _ (firstn n s) true (skipn n s) m) in H;
    [discriminate|].
  rewrite ends_lit_cat_bol, E. now left.
Qed.

(** Every match of [encoding_artifacts] has a character. *)
Lemma encoding_artifacts_advances b s m :
  In m (ends uni_alnum false (body encoding_artifacts) b s) -> s <> [] /\ 1 <= m.
Proof.
  change (body encoding_artifacts) with
    (Alt (Cat (Lit 0xC3) (Cat (Star ws) (Lit 0xC2)))
      (Alt (Cat (Lit 0xC3) (Cat (Star ws) word))
        (Alt (Cat (Star ws) (Lit 0xC2))
          (Alt (Cat (Lit 0xC2) (Lit (ch "t")))
            (Alt (Cat (Lit 0xE2) (Cat (Lit 0x20AC) (Lit 0x2122)))
              (Alt (Cat (Lit 0xE2) (Lit 0x20AC))
                 (Cat (Lit 0xC3) (lits [0xA2; 0xE2; 0x201A; 0xAC; 0xE2; 0x201E; 0xA2]%N)))))))).
  intros H.
  assert (forall l r, In m (ends uni_alnum false (Cat (Lit l) r) b s) ->
                      s <> [] /\ 1 <= m) as Hlit.
  { intros l r Hm. apply ends_lit_cat_In in Hm.
    destruct Hm as (c & t & k & -> & _ & _ & ->). split; [discriminate | lia]. }
  repeat (apply ends_alt_In in H; destruct H as [H|H]; [now apply Hlit in H|]);
    try (now apply Hlit in H).
  apply ends_alt_In in H. destruct H as [H|H].
  - apply ends_cat_In in H. destruct H as (n & k & _ & Hk & ->).
    apply ends_lit_In in Hk. destruct Hk as (c & t & E & _ & ->).
    split; [|lia]. intros ->. now rewrite skipn_nil in E.
  - repeat (apply ends_alt_In in H; destruct H as [H|H]; [now apply Hlit in H|]).
    now apply Hlit in H.
Qed.

Hypothesis euro_not_alnum : uni_alnum 0x20AC%N = false.

Lemma kept_facts (c : N) :
  keep uni_alnum c = true -> c <> 0xA2%N /\ c <> 0x20AC%N /\ c <> quote_char.
Proof.
  intros Hk. repeat split.
  - intros ->. vm_compute in Hk. discriminate.
  - intros ->. unfold keep, in_set in Hk. cbn in Hk.
    rewrite euro_not_alnum in Hk. discriminate.
  - now apply keep_quote in Hk.
Qed.

(** The replacements and [encoding_artifacts] change nothing in text of
    kept characters without A-circumflex where [Ã\s*\w] is not found. *)
Lemma encoding_artifacts_no_match_kept s :
  Forall (fun c => c <> 0xA2%N) s ->
  Forall (fun c => c <> 0xC2%N) s ->
  Forall (fun c => c <> 0x20AC%N) s ->
  (forall b n, ends uni_alnum false (body A_tilde_then_word) b (skipn n s) = []) ->
  forall b n, ends uni_alnum false (body encoding_artifacts) b (skipn n s) = [].
Proof.
  intros Hc H2 He Hword b n.
  change (body encoding_artifacts) with
    (Alt (Cat (Lit 0xC3) (Cat (Star ws) (Lit 0xC2)))
      (Alt (body A_tilde_then_word)
        (Alt (Cat (Star ws) (Lit 0xC2))
          (Alt (Cat (Lit 0xC2) (Lit (ch "t")))
            (Alt (Cat (Lit 0xE2) (Cat (Lit 0x20AC) (Lit 0x2122)))
              (Alt (Cat (Lit 0xE2) (Lit 0x20AC))
                 (Cat (Lit 0xC3)
                    (Cat (Lit 0xA2) (lits [0xE2; 0x201A; 0xAC; 0xE2; 0x201E; 0xA2]%N))))))))).
  rewrite !ends_alt, Hword.
  rewrite (ends_cat_nil_r uni_alnum (Lit 0xC3) (Cat (Star ws) (Lit 0xC2))).
  2:{ intros b' m. apply ends_cat_nil_r. intros b'' m'. rewrite !skipn_skipn.
      now apply ends_lit_absent. }
  rewrite (ends_cat_nil_r uni_alnum (Star ws) (Lit 0xC2)).
  2:{ intros b' m. rewrite skipn_skipn. now apply ends_lit_absent. }
  rewrite (ends_cat_nil_l uni_alnum (Lit 0xC2)) by (now apply ends_lit_absent).
  rewrite (ends_cat_nil_r uni_alnum (Lit 0xE2) (Cat (Lit 0x20AC) (Lit 0x2122))).
  2:{ intros b' m. apply ends_cat_nil_l. rewrite skipn_skipn. now apply ends_lit_absent. }
  rewrite (ends_cat_nil_r uni_alnum (Lit 0xE2) (Lit 0x20AC)).
  2:{ intros b' m. rewrite skipn_skipn. now apply ends_lit_absent. }
  rewrite (ends_cat_nil_r uni_alnum (Lit 0xC3)).
  2:{ intros b' m. apply ends_cat_nil_l. rewrite skipn_skipn. now apply ends_lit_absent. }
  reflexivity.
Qed.

(** The seven replacements of [clean_text] change nothing in text of kept
    characters without A-circumflex. *)
Lemma clean_steps_of_kept (y : pystr) :
  Forall (fun c => keep uni_alnum c = true /\ c <> 0xC2%N) y ->
  clean_steps uni_alnum y =
    re_sub uni_alnum (cs (Plus ws)) (u " ")
      (str_strip
         (apply_text_patterns uni_alnum (re_sub uni_alnum encoding_artifacts [] y))).
Proof.
  intros Hall.
  assert (~ In 0xA2%N y /\ ~ In 0xC2%N y /\ ~ In 0x20AC%N y) as (Nc & N2 & Ne).
  { rewrite Forall_forall in Hall.
    repeat split; intros Hin; destruct (Hall _ Hin) as [Hk H2];
      try apply kept_facts in Hk; tauto. }
  unfold clean_steps. cbv zeta.
  rewrite (str_replace_absent [0xC3; 0xA2]%N _ y 0xA2%N) by (simpl; tauto).
  rewrite (str_replace_absent [0xC2; ch "t"]%N _ y 0xC2%N) by (simpl; tauto).
  rewrite (str_replace_absent [0xE2; 0x20AC; 0x2122]%N _ y 0x20AC%N) by (simpl; tauto).
  rewrite (str_replace_absent [0xE2; 0x20AC; 0x153]%N _ y 0x20AC%N) by (simpl; tauto).
  rewrite (str_replace_absent [0xE2; 0x20AC]%N _ y 0x20AC%N) by (simpl; tauto).
  rewrite (str_replace_absent [0xC3; 0x82; 0xC2; 0x92]%N _ y 0xC2%N) by (simpl; tauto).
  rewrite (str_replace_absent [0xC3; 0x82; 0xC2]%N _ y 0xC2%N) by (simpl; tauto).
  reflexivity.
Qed.

(** Spaced text of kept characters without A-circumflex, in which
    [Ã\s*\w] is not found, is a fixed point of [clean_text]. *)
Lemma clean_text_kept_fixed (y : pystr) :
  Forall (fun c => keep uni_alnum c = true /\ c <> 0xC2%N) y ->
  spaced true y = true ->
  re_search uni_alnum A_tilde_then_word false y = false ->
  clean_text uni_alnum (Str y) = y.
Proof.
  intros Hall Hsp Hnot.
  assert (Forall (fun c => c <> 0xA2%N) y) as Hc
    by (eapply Forall_impl; [|exact Hall]; intros c [Hk _]; now apply kept_facts in Hk).
  assert (Forall (fun c => c <> 0xC2%N) y) as H2
    by (eapply Forall_impl; [|exact Hall]; now intros c [_ H]).
  assert (Forall (fun c => c <> 0x20AC%N) y) as He
    by (eapply Forall_impl; [|exact Hall]; intros c [Hk _]; now apply kept_facts in Hk).
  assert (forallb (keep uni_alnum) y = true) as Hk.
  { apply forallb_forall. rewrite Forall_forall in Hall. intros c Hin. now apply Hall. }
  assert (forallb (fun c => negb (c =? quote_char)%N) y = true) as Hq.
  { apply forallb_forall. rewrite Forall_forall in Hall. intros c Hin.
    apply negb_true_iff, N.eqb_neq. destruct (Hall c Hin) as [Hkc _].
    now apply kept_facts in Hkc. }
  assert (forall b n, ends uni_alnum false (body A_tilde_then_word) b (skipn n y) = [])
    as Hword.
  { unfold re_search in Hnot.
    change (ignore_case A_tilde_then_word || false) with false in Hnot.
    change (body A_tilde_then_word) with (Cat (Lit 0xC3%N) (Cat (Star ws) word)) in *.
    now apply search_from_false_ends. }
  assert (clean_steps uni_alnum y = y) as Hsteps.
  { rewrite (clean_steps_of_kept y Hall).
    assert (re_sub uni_alnum encoding_artifacts [] y = y) as ->.
    { unfold re_sub. change (ignore_case encoding_artifacts) with false.
      apply sub_from_no_match.
      - exact (encoding_artifacts_no_match_kept y Hc H2 He Hword true 0).
      - intros n. exact (encoding_artifacts_no_match_kept y Hc H2 He Hword false (S n)). }
    rewrite apply_text_patterns_eq, sub_apostrophes, sub_quotes, (filter_all _ _ Hq).
    change (text_pattern "whitespace") with (cs (Plus ws)).
    rewrite (sub_whitespace uni_alnum y).
    rewrite (squeeze_spaced is_space (fun c H => H) y true false Hsp) by discriminate.
    rewrite sub_special_chars, (filter_all _ _ Hk).
    assert (re_sub uni_alnum (text_pattern "trailing") [] y = y) as ->.
    { unfold re_sub. change (ignore_case (text_pattern "trailing")) with false.
      destruct (trailing_no_match uni_alnum y Hsp) as [H0 Hn].
      now apply sub_from_no_match. }
    rewrite sub_multiple_spaces.
    rewrite (squeeze_spaced (fun c => (c =? 0x20)%N)) with (prev := true);
      [| intros c Hc'; apply N.eqb_eq in Hc'; now subst | exact Hsp | discriminate].
    rewrite (str_strip_spaced y Hsp), sub_whitespace.
    now rewrite (squeeze_spaced is_space (fun c H => H) y true false Hsp) by discriminate. }
  simpl. rewrite Hsteps. destruct y; [discriminate | reflexivity].
Qed.

(** The steps of [clean_text] shorten text of kept characters without
    A-circumflex in which [Ã\s*\w] is found. *)
Lemma clean_steps_shorter (y : pystr) :
  Forall (fun c => keep uni_alnum c = true /\ c <> 0xC2%N) y ->
  re_search uni_alnum A_tilde_then_word false y = true ->
  length (clean_steps uni_alnum y) < length y.
Proof.
  intros Hall Hfound. rewrite (clean_steps_of_kept y Hall).
  set (t8 := re_sub uni_alnum encoding_artifacts [] y).
  assert (length t8 < length y) as H8.
  { unfold t8, re_sub. change (ignore_case encoding_artifacts) with false.
    apply (sub_from_shorter false _ encoding_artifacts_advances).
    unfold re_search in Hfound.
    change (ignore_case A_tilde_then_word || false) with false in Hfound.
    apply search_from_where in Hfound. destruct Hfound as (pre & suf & m & -> & Hm).
    apply (search_from_found uni_alnum false _ pre true suf m).
    change (body encoding_artifacts) with
      (Alt (Cat (Lit 0xC3) (Cat (Star ws) (Lit 0xC2)))
         (Alt (body A_tilde_then_word)
            (Alt (Cat (Star ws) (Lit 0xC2))
               (Alt (Cat (Lit 0xC2) (Lit (ch "t")))
                  (Alt (Cat (Lit 0xE2) (Cat (Lit 0x20AC) (Lit 0x2122)))
                     (Alt (Cat (Lit 0xE2) (Lit 0x20AC))
                        (Cat (Lit 0xC3)
                           (lits [0xA2; 0xE2; 0x201A; 0xAC; 0xE2; 0x201E; 0xA2]%N)))))))).
    rewrite 2!ends_alt. apply in_or_app. right. apply in_or_app. now left. }
  clearbody t8.
  rewrite apply_text_patterns_eq, sub_apostrophes, sub_quotes.
  change (text_pattern "whitespace") with (cs (Plus ws)).
  rewrite sub_special_chars, sub_multiple_spaces.
  rewrite (sub_whitespace uni_alnum (str_strip _)).
  rewrite (sub_whitespace uni_alnum (filter _ t8)).
  unfold str_strip, re_sub.
  eapply Nat.le_lt_trans; [apply squeeze_length|].
  eapply Nat.le_lt_trans; [apply rstrip_length|].
  eapply Nat.le_lt_trans; [apply lstrip_length|].
  eapply Nat.le_lt_trans; [apply squeeze_length|].
  eapply Nat.le_lt_trans; [apply sub_from_length|]. rewrite Nat.sub_0_r.
  eapply Nat.le_lt_trans; [apply filter_shorter|].
  eapply Nat.le_lt_trans; [apply squeeze_length|].
  eapply Nat.le_lt_trans; [apply filter_shorter|]. exact H8.
Qed.

(** Where the text has no A-tilde, [Ã\s*\w] is not found. *)
Lemma A_tilde_then_word_absent (y : pystr) :
  without_A_tilde (Str y) = true ->
  re_search uni_alnum A_tilde_then_word false y = false.
Proof.
  cbn [without_A_tilde]. intros H.
  assert (Forall (fun c => c <> 0xC3%N) y) as H3.
  { apply Forall_forall. intros c Hc. rewrite forallb_forall in H.
    now apply N.eqb_neq, negb_true_iff, H. }
  unfold re_search. change (ignore_case A_tilde_then_word || false) with false.
  change (body A_tilde_then_word) with (Cat (Lit 0xC3%N) (Cat (Star ws) word)).
  apply search_from_none.
  - apply ends_cat_nil_l. exact (ends_lit_absent uni_alnum 0xC3%N true 0 y H3).
  - intros n. apply ends_cat_nil_l. now apply ends_lit_absent.
Qed.

(** C3, as the code has it: [clean_text] applied to its own result
    returns it, whatever the value, exactly when [Ã\s*\w] (an A-tilde
    and, after optional white space, a word character) is not found in
    the result; so it does whenever the result has no A-tilde (U+00C3),
    and the result has none when the value is missing or its text has
    none.  (The euro sign is no alphanumeric.) *)
Theorem clean_text_idempotent_iff (v : value) :
  (clean_text uni_alnum (Str (clean_text uni_alnum v)) = clean_text uni_alnum v <->
   re_search uni_alnum A_tilde_then_word false (clean_text uni_alnum v) = false) /\
  (without_A_tilde (Str (clean_text uni_alnum v)) = true ->
   clean_text uni_alnum (Str (clean_text uni_alnum v)) = clean_text uni_alnum v) /\
  (without_A_tilde v = true ->
   without_A_tilde (Str (clean_text uni_alnum v)) = true).
Proof.
  destruct (clean_text_kept uni_alnum v) as [Hall Hsp].
  assert (re_search uni_alnum A_tilde_then_word false (clean_text uni_alnum v) = false ->
          clean_text uni_alnum (Str (clean_text uni_alnum v)) = clean_text uni_alnum v)
    as Hfixed by (now apply clean_text_kept_fixed).
  split; [split; [|exact Hfixed] | split].
  - intros Hidem.
    destruct (re_search uni_alnum A_tilde_then_word false (clean_text uni_alnum v))
      eqn:Hfound; [exfalso | reflexivity].
    pose proof (clean_steps_shorter _ Hall Hfound) as Hlen.
    cbn [clean_text] in Hidem.
    destruct (clean_steps uni_alnum (clean_text uni_alnum v)) as [|c t].
    + rewrite <- Hidem in Hfound. vm_compute in Hfound. discriminate.
    + rewrite <- Hidem in Hlen. lia.
  - intros Hno. now apply Hfixed, A_tilde_then_word_absent.
  - intros Hv. apply (clean_text_normal uni_alnum) in Hv.
    unfold normal in Hv. apply andb_true_iff in Hv. destruct Hv as [Hplain _].
    cbn [without_A_tilde]. apply forallb_forall. intros c Hc.
    rewrite forallb_forall in Hplain. specialize (Hplain c Hc).
    unfold plain in Hplain. apply andb_true_iff in Hplain.
    destruct Hplain as [Hplain _]. apply andb_true_iff in Hplain. tauto.
Qed.

End Again.

(** ** Instances *)

Example survey_is_cleaned :
  exists lg,
    clean_data latin1_table (Cleaner (Some survey) [] []) =
      Returns (Cleaner (Some survey_cleaned) lg [], true).
Proof. eexists. vm_compute. reflexivity. Qed.

Lemma match_pattern_in_labels_witness :
  rules_of "Occupation" = Some (rules_at "Occupation") /\
  In (match_pattern latin1_table (rules_at "Occupation") (Str (u "FARMERS ")))
     (labels (rules_at "Occupation") ++ [u "Other"]).
Proof.
  split; [reflexivity|].
  exact (proj1 (match_pattern_in_labels latin1_table "Occupation" _ eq_refl) _).
Defined.

Lemma canonical_label_relabelled_witness :
  In (u "Trader") (labels (rules_at "Occupation")) /\
  match_pattern latin1_table (rules_at "Occupation") (Str (u "Trader")) = u "Trader" /\
  In (u "ID Issues") (labels (rules_at "Reason_Not_Voted")) /\
  match_pattern latin1_table (rules_at "Reason_Not_Voted") (Str (u "ID Issues")) = u "Other".
Proof.
  assert (In (u "Trader") (labels (rules_at "Occupation"))) as H1 by (now left).
  assert (In (u "ID Issues") (labels (rules_at "Reason_Not_Voted"))) as H2
    by (do 2 right; now left).
  split; [exact H1|]. split.
  - exact (canonical_label_relabelled latin1_table "Occupation" _ _ eq_refl H1).
  - split; [exact H2|].
    exact (canonical_label_relabelled latin1_table "Reason_Not_Voted" _ _ eq_refl H2).
Defined.

Lemma first_match_wins_witness :
  (* "unfair" matches the rules fair and unfair: the first one wins *)
  re_search latin1_table (fst (rule_at "Fair_Election_Results" 0)) true
    (clean_text latin1_table (Str (u "unfair"))) = true /\
  re_search latin1_table (fst (rule_at "Fair_Election_Results" 1)) true
    (clean_text latin1_table (Str (u "unfair"))) = true /\
  match_pattern latin1_table (rules_at "Fair_Election_Results") (Str (u "unfair")) = u "Yes" /\
  (* "Dont know" matches the third rule only *)
  match_pattern latin1_table (rules_at "Fair_Election_Results") (Str (u "Dont know"))
    = u "Don't Know" /\
  (* "ndc " matches the first rule of Party_Belong *)
  match_pattern latin1_table (rules_at "Party_Belong") (Str (u "ndc ")) = u "NDC".
Proof.
  split; [reflexivity|]. split; [reflexivity|]. split; [|split].
  - exact (first_match_wins latin1_table "Fair_Election_Results" _ []
             (fst (rule_at "Fair_Election_Results" 0)) (u "Yes") _ (Str (u "unfair"))
             eq_refl eq_refl (Forall_nil _) eq_refl).
  - apply (first_match_wins latin1_table "Fair_Election_Results" _
             [rule_at "Fair_Election_Results" 0; rule_at "Fair_Election_Results" 1]
             (fst (rule_at "Fair_Election_Results" 2)) (u "Don't Know")
             [rule_at "Fair_Election_Results" 3]).
    + reflexivity.
    + reflexivity.
    + constructor; [reflexivity|]. constructor; [reflexivity|]. constructor.
    + reflexivity.
  - exact (first_match_wins latin1_table "Party_Belong" _ []
             (fst (rule_at "Party_Belong" 0)) (u "NDC") _ (Str (u "ndc "))
             eq_refl eq_refl (Forall_nil _) eq_refl).
Defined.

Lemma load_data_tries_encodings_in_order_witness :
  snd (load_data (latin1_file survey) init) = true /\
  data (fst (load_data (latin1_file survey) init)) = Some survey /\
  reads (fst (load_data (latin1_file survey) init)) = [utf_8; latin1] /\
  load_data undecodable init =
    (Cleaner None [(ERROR, Failed_to_load_with_any_encoding)] [utf_8; latin1; cp1252], false).
Proof.
  destruct (load_data_tries_encodings_in_order (latin1_file survey)) as (_ & _ & Hfirst & _).
  destruct (load_data_tries_encodings_in_order undecodable) as (_ & _ & _ & Hnone).
  assert (Forall (decode_fails (latin1_file survey)) [utf_8]) as Hutf8
    by (constructor; [reflexivity | constructor]).
  assert (Forall (decode_fails undecodable) encodings) as Hall
    by (repeat (constructor; [reflexivity|]); constructor).
  destruct (Hfirst init [utf_8] latin1 [cp1252] survey eq_refl Hutf8 eq_refl)
    as (H1 & H2 & H3).
  split; [exact H1|]. split; [exact H2|]. split; [exact H3|].
  exact (proj1 (Hnone Hall) init).
Defined.

Lemma load_succeeds_iff_parses_witness :
  (exists before enc after df,
     encodings = before ++ enc :: after /\
     Forall (decode_fails read_header_only) before /\
     read_header_only enc = Parsed df) /\
  snd (load_data read_header_only init) = true.
Proof.
  assert (exists before enc after df,
            encodings = before ++ enc :: after /\
            Forall (decode_fails read_header_only) before /\
            read_header_only enc = Parsed df) as H.
  { exists [], utf_8, [latin1; cp1252], header_only.
    split; [reflexivity|]. split; [constructor | reflexivity]. }
  split; [exact H|].
  exact (proj2 (load_succeeds_iff_parses read_header_only init) H).
Defined.

Lemma clean_data_frame_witness :
  data (Cleaner (Some survey) [] []) = Some survey /\
  well_formed survey /\
  exists df' lg,
    clean_data latin1_table (Cleaner (Some survey) [] []) =
      Returns (Cleaner (Some df') lg [], true) /\
    index df' = index survey /\
    column_names df' = column_names survey /\
    (forall c, rules_of c = None -> get_column df' c = get_column survey c) /\
    (forall c rules s,
       rules_of c = Some rules -> get_column survey c = Some s ->
       get_column df' c = Some (List.map (fun v => Str (match_pattern latin1_table rules v)) s)) /\
    (well_formed survey -> well_formed df').
Proof.
  split; [reflexivity|]. split.
  - split.
    + repeat (constructor; [simpl; intros H; repeat (destruct H as [H|H]; [discriminate|]);
                            exact H|]).
      constructor.
    + repeat (constructor; [reflexivity|]). constructor.
  - exact (clean_data_frame latin1_table (Cleaner (Some survey) [] []) survey eq_refl).
Defined.

(** Repairing ["cafÃ© au lait"] twice: the first pass removes the
    copyright sign and keeps the A-tilde, the second pass removes the
    A-tilde with the space and the letter after it. *)
Lemma cafe_repaired_twice (uni_alnum : N -> bool) :
  clean_text uni_alnum (Str cafe_au_lait) = u "caf" ++ [0xC3%N] ++ u " au lait" /\
  clean_text uni_alnum (Str (clean_text uni_alnum (Str cafe_au_lait))) = u "cafu lait".
Proof. split; vm_compute; reflexivity. Qed.

(** C3 fails as stated: [clean_text] is not idempotent on
    ["cafÃ© au lait"]. *)
Lemma clean_text_not_idempotent :
  clean_text latin1_table (Str cafe_au_lait) = u "caf" ++ [0xC3%N] ++ u " au lait" /\
  clean_text latin1_table (Str (clean_text latin1_table (Str cafe_au_lait))) = u "cafu lait".
Proof. exact (cafe_repaired_twice latin1_table). Qed.

Lemma clean_text_idempotent_iff_witness :
  latin1_table 0x20AC%N = false /\
  (* "pÃ¢te" has an A-tilde and is repaired at once *)
  without_A_tilde (Str pate) = false /\
  clean_text latin1_table (Str pate) = u "pate" /\
  without_A_tilde (Str (clean_text latin1_table (Str pate))) = true /\
  clean_text latin1_table (Str (clean_text latin1_table (Str pate)))
    = clean_text latin1_table (Str pate) /\
  (* a mis-decoded apostrophe *)
  clean_text latin1_table (Str dont_know) = u "don't know" /\
  re_search latin1_table A_tilde_then_word false
    (clean_text latin1_table (Str dont_know)) = false /\
  clean_text latin1_table (Str (clean_text latin1_table (Str dont_know)))
    = clean_text latin1_table (Str dont_know).
Proof.
  split; [reflexivity|]. split; [reflexivity|]. split; [reflexivity|].
  split; [reflexivity|]. split.
  - exact (proj1 (proj2 (clean_text_idempotent_iff latin1_table eq_refl (Str pate)))
             eq_refl).
  - split; [reflexivity|]. split; [reflexivity|].
    exact (proj2 (proj1 (clean_text_idempotent_iff latin1_table eq_refl (Str dont_know)))
             eq_refl).
Defined.

(** * Further properties *)

(** ** Loading: other failures and missing columns *)

Section LoadingMore.

Variable read_csv : encoding -> read_result.

Lemma load_loop_other_exception before enc after e st :
  Forall (decode_fails read_csv) before ->
  read_csv enc = OtherException e ->
  load_loop read_csv (before ++ enc :: after) st =
    (Cleaner (data st) (log st ++ [(ERROR, Error_loading_data e)])
       (reads st ++ before ++ [enc]), false).
Proof.
  intros Hbefore Henc. revert st.
  induction Hbefore as [|x before Hx _ IH]; intros st; simpl.
  - rewrite Henc. reflexivity.
  - rewrite Hx, IH. simpl. now rewrite <- app_assoc.
Qed.

(** X1: an exception of [pd.read_csv] that is not a [UnicodeDecodeError]
    ends [load_data]: it answers [False], logs the exception, keeps the
    data it had and reads the file with no later encoding, whatever that
    encoding would give. *)
Theorem load_data_stops_at_other_exception st before enc after e :
  encodings = before ++ enc :: after ->
  Forall (decode_fails read_csv) before ->
  read_csv enc = OtherException e ->
  load_data read_csv st =
    (Cleaner (data st) (log st ++ [(ERROR, Error_loading_data e)])
       (reads st ++ before ++ [enc]), false).
Proof.
  intros Hencs Hbefore Henc. unfold load_data. rewrite Hencs.
  now apply load_loop_other_exception.
Qed.

Lemma log_validate_data st df :
  data st = Some df ->
  log (validate_data st) =
    log st ++ match missing_columns df with
              | [] => []
              | missing => [(WARNING, Missing_columns missing)]
              end.
Proof.
  intros Hdata. unfold validate_data, missing_columns. rewrite Hdata.
  destruct (filter _ governed); [now rewrite app_nil_r | reflexivity].
Qed.

(** X2: a governed column that the file has not does not fail the load:
    when an encoding parses, [load_data] answers [True] with the frame and
    logs, before the two lines on the encoding and the number of records,
    one warning that lists the governed columns the frame has not, in the
    order of [COLUMN_PATTERNS]; it logs no warning when the frame has them
    all. *)
Theorem load_data_warns_missing_columns st before enc after df :
  encodings = before ++ enc :: after ->
  Forall (decode_fails read_csv) before ->
  read_csv enc = Parsed df ->
  snd (load_data read_csv st) = true /\
  data (fst (load_data read_csv st)) = Some df /\
  log (fst (load_data read_csv st)) =
    log st
    ++ match missing_columns df with
       | [] => []
       | missing => [(WARNING, Missing_columns missing)]
       end
    ++ [(INFO, Successfully_loaded enc); (INFO, Loaded_records (index df))] /\
  (forall column,
     In column (missing_columns df) <->
     In column governed /\ has_column df column = false).
Proof.
  intros Hencs Hbefore Henc. unfold load_data. rewrite Hencs.
  rewrite (load_loop_first_parse _ _ _ _ _ _ Hbefore Henc). cbn [fst snd].
  split; [reflexivity|]. split; [apply data_loaded|]. split.
  - unfold loaded, logging. cbn [log].
    rewrite (log_validate_data _ df) by reflexivity. cbn [log].
    now rewrite <- !app_assoc.
  - intros column. unfold missing_columns. rewrite filter_In.
    now rewrite negb_true_iff.
Qed.

End LoadingMore.

(** ** Cleaning: what raises and what does not *)

Section Raising.

Variable uni_alnum : N -> bool.

Lemma has_column_false df column :
  has_column df column = false <-> get_column df column = None.
Proof.
  split; intros H.
  - destruct (get_column df column) eqn:E; [|reflexivity].
    assert (has_column df column = true) by (apply has_column_get; congruence).
    congruence.
  - destruct (has_column df column) eqn:E; [|reflexivity].
    apply has_column_get in E. congruence.
Qed.

(** X3: the two methods that standardise a column raise [KeyError]
    exactly for a governed column that the frame has not, and return the
    frame as it is for a column that is not governed. *)
Theorem standardize_raises_iff column df :
  (standardize_column_with_search uni_alnum column df = KeyError <->
   is_governed column = true /\ has_column df column = false) /\
  (standardize_column uni_alnum column df = KeyError <->
   is_governed column = true /\ has_column df column = false) /\
  (is_governed column = false ->
   standardize_column_with_search uni_alnum column df = Returns df /\
   standardize_column uni_alnum column df = Returns df).
Proof.
  unfold standardize_column_with_search, standardize_column, is_governed.
  rewrite has_column_false.
  destruct (rules_of column) as [rules|]; destruct (get_column df column) as [s|];
    repeat split; try discriminate; try reflexivity; intros [H1 H2]; discriminate.
Qed.

(** X4: [clean_data] never raises: it guards every column with
    [column in self.data.columns].  Without data it answers [False] and
    logs ["No data loaded"]; with data it answers [True]; it reads no
    file. *)
Theorem clean_data_never_raises st :
  exists st' ok,
    clean_data uni_alnum st = Returns (st', ok) /\
    reads st' = reads st /\
    match data st with
    | None =>
        ok = false /\ data st' = None /\ log st' = log st ++ [(ERROR, No_data_loaded)]
    | Some df =>
        ok = true /\
        exists df', data st' = Some df' /\ column_names df' = column_names df
    end.
Proof.
  unfold clean_data. destruct (data st) as [df|] eqn:Hdata.
  - assert (Forall (fun c => rules_of c <> None) governed) as Hgov.
    { apply Forall_forall. intros c Hc Hnone.
      unfold rules_of in Hnone. apply assoc_None_iff in Hnone. contradiction. }
    destruct (clean_columns_spec uni_alnum governed governed_NoDup Hgov df
                (log st ++ [(INFO, Starting_cleaning)]))
      as (df' & lg' & Hrun & _ & Hnames & _).
    rewrite Hrun. eexists _, true. split; [reflexivity|]. split; [reflexivity|].
    split; [reflexivity|]. exists df'. split; [reflexivity | exact Hnames].
  - eexists _, false. split; [reflexivity|]. split; [reflexivity|].
    cbn [logging data log]. now rewrite Hdata.
Qed.

End Raising.

(** ** Cleaning: the missing cells and the log *)

Lemma columns_by_lookup (f : string -> Series -> Series) (l1 : list (string * Series)) :
  forall l2,
    List.map fst l2 = List.map fst l1 ->
    NoDup (List.map fst l1) ->
    (forall k v, assoc k l1 = Some v -> assoc k l2 = Some (f k v)) ->
    l2 = List.map (fun kv : string * Series => (fst kv, f (fst kv) (snd kv))) l1.
Proof.
  induction l1 as [|[k v] t1 IH]; intros [|[k' v'] t2] Hnames Hnodup Hlookup;
    try discriminate; [reflexivity|].
  simpl in Hnames. injection Hnames as -> Hnames.
  inversion Hnodup as [|? ? Hnotin Hnodup']; subst.
  pose proof (Hlookup k v) as Hk. simpl in Hk. rewrite String.eqb_refl in Hk.
  specialize (Hk eq_refl). injection Hk as ->.
  simpl. f_equal. apply IH; [exact Hnames | exact Hnodup'|].
  intros k0 v0 H0.
  assert (k0 <> k) as Hne.
  { intros ->. apply Hnotin. apply assoc_In in H0.
    apply in_map_iff. now exists (k, v0). }
  pose proof (Hlookup k0 v0) as H. simpl in H.
  apply String.eqb_neq in Hne. rewrite Hne in H. now apply H.
Qed.

Lemma flat_map_ext_In {A B} (f g : A -> list B) (l : list A) :
  (forall a, In a l -> f a = g a) -> flat_map f l = flat_map g l.
Proof.
  induction l as [|a l IH]; intros H; [reflexivity|]. simpl.
  rewrite (H a) by (now left). f_equal. apply IH. intros x Hx. apply H. now right.
Qed.

Lemma nulls_map_Str (g : value -> pystr) (s : Series) :
  nulls (List.map (fun v => Str (g v)) s) = 0.
Proof. unfold nulls. induction s as [|v s IH]; [reflexivity | exact IH]. Qed.

Lemma has_column_names df1 df2 column :
  column_names df1 = column_names df2 -> has_column df1 column = has_column df2 column.
Proof. unfold has_column. now intros ->. Qed.

Section Nulls.

Variable uni_alnum : N -> bool.

(** The lines that the loop of [clean_data] logs. *)
Lemma clean_columns_log cols :
  forall df lg df' lg',
    clean_columns uni_alnum cols df lg = Returns (df', lg') ->
    lg' = lg ++ List.map (fun c => (INFO, Cleaning_column c)) (filter (has_column df) cols).
Proof.
  induction cols as [|column rest IH]; intros df lg df' lg' Hrun; simpl in Hrun.
  - injection Hrun as <- <-. simpl. now rewrite app_nil_r.
  - simpl. destruct (has_column df column) eqn:Hhas.
    + destruct (standardize_column_with_search uni_alnum column df) as [df1|] eqn:Hstd;
        [|discriminate].
      apply IH in Hrun. rewrite Hrun, <- app_assoc. simpl. do 3 f_equal.
      apply filter_ext. intros c. apply has_column_names.
      unfold standardize_column_with_search in Hstd.
      destruct (rules_of column); [|now injection Hstd as <-].
      destruct (get_column df column) as [s|] eqn:Hget; [|discriminate].
      injection Hstd as <-. unfold column_names, set_column. simpl.
      apply names_set_assoc. unfold get_column in Hget. congruence.
    + now apply IH in Hrun.
Qed.

Lemma clean_data_never_raises_aux df lg :
  exists df' lg', clean_columns uni_alnum governed df lg = Returns (df', lg').
Proof.
  assert (Forall (fun c => rules_of c <> None) governed) as Hgov.
  { apply Forall_forall. intros c Hc Hnone.
    unfold rules_of in Hnone. apply assoc_None_iff in Hnone. contradiction. }
  destruct (clean_columns_spec uni_alnum governed governed_NoDup Hgov df lg)
    as (df' & lg' & Hrun & _).
  now exists df', lg'.
Qed.

(** The frame that the loop of [clean_data] returns. *)
Lemma clean_columns_frame df lg df' lg' :
  NoDup (column_names df) ->
  clean_columns uni_alnum governed df lg = Returns (df', lg') ->
  columns df' =
    List.map (fun cs : string * Series =>
                (fst cs, if is_governed (fst cs)
                         then List.map (cell_of uni_alnum (fst cs)) (snd cs)
                         else snd cs)) (columns df).
Proof.
  intros Hnodup Hrun.
  assert (Forall (fun c => rules_of c <> None) governed) as Hgov.
  { apply Forall_forall. intros c Hc Hnone.
    unfold rules_of in Hnone. apply assoc_None_iff in Hnone. contradiction. }
  destruct (clean_columns_spec uni_alnum governed governed_NoDup Hgov df lg)
    as (df2 & lg2 & Hrun2 & _ & Hnames & Hframe & Hnew).
  rewrite Hrun in Hrun2. injection Hrun2 as <- <-.
  apply (columns_by_lookup
           (fun c s => if is_governed c then List.map (cell_of uni_alnum c) s else s));
    [exact Hnames | exact Hnodup|].
  intros c s Hs. unfold is_governed.
  destruct (rules_of c) as [rules|] eqn:Hrules.
  - apply (Hnew c s); [|exact Hs].
    destruct (in_dec string_dec c governed) as [Hin|Hout]; [exact Hin|].
    apply assoc_None_iff in Hout. unfold rules_of in Hrules. congruence.
  - fold (get_column df' c). rewrite Hframe; [exact Hs|].
    unfold rules_of in Hrules. now apply assoc_None_iff in Hrules.
Qed.

(** X5: on a frame with unique column names, [clean_data] leaves no
    missing cell in a governed column and the other columns as they are;
    its log is the line that starts the cleaning, one line for each
    governed column of the frame in the order of [COLUMN_PATTERNS], the
    title of the summary and, in the order of the frame, one line for
    each governed column that had missing cells, with their number. *)
Theorem clean_data_fills_nulls st df :
  data st = Some df ->
  NoDup (column_names df) ->
  exists df',
    clean_data uni_alnum st =
      Returns
        (Cleaner (Some df')
           (log st
            ++ [(INFO, Starting_cleaning)]
            ++ List.map (fun c => (INFO, Cleaning_column c)) (filter (has_column df) governed)
            ++ [(INFO, Cleaning_summary)]
            ++ flat_map (fun cs : string * Series =>
                   if is_governed (fst cs) && negb (nulls (snd cs) =? 0)
                   then [(INFO, Filled_nulls (fst cs) (Z.of_nat (nulls (snd cs))))]
                   else []) (columns df))
           (reads st), true) /\
    (forall c s', is_governed c = true -> get_column df' c = Some s' -> nulls s' = 0) /\
    (forall c, is_governed c = false -> get_column df' c = get_column df c).
Proof.
  intros Hdata Hnodup. unfold clean_data. rewrite Hdata.
  destruct (clean_data_never_raises_aux df (log st ++ [(INFO, Starting_cleaning)]))
    as (df' & lg' & Hrun).
  rewrite Hrun.
  pose proof (clean_columns_log _ _ _ _ _ Hrun) as Hlog.
  pose proof (clean_columns_frame _ _ _ _ Hnodup Hrun) as Hcols.
  exists df'. split; [|split].
  - do 3 f_equal. rewrite Hlog, <- !app_assoc. do 4 f_equal.
    unfold summary, null_counts. rewrite Hcols, map_map, flat_map_concat_map, map_map,
      <- flat_map_concat_map.
    apply flat_map_ext_In. intros [c s] Hin. cbn [fst snd].
    rewrite (NoDup_assoc c (length (filter is_nan s))).
    2:{ now rewrite map_map. }
    2:{ apply in_map_iff. now exists (c, s). }
    fold (nulls s). destruct (is_governed c).
    + unfold cell_of. fold (nulls (List.map (fun v => Str (match_pattern uni_alnum (rules_at c) v)) s)).
      rewrite nulls_map_Str. cbn [andb]. destruct (nulls s =? 0); [reflexivity|].
      cbn [negb]. now rewrite Z.sub_0_r.
    + fold (nulls s). now rewrite Nat.eqb_refl.
  - intros c s' Hgov Hget. unfold get_column in Hget. rewrite Hcols in Hget.
    apply assoc_In, in_map_iff in Hget. destruct Hget as ([c0 s0] & [= -> <-] & _).
    cbn [fst snd]. rewrite Hgov. unfold cell_of. apply nulls_map_Str.
  - intros c Hgov. unfold get_column. rewrite Hcols. clear Hcols.
    induction (columns df) as [|[c0 s0] t IH]; [reflexivity|]. simpl.
    destruct (String.eqb c c0) eqn:E; [|exact IH].
    apply String.eqb_eq in E. subst c0. now rewrite Hgov.
Qed.

End Nulls.

(** ** The two methods that standardise, on a value that no rule matches *)

Lemma rules_ignore_case :
  forallb (fun cr : string * list (pattern * pystr) =>
             forallb (fun r : pattern * pystr => ignore_case (fst r)) (snd cr))
    COLUMN_PATTERNS = true.
Proof. reflexivity. Qed.

Section Unmatched.

Variable uni_alnum : N -> bool.

(** Where [re.search] finds nothing, [re.sub] returns the subject. *)
Lemma sub_from_not_found ic r repl s :
  forall b,
    search_from uni_alnum ic r b s = false ->
    sub_from uni_alnum ic r repl b 0 s = s.
Proof.
  induction s as [|c t IH]; intros b H; cbn [search_from] in H.
  - simpl. destruct (ends uni_alnum ic r b []); [reflexivity | discriminate].
  - rewrite sub_from_here.
    destruct (ends uni_alnum ic r b (c :: t)); [|discriminate].
    f_equal. now apply IH.
Qed.

Lemma bulk_not_found rules text :
  Forall (fun r : pattern * pystr => ignore_case (fst r) = true) rules ->
  Forall (fun r : pattern * pystr => re_search uni_alnum (fst r) true text = false) rules ->
  fold_left (fun cell (rule : pattern * pystr) =>
               replace_regex uni_alnum (fst rule) (snd rule) cell) rules (Str text)
    = Str text.
Proof.
  induction rules as [|[p l] rest IH]; intros Hic Hnone; [reflexivity|].
  inversion Hic as [|? ? Hp Hrest]; subst. inversion Hnone as [|? ? Hs Hnrest]; subst.
  cbn [fold_left replace_regex fst snd]. cbn [fst] in Hp, Hs.
  assert (re_sub uni_alnum p l text = text) as ->.
  { unfold re_sub. apply sub_from_not_found.
    unfold re_search in Hs. rewrite Hp in *. exact Hs. }
  now apply IH.
Qed.

(** X6: for a governed column and a value of which the repaired text is
    matched by no rule of the column, [standardize_column] leaves the
    repaired text in the cell and [standardize_column_with_search] puts
    ["Other"]. *)
Theorem bulk_keeps_unmatched_text column rules (v : value) :
  rules_of column = Some rules ->
  Forall (fun r : pattern * pystr =>
            re_search uni_alnum (fst r) true (clean_text uni_alnum v) = false) rules ->
  bulk_value uni_alnum rules v = Str (clean_text uni_alnum v) /\
  match_pattern uni_alnum rules v = u "Other".
Proof.
  intros Hrules Hnone. split.
  - unfold bulk_value. apply bulk_not_found; [|exact Hnone].
    apply assoc_In in Hrules. pose proof rules_ignore_case as H.
    rewrite forallb_forall in H. specialize (H _ Hrules). cbn [snd] in H.
    apply Forall_forall. rewrite forallb_forall in H. exact H.
  - unfold match_pattern. now apply first_match_other.
Qed.

(** ** The categoriser applied again *)

Lemma relabel_twice_table :
  forallb (fun cr : string * list (pattern * pystr) =>
      forallb (fun y =>
          pystr_eqb
            (match_pattern uni_alnum (snd cr)
               (Str (match_pattern uni_alnum (snd cr) (Str y))))
            (match_pattern uni_alnum (snd cr) (Str y)))
        (labels (snd cr) ++ [u "Other"]))
    COLUMN_PATTERNS = true.
Proof. vm_compute. reflexivity. Qed.

(** X7: the categoriser of a governed column settles at its second
    application: a third one changes nothing, whatever the value.  (The
    second one can change the first: a missing [Party_Belong] is
    ["Not Specified"] after one application and ["Other"] after two.) *)
Theorem match_pattern_settles_at_second column rules (v : value) :
  rules_of column = Some rules ->
  match_pattern uni_alnum rules
    (Str (match_pattern uni_alnum rules (Str (match_pattern uni_alnum rules v))))
  = match_pattern uni_alnum rules (Str (match_pattern uni_alnum rules v)).
Proof.
  intros Hrules. apply assoc_In in Hrules.
  pose proof relabel_twice_table as H.
  rewrite forallb_forall in H. specialize (H _ Hrules). cbn [snd] in H.
  rewrite forallb_forall in H.
  apply pystr_eqb_eq, H. apply first_match_in_labels.
Qed.

End Unmatched.

(** ** The text that [clean_text] returns *)

Lemma spaced_spaces prev s :
  spaced prev s = true -> Forall (fun c => is_space c = true -> c = 0x20%N) s.
Proof.
  revert prev. induction s as [|c t IH]; intros prev H; [constructor|].
  simpl in H. destruct (is_space c) eqn:Hc.
  - apply andb_true_iff in H. destruct H as [H Ht].
    apply andb_true_iff in H. destruct H as [_ H20]. apply N.eqb_eq in H20.
    constructor; [intros _; exact H20 | now apply (IH true)].
  - constructor; [intros E; congruence | now apply (IH false)].
Qed.

Section Shape.

Variable uni_alnum : N -> bool.

(** X8: whatever the value, the text that [clean_text] returns has only
    characters that [special_chars] keeps (word characters, apostrophe,
    hyphen, white space), no double quote and no A-circumflex; its white
    space is single U+0020 characters, none at its start and none at its
    end. *)
Theorem clean_text_shape (v : value) :
  forallb (keep uni_alnum) (clean_text uni_alnum v) = true /\
  forallb (fun c => negb (c =? quote_char)%N && negb (c =? 0xC2)%N)
    (clean_text uni_alnum v) = true /\
  spaced true (clean_text uni_alnum v) = true /\
  (forall c, In c (clean_text uni_alnum v) -> is_space c = true -> c = 0x20%N) /\
  is_space (hd 0%N (clean_text uni_alnum v)) = false /\
  is_space (last (clean_text uni_alnum v) 0%N) = false.
Proof.
  assert (forallb (keep uni_alnum) (clean_text uni_alnum v) = true /\
          forallb (fun c => negb (c =? quote_char)%N && negb (c =? 0xC2)%N)
            (clean_text uni_alnum v) = true /\
          spaced true (clean_text uni_alnum v) = true) as (Hkeep & Hno & Hsp).
  { destruct v as [|text]; [repeat split; reflexivity|]. cbn [clean_text].
    pose proof (clean_steps_kept uni_alnum text) as Hk.
    destruct (clean_steps_spaced uni_alnum text) as [E|Hsp].
    - rewrite E. repeat split; reflexivity.
    - destruct (clean_steps uni_alnum text) as [|c t] eqn:E; [discriminate|].
      rewrite Forall_forall in Hk. split; [|split; [|exact Hsp]].
      + apply forallb_forall. intros x Hx. now apply Hk.
      + apply forallb_forall. intros x Hx. destruct (Hk x Hx) as [Hkx Hx2].
        apply keep_quote in Hkx. apply N.eqb_neq in Hkx, Hx2. now rewrite Hkx, Hx2. }
  split; [exact Hkeep|]. split; [exact Hno|]. split; [exact Hsp|]. split; [|split].
  - intros c Hc. pose proof (spaced_spaces _ _ Hsp) as H.
    rewrite Forall_forall in H. now apply H.
  - destruct (clean_text uni_alnum v) as [|c t]; [discriminate|].
    simpl in Hsp. simpl. destruct (is_space c); [discriminate | reflexivity].
  - apply (spaced_last true); [exact Hsp|].
    destruct (clean_text uni_alnum v); [discriminate | discriminate].
Qed.

Lemma space_not_in (c : N) (text : pystr) :
  is_space c = false -> forallb is_space text = true -> Forall (fun x => x <> c) text.
Proof.
  intros Hc H. apply Forall_forall. intros x Hx ->.
  rewrite forallb_forall in H. rewrite (H c Hx) in Hc. discriminate.
Qed.

(** X9: a text of white space only, the empty text among them, is
    repaired to ["Unknown"]. *)
Theorem clean_text_of_white_space (text : pystr) :
  forallb is_space text = true ->
  clean_text uni_alnum (Str text) = u "Unknown".
Proof.
  intros Hws.
  pose proof (space_not_in 0xC3%N text eq_refl Hws) as H3.
  pose proof (space_not_in 0xC2%N text eq_refl Hws) as H2.
  pose proof (space_not_in 0x20AC%N text eq_refl Hws) as He.
  apply Forall_neq_not_In in H3 as N3. apply Forall_neq_not_In in H2 as N2.
  apply Forall_neq_not_In in He as Ne.
  assert (Forall (fun c => is_space c = true) text) as Hall
    by (apply Forall_forall; now apply forallb_forall).
  assert (Forall (fun c => is_space c = true) (clean_steps uni_alnum text)) as Hout.
  { unfold clean_steps. cbv zeta.
    rewrite (str_replace_absent [0xC3; 0xA2]%N _ text 0xC3%N) by (simpl; tauto).
    rewrite (str_replace_absent [0xC2; ch "t"]%N _ text 0xC2%N) by (simpl; tauto).
    rewrite (str_replace_absent [0xE2; 0x20AC; 0x2122]%N _ text 0x20AC%N) by (simpl; tauto).
    rewrite (str_replace_absent [0xE2; 0x20AC; 0x153]%N _ text 0x20AC%N) by (simpl; tauto).
    rewrite (str_replace_absent [0xE2; 0x20AC]%N _ text 0x20AC%N) by (simpl; tauto).
    rewrite (str_replace_absent [0xC3; 0x82; 0xC2; 0x92]%N _ text 0xC3%N) by (simpl; tauto).
    rewrite (str_replace_absent [0xC3; 0x82; 0xC2]%N _ text 0xC3%N) by (simpl; tauto).
    assert (re_sub uni_alnum encoding_artifacts [] text = text) as ->.
    { unfold re_sub. change (ignore_case encoding_artifacts) with false.
      apply sub_from_no_match.
      - exact (encoding_artifacts_no_match uni_alnum text H3 H2 He true 0).
      - intros n. exact (encoding_artifacts_no_match uni_alnum text H3 H2 He false (S n)). }
    rewrite apply_text_patterns_eq, sub_apostrophes, sub_quotes, sub_special_chars.
    unfold re_sub, str_strip.
    apply sub_from_Forall; [repeat constructor|].
    apply rstrip_Forall, lstrip_Forall.
    apply sub_from_Forall; [repeat constructor|].
    apply sub_from_Forall; [constructor|].
    apply Forall_filter.
    apply sub_from_Forall; [repeat constructor|].
    now apply Forall_filter. }
  cbn [clean_text].
  destruct (clean_steps_spaced uni_alnum text) as [E|Hsp]; [now rewrite E|].
  destruct (clean_steps uni_alnum text) as [|c t]; [reflexivity|].
  inversion Hout as [|? ? Hc _]; subst.
  simpl in Hsp. rewrite Hc in Hsp. discriminate.
Qed.

(** X10: among the texts without A-tilde, those that [clean_text] returns
    as they are are the normal ones: not empty, of plain characters, with
    single spaces inside only (the euro sign being no alphanumeric). *)
Theorem clean_text_fixed_iff_normal (y : pystr) :
  uni_alnum 0x20AC%N = false ->
  without_A_tilde (Str y) = true ->
  (clean_text uni_alnum (Str y) = y <-> normal uni_alnum y = true).
Proof.
  intros Heuro Hy. split.
  - intros E. rewrite <- E. now apply clean_text_normal.
  - now apply clean_text_normal_fixed.
Qed.

End Shape.

(** ** The rule [NDC], exactly *)

Lemma last_In (d : N) (l : pystr) : l <> [] -> In (last l d) l.
Proof.
  induction l as [|a l IH]; intros H; [congruence|].
  destruct l as [|b l']; [now left|]. right. apply IH. discriminate.
Qed.

Section Ndc.

Variable uni_alnum : N -> bool.

Lemma clean_text_spaced (v : value) : spaced true (clean_text uni_alnum v) = true.
Proof.
  destruct v as [|text]; [reflexivity|]. cbn [clean_text].
  destruct (clean_steps_spaced uni_alnum text) as [E|Hsp]; [now rewrite E|].
  destruct (clean_steps uni_alnum text); [discriminate | exact Hsp].
Qed.

Lemma letter_cases (l c : N) :
  ascii_lower l = true -> l <> 0x69%N -> l <> 0x6B%N -> l <> 0x73%N ->
  lit_matches true l c = true -> c = l \/ c = (l - 32)%N.
Proof.
  intros Hl Hi Hk Hs H. apply lit_matches_ci_letter in H; [|exact Hl].
  unfold ascii_lower, between in Hl. apply andb_true_iff in Hl.
  destruct Hl as [Hl _]. apply N.leb_le in Hl. lia.
Qed.

(** The label that [first_match] returns is ["Other"] or that of a rule
    that matched. *)
Lemma first_match_found rules text l :
  first_match uni_alnum rules text = l ->
  (exists p, In (p, l) rules /\ re_search uni_alnum p true text = true) \/ l = u "Other".
Proof.
  induction rules as [|[p m] rest IH]; cbn [first_match]; intros H; [now right|].
  destruct (re_search uni_alnum p true text) eqn:E.
  - left. exists p. subst. split; [now left | exact E].
  - destruct (IH H) as [(q & Hin & Hq)|Ho]; [|now right].
    left. exists q. split; [now right | exact Hq].
Qed.

(** X11: [Party_Belong] becomes ["NDC"] exactly when the repaired text is
    [n] or [ndc], in small or capital letters: nothing may stand before
    or after it. *)
Theorem party_is_ndc_iff (v : value) :
  match_pattern uni_alnum (rules_at "Party_Belong") v = u "NDC" <->
  In (clean_text uni_alnum v) ndc_spellings.
Proof.
  unfold match_pattern. split.
  - intros H.
    assert (re_search uni_alnum (fst (rule_at "Party_Belong" 0)) true
              (clean_text uni_alnum v) = true) as Hndc.
    { apply first_match_found in H. destruct H as [(p & Hin & Hp)|H].
      - unfold rules_at in Hin. cbn [rules_of assoc COLUMN_PATTERNS String.eqb] in Hin.
        cbv in Hin.
        repeat (destruct Hin as [Hin|Hin];
                [first [ injection Hin as <-; exact Hp | discriminate Hin ]|]).
        destruct Hin.
      - vm_compute in H. discriminate. }
    pose proof (clean_text_spaced v) as Hsp.
    apply ndc_rule_shape in Hndc.
    destruct Hndc as [(c1 & rest & E & Hc1 & Hrest)
                     |(c1 & c2 & c3 & rest & E & Hc1 & Hc2 & Hc3 & Hrest)].
    + rewrite E in *.
      assert (rest = []) as ->.
      { destruct Hrest as [->| ->]; [reflexivity|].
        apply (spaced_last true) in Hsp; [|discriminate]. simpl in Hsp. discriminate. }
      apply letter_cases in Hc1; [|reflexivity|discriminate|discriminate|discriminate].
      destruct Hc1 as [->| ->]; [now left | right; now left].
    + rewrite E in *.
      assert (rest = []) as ->.
      { destruct rest as [|x r]; [reflexivity|]. exfalso.
        apply (spaced_last true) in Hsp; [|discriminate].
        change (last (c1 :: c2 :: c3 :: x :: r) 0%N) with (last (x :: r) 0%N) in Hsp.
        rewrite forallb_forall in Hrest.
        rewrite (Hrest (last (x :: r) 0%N)) in Hsp; [discriminate|].
        apply last_In. discriminate. }
      apply letter_cases in Hc1; [|reflexivity|discriminate|discriminate|discriminate].
      apply letter_cases in Hc2; [|reflexivity|discriminate|discriminate|discriminate].
      apply letter_cases in Hc3; [|reflexivity|discriminate|discriminate|discriminate].
      destruct Hc1 as [->| ->], Hc2 as [->| ->], Hc3 as [->| ->]; vm_compute; tauto.
  - intros H. unfold ndc_spellings in H.
    repeat (destruct H as [<-|H]; [vm_compute; reflexivity|]). destruct H.
Qed.

End Ndc.

(** ** The whole run *)

Lemma load_data_true_data read_csv st :
  snd (load_data read_csv st) = true ->
  exists df, data (fst (load_data read_csv st)) = Some df.
Proof.
  unfold load_data, encodings. cbn [load_loop].
  destruct (read_csv utf_8) as [df| |e]; cbn [fst snd logging data]; try discriminate.
  - intros _. exists df. now rewrite data_validate_data.
  - destruct (read_csv latin1) as [df| |e]; cbn [fst snd logging data]; try discriminate.
    + intros _. exists df. now rewrite data_validate_data.
    + destruct (read_csv cp1252) as [df| |e]; cbn [fst snd logging data]; try discriminate.
      intros _. exists df. now rewrite data_validate_data.
Qed.

Section Run.

Variable uni_alnum : N -> bool.
Variable read_csv : encoding -> read_result.
Variable to_csv : DataFrame -> option string.

(** X12: [main] raises exactly when [setup_logging] does, with its
    exception and before anything is read.  Otherwise it returns: when
    [load_data] answers [False] it stops there and [to_csv] is not
    called; when [load_data] answers [True] it cleans the frame that was
    loaded and hands the cleaned frame, and nothing else, to [to_csv]:
    the frame has the index and the columns of the loaded one, every cell
    of its governed columns is a label of the column or ["Other"], and it
    is the one frame written, unless [to_csv] raises. *)
Theorem main_writes_the_cleaned_frame :
  (forall e, main uni_alnum (LogError e) read_csv to_csv = SetupRaises e) /\
  (forall log_file, exists st written,
    main uni_alnum (LogFile log_file) read_csv to_csv = Finishes (st, written) /\
    (snd (load_data read_csv (started log_file)) = false ->
     st = fst (load_data read_csv (started log_file)) /\ written = []) /\
    (snd (load_data read_csv (started log_file)) = true ->
     exists df df',
       data (fst (load_data read_csv (started log_file))) = Some df /\
       data st = Some df' /\
       index df' = index df /\
       column_names df' = column_names df /\
       (forall c s,
          is_governed c = true -> get_column df' c = Some s ->
          Forall (fun cell => exists l, cell = Str l /\
                                        In l (labels (rules_at c) ++ [u "Other"])) s) /\
       written = match to_csv df' with None => [df'] | Some _ => [] end)).
Proof.
  split; [reflexivity|]. intros log_file.
  unfold main. cbn [setup_logging init data reads]. fold (started log_file).
  destruct (load_data read_csv (started log_file)) as [st1 loaded] eqn:Hload.
  pose proof (load_data_true_data read_csv (started log_file)) as Hdata.
  rewrite Hload in Hdata. cbn [fst snd] in *.
  destruct loaded.
  - destruct (Hdata eq_refl) as [df Hdf].
    assert (Forall (fun c => rules_of c <> None) governed) as Hgov.
    { apply Forall_forall. intros c Hc Hnone.
      unfold rules_of in Hnone. apply assoc_None_iff in Hnone. contradiction. }
    unfold clean_data. rewrite Hdf.
    destruct (clean_columns_spec uni_alnum governed governed_NoDup Hgov df
                (log st1 ++ [(INFO, Starting_cleaning)]))
      as (df' & lg' & Hrun & Hidx & Hnames & Hframe & Hnew).
    rewrite Hrun. unfold save_cleaned_data. cbn [data].
    assert (forall c s,
              is_governed c = true -> get_column df' c = Some s ->
              Forall (fun cell => exists l, cell = Str l /\
                                            In l (labels (rules_at c) ++ [u "Other"])) s)
      as Hcells.
    { intros c s Hc Hs. unfold is_governed in Hc.
      destruct (rules_of c) as [rules|] eqn:Hrules; [|discriminate].
      assert (In c governed) as Hin.
      { destruct (in_dec string_dec c governed) as [Hin|Hout]; [exact Hin|].
        apply assoc_None_iff in Hout. unfold rules_of in Hrules. congruence. }
      destruct (get_column df c) as [s0|] eqn:Hs0.
      - rewrite (Hnew c s0 Hin Hs0) in Hs. injection Hs as <-.
        apply Forall_forall. intros cell Hcell. apply in_map_iff in Hcell.
        destruct Hcell as (v & <- & _). eexists. split; [reflexivity|].
        apply first_match_in_labels.
      - exfalso. apply has_column_false in Hs0.
        rewrite <- (has_column_names df' df c Hnames) in Hs0.
        apply has_column_false in Hs0. congruence. }
    destruct (to_csv df') as [e|] eqn:Hcsv.
    + eexists _, []. split; [reflexivity|]. split; [discriminate|].
      intros _. exists df, df'. rewrite Hcsv. now repeat split.
    + eexists _, [df']. split; [reflexivity|]. split; [discriminate|].
      intros _. exists df, df'. rewrite Hcsv. now repeat split.
  - exists st1, []. split; [reflexivity|]. split; [now split | discriminate].
Qed.

End Run.

(** ** The counts of the report *)

Lemma count_of_le label s : count_of label s <= length s.
Proof.
  unfold count_of. induction s as [|v s IH]; simpl; [lia|].
  destruct (holds label v); simpl; lia.
Qed.

Lemma count_of_fillna label value s :
  pystr_eqb value label = false ->
  count_of label (fillna value s) = count_of label s.
Proof.
  intros Hne. unfold count_of. induction s as [|v s IH]; [reflexivity|].
  destruct v as [|t]; cbn [fillna List.map filter holds].
  - rewrite Hne. exact IH.
  - destruct (pystr_eqb t label); cbn [length]; [f_equal|]; exact IH.
Qed.

Lemma value_counts_sum_fillna value s : value_counts_sum (fillna value s) = length s.
Proof.
  unfold value_counts_sum. induction s as [|v s IH]; [reflexivity|].
  destruct v; simpl; f_equal; exact IH.
Qed.

Lemma count_of_isin label labels s :
  In label labels -> count_of label (isin labels s) = count_of label s.
Proof.
  intros Hin. unfold count_of, isin. induction s as [|v s IH]; [reflexivity|].
  cbn [filter]. destruct (holds label v) eqn:Hv.
  - assert (existsb (fun l => holds l v) labels = true) as ->
      by (apply existsb_exists; now exists label).
    cbn [filter]. rewrite Hv. cbn [length]. f_equal. exact IH.
  - destruct (existsb (fun l => holds l v) labels); [cbn [filter]; rewrite Hv|]; exact IH.
Qed.

Lemma value_counts_at_cases label s :
  (value_counts_at label s = KeyError /\ count_of label s = 0) \/
  (value_counts_at label s = Returns (count_of label s) /\ 1 <= count_of label s).
Proof.
  unfold value_counts_at. destruct (count_of label s); [now left | right; split; [reflexivity | lia]].
Qed.

(** X13: the voting participation rate of the report divides the number
    of ["Yes"] cells by the number of all rows, the missing ones counted
    (they were filled with ["No Response"]); its computation raises
    [KeyError] exactly when no cell is ["Yes"], and never divides by
    zero. *)
Theorem participation_counts_spec (voted : Series) :
  (participation_counts voted = KeyError <-> count_of (u "Yes") voted = 0) /\
  (forall yes total,
     participation_counts voted = Returns (yes, total) ->
     yes = count_of (u "Yes") voted /\ total = length voted /\ 1 <= yes <= total).
Proof.
  unfold participation_counts. cbv zeta.
  pose proof (count_of_fillna (u "Yes") (u "No Response") voted eq_refl) as Hc.
  pose proof (count_of_le (u "Yes") voted) as Hle.
  destruct (value_counts_at_cases (u "Yes") (fillna (u "No Response") voted))
    as [[-> H0]|[-> H1]]; rewrite Hc in *.
  - split; [tauto|]. intros yes total H. discriminate.
  - split; [split; [discriminate | lia]|].
    intros yes total [= <- <-]. rewrite value_counts_sum_fillna. lia.
Qed.

(** X14: the party support ratio of the report divides the number of
    ["NDC"] cells by the number of ["NPP"] cells; its computation raises
    [KeyError] exactly when one of the two parties has no cell, so it
    never divides by zero. *)
Theorem party_support_counts_spec (party : Series) :
  (party_support_counts party = KeyError <->
   count_of (u "NDC") party = 0 \/ count_of (u "NPP") party = 0) /\
  (forall ndc npp,
     party_support_counts party = Returns (ndc, npp) ->
     ndc = count_of (u "NDC") party /\ npp = count_of (u "NPP") party /\
     1 <= ndc /\ 1 <= npp).
Proof.
  unfold party_support_counts. cbv zeta.
  assert (forall l, In l [u "NPP"; u "NDC"] ->
            count_of l (isin [u "NPP"; u "NDC"] (fillna (u "No Response") party))
            = count_of l party) as Hc.
  { intros l Hl. rewrite count_of_isin by exact Hl. apply count_of_fillna.
    destruct Hl as [<-|[<-|[]]]; reflexivity. }
  pose proof (Hc (u "NDC") (or_intror (or_introl eq_refl))) as Hndc.
  pose proof (Hc (u "NPP") (or_introl eq_refl)) as Hnpp.
  destruct (value_counts_at_cases (u "NDC")
              (isin [u "NPP"; u "NDC"] (fillna (u "No Response") party)))
    as [[-> H0]|[-> H1]]; rewrite Hndc in *.
  - split; [tauto|]. intros ndc npp H. discriminate.
  - destruct (value_counts_at_cases (u "NPP")
                (isin [u "NPP"; u "NDC"] (fillna (u "No Response") party)))
      as [[-> H0']|[-> H1']]; rewrite Hnpp in *.
    + split; [tauto|]. intros ndc npp H. discriminate.
    + split; [split; [discriminate | lia]|].
      intros ndc npp [= <- <-]. lia.
Qed.

Section Awareness.

Variable uni_alnum : N -> bool.



Lemma know_projects_yes_table :
  forallb (fun l =>
             Bool.eqb (contains_yes uni_alnum (Str l))
                      (holds (u "Yes, Knew Projects") (Str l)))
    (labels (rules_at "Know_Projects") ++ [u "Other"]) = true.
Proof. vm_compute. reflexivity. Qed.

(** X16: on a [Know_Projects] column that the categoriser made, the
    computation of the project awareness rate does not raise, the rows
    that it counts as aware of the projects are the rows labelled
    ["Yes, Knew Projects"], and every row counts in the total. *)
Theorem awareness_counts_of_cleaned (s : Series) :
  awareness_counts uni_alnum
    (List.map Object (List.map (cell_of uni_alnum "Know_Projects") s)) =
    Counted
      (count_of (u "Yes, Knew Projects") (List.map (cell_of uni_alnum "Know_Projects") s),
       length s).
Proof.
  unfold awareness_counts.
  assert (has_str (List.map Object (List.map (cell_of uni_alnum "Know_Projects") s)) = true)
    as -> by (now destruct s).
  unfold count_of. f_equal. f_equal.
  - induction s as [|v s IH]; [reflexivity|].
    cbn [List.map filter str_contains_yes].
    assert (contains_yes uni_alnum (cell_of uni_alnum "Know_Projects" v) =
            holds (u "Yes, Knew Projects") (cell_of uni_alnum "Know_Projects" v)) as ->.
    { unfold cell_of. pose proof know_projects_yes_table as H.
      rewrite forallb_forall in H. apply Bool.eqb_prop, H. apply first_match_in_labels. }
    destruct (holds _ _); cbn [length]; [f_equal|]; exact IH.
  - induction s as [|v s IH]; [reflexivity|]. simpl. f_equal. exact IH.
Qed.

End Awareness.

(** ** The requirements of [setup.py] *)

Lemma str_strip_ends (s : pystr) :
  str_strip s = [] \/
  (is_space (hd 0%N (str_strip s)) = false /\ is_space (last (str_strip s) 0%N) = false).
Proof.
  unfold str_strip.
  destruct (lstrip_head s) as [E|(c & t & E & Hc)]; rewrite E; [now left|].
  destruct (rstrip_head c t) as [E'|[t' E']]; [now left|].
  destruct (rstrip_no_space_last (c :: t)) as [E''|Hlast]; [now left|].
  right. split; [|exact Hlast]. now rewrite E'.
Qed.

(** X17: every requirement that [setup.py] installs is the stripped text
    of a line of [requirements.txt] that does not begin with [#]; it is
    not empty and has no white space at its ends.  The test for a comment
    reads the line before it is stripped: a comment that follows white
    space on its line is installed as a requirement that begins with [#]. *)
Theorem install_requires_entries (lines : list pystr) :
  (forall entry,
     In entry (install_requires lines) ->
     (exists line, In line lines /\ entry = str_strip line /\
                   starts_with (ch "#") line = false) /\
     nonempty entry = true /\
     is_space (hd 0%N entry) = false /\ is_space (last entry 0%N) = false) /\
  (forall line,
     In line lines ->
     is_space (hd 0%N line) = true ->
     starts_with (ch "#") (str_strip line) = true ->
     In (str_strip line) (install_requires lines)).
Proof.
  unfold install_requires. split.
  - intros entry Hin. apply in_map_iff in Hin. destruct Hin as (line & <- & Hin).
    apply filter_In in Hin. destruct Hin as [Hin Hkeep].
    apply andb_true_iff in Hkeep. destruct Hkeep as [Hne Hhash].
    apply negb_true_iff in Hhash.
    split; [now exists line|]. split; [exact Hne|].
    destruct (str_strip_ends line) as [E|H]; [|exact H].
    rewrite E in Hne. discriminate.
  - intros line Hin Hsp Hhash. apply in_map, filter_In. split; [exact Hin|].
    apply andb_true_iff. split.
    + destruct (str_strip line); [discriminate | reflexivity].
    + destruct line as [|c t]; [reflexivity|]. cbn [hd] in Hsp. cbn [starts_with].
      destruct (N.eqb_spec c (ch "#")) as [->|]; [discriminate | reflexivity].
Qed.

(** ** Instances of the further properties *)

Lemma load_data_stops_at_other_exception_witness :
  unparsable_utf8 survey latin1 = Parsed survey /\
  load_data (unparsable_utf8 survey) init =
    (Cleaner None [(ERROR, Error_loading_data "Error tokenizing data")] [utf_8], false).
Proof.
  split; [reflexivity|].
  exact (load_data_stops_at_other_exception (unparsable_utf8 survey) init [] utf_8
           [latin1; cp1252] "Error tokenizing data" eq_refl (Forall_nil _) eq_refl).
Defined.

Lemma load_data_warns_missing_columns_witness :
  missing_columns party_only =
    [ "Occupation"; "Voted_Last_Election"; "Reason_Not_Voted"; "Know_Projects";
      "Solved_Community_Problems"; "Fair_Election_Results" ]%string /\
  snd (load_data (latin1_file party_only) init) = true /\
  log (fst (load_data (latin1_file party_only) init)) =
    [ (WARNING, Missing_columns (missing_columns party_only));
      (INFO, Successfully_loaded latin1); (INFO, Loaded_records 2) ].
Proof.
  split; [reflexivity|].
  assert (Forall (decode_fails (latin1_file party_only)) [utf_8]) as Hutf8
    by (constructor; [reflexivity | constructor]).
  destruct (load_data_warns_missing_columns (latin1_file party_only) init [utf_8] latin1
              [cp1252] party_only eq_refl Hutf8 eq_refl) as (H1 & _ & H3 & _).
  split; [exact H1 | exact H3].
Defined.

Lemma clean_data_fills_nulls_witness :
  NoDup (column_names survey) /\
  exists df',
    clean_data latin1_table (Cleaner (Some survey) [] []) =
      Returns
        (Cleaner (Some df')
           [ (INFO, Starting_cleaning);
             (INFO, Cleaning_column "Occupation"); (INFO, Cleaning_column "Party_Belong");
             (INFO, Cleaning_summary);
             (INFO, Filled_nulls "Party_Belong" 1) ] [], true) /\
    (forall c s', is_governed c = true -> get_column df' c = Some s' -> nulls s' = 0) /\
    (forall c, is_governed c = false -> get_column df' c = get_column survey c).
Proof.
  assert (NoDup (column_names survey)) as Hnodup.
  { repeat (constructor; [simpl; intros H; repeat (destruct H as [H|H]; [discriminate|]);
                          exact H|]).
    constructor. }
  split; [exact Hnodup|].
  exact (clean_data_fills_nulls latin1_table (Cleaner (Some survey) [] []) survey
           eq_refl Hnodup).
Defined.

Lemma bulk_keeps_unmatched_text_witness :
  rules_of "Occupation" = Some (rules_at "Occupation") /\
  clean_text latin1_table (Str (u " Mason! ")) = u "Mason" /\
  bulk_value latin1_table (rules_at "Occupation") (Str (u " Mason! ")) = Str (u "Mason") /\
  match_pattern latin1_table (rules_at "Occupation") (Str (u " Mason! ")) = u "Other".
Proof.
  split; [reflexivity|]. split; [reflexivity|].
  apply (bulk_keeps_unmatched_text latin1_table "Occupation" (rules_at "Occupation")
           (Str (u " Mason! ")) eq_refl).
  repeat (constructor; [reflexivity|]). constructor.
Defined.

Lemma match_pattern_settles_at_second_witness :
  rules_of "Party_Belong" = Some (rules_at "Party_Belong") /\
  match_pattern latin1_table (rules_at "Party_Belong") NaN = u "Not Specified" /\
  match_pattern latin1_table (rules_at "Party_Belong")
    (Str (match_pattern latin1_table (rules_at "Party_Belong") NaN)) = u "Other" /\
  match_pattern latin1_table (rules_at "Party_Belong")
    (Str (match_pattern latin1_table (rules_at "Party_Belong")
            (Str (match_pattern latin1_table (rules_at "Party_Belong") NaN))))
  = match_pattern latin1_table (rules_at "Party_Belong")
      (Str (match_pattern latin1_table (rules_at "Party_Belong") NaN)).
Proof.
  split; [reflexivity|]. split; [reflexivity|]. split; [reflexivity|].
  exact (match_pattern_settles_at_second latin1_table "Party_Belong" _ NaN eq_refl).
Defined.

Lemma clean_text_of_white_space_witness :
  forallb is_space [0x20; 0x09; 0xA0; 0x2003; 0x0A]%N = true /\
  clean_text latin1_table (Str [0x20; 0x09; 0xA0; 0x2003; 0x0A]%N) = u "Unknown".
Proof.
  split; [reflexivity|].
  exact (clean_text_of_white_space latin1_table [0x20; 0x09; 0xA0; 0x2003; 0x0A]%N eq_refl).
Defined.

Lemma clean_text_fixed_iff_normal_witness :
  latin1_table 0x20AC%N = false /\
  without_A_tilde (Str (u "don't know")) = true /\
  normal latin1_table (u "don't know") = true /\
  clean_text latin1_table (Str (u "don't know")) = u "don't know" /\
  normal latin1_table (u "dont  know") = false.
Proof.
  split; [reflexivity|]. split; [reflexivity|]. split; [reflexivity|]. split; [|reflexivity].
  exact (proj2 (clean_text_fixed_iff_normal latin1_table (u "don't know") eq_refl eq_refl)
           eq_refl).
Defined.

Lemma install_requires_entries_witness :
  install_requires [u "pandas>=2.0" ++ [0x0A%N]; u "# plots" ++ [0x0A%N]; [0x0A%N];
                    u "  # pinned" ++ [0x0A%N]]
    = [u "pandas>=2.0"; u "# pinned"] /\
  In (str_strip (u "  # pinned" ++ [0x0A%N]))
     (install_requires [u "pandas>=2.0" ++ [0x0A%N]; u "# plots" ++ [0x0A%N]; [0x0A%N];
                        u "  # pinned" ++ [0x0A%N]]).
Proof.
  split; [reflexivity|].
  apply (proj2 (install_requires_entries _)); [|reflexivity|reflexivity].
  do 3 right. now left.
Defined.

(** ** Alternatives that decide nothing *)

Section Dead.

Variable uni_alnum : N -> bool.

(** X18: [Fair_Election_Results] becomes ["Yes"] for every value of which
    the repaired text contains [unfair], in any case: the first rule
    finds [fair] in it, and the alternative [unfair] of the second rule
    decides nothing. *)
Theorem unfair_is_labelled_yes (v : value) :
  re_search uni_alnum (ci (txt "unfair")) true (clean_text uni_alnum v) = true ->
  re_search uni_alnum (fst (rule_at "Fair_Election_Results" 0)) true
    (clean_text uni_alnum v) = true /\
  match_pattern uni_alnum (rules_at "Fair_Election_Results") v = u "Yes".
Proof.
  intros H.
  assert (re_search uni_alnum (fst (rule_at "Fair_Election_Results" 0)) true
            (clean_text uni_alnum v) = true) as Hfair.
  { unfold re_search in *. cbn [ignore_case ci orb body] in H.
    change (ignore_case (fst (rule_at "Fair_Election_Results" 0)) || true) with true.
    change (body (fst (rule_at "Fair_Election_Results" 0)))
      with (Alt (Cat Bol (Cat (Lit (ch "y")) (Cat (Opt (lits (u "es"))) Eol)))
                (lits (u "fair"))).
    apply search_from_where in H. destruct H as (pre & suf & m & -> & Hm).
    change (txt "unfair") with (Cat (Lit (ch "u")) (Cat (Lit (ch "n")) (lits (u "fair"))))
      in Hm.
    apply ends_lit_cat_In in Hm. destruct Hm as (c1 & t1 & k1 & -> & _ & Hk1 & _).
    apply ends_lit_cat_In in Hk1. destruct Hk1 as (c2 & t2 & k2 & -> & _ & Hk2 & _).
    replace (pre ++ c1 :: c2 :: t2) with ((pre ++ [c1; c2]) ++ t2)
      by (now rewrite <- app_assoc).
    apply (search_from_found uni_alnum true _ (pre ++ [c1; c2]) true t2 k2).
    assert (nonempty (pre ++ [c1; c2]) = true) as -> by (now destruct pre).
    cbn [negb andb]. cbn [ends]. apply in_or_app. right. exact Hk2. }
  split; [exact Hfair|].
  unfold match_pattern.
  change (rules_at "Fair_Election_Results")
    with ([] ++ (fst (rule_at "Fair_Election_Results" 0), u "Yes")
             :: [rule_at "Fair_Election_Results" 1; rule_at "Fair_Election_Results" 2;
                 rule_at "Fair_Election_Results" 3]).
  apply first_match_split; [constructor | exact Hfair].
Qed.

(** X19: the alternative [^$] of the rule ["No Response"] never matches a
    repaired text, which is never empty: in the four columns that have
    the rule, a missing answer and an empty answer are repaired to
    ["Unknown"] and become ["Other"], not ["No Response"]. *)
Theorem empty_alternative_never_matches :
  (forall v : value,
     re_search uni_alnum (ci (cat [Bol; Eol])) true (clean_text uni_alnum v) = false) /\
  (forall column,
     In column ["Reason_Not_Voted"; "Know_Projects"; "Solved_Community_Problems";
                "Fair_Election_Results"]%string ->
     In (ci no_response, u "No Response") (rules_at column) /\
     match_pattern uni_alnum (rules_at column) NaN = u "Other" /\
     match_pattern uni_alnum (rules_at column) (Str []) = u "Other").
Proof.
  split.
  - intros v. unfold re_search. cbn [ignore_case ci orb body cat].
    pose proof (clean_text_spaced uni_alnum v) as Hsp.
    apply search_from_none.
    + destruct (clean_text uni_alnum v) as [|c [|d t]]; [discriminate| |reflexivity].
      cbn [ends flat_map andb Nat.eqb skipn List.map app].
      simpl in Hsp. destruct (N.eqb_spec c 10) as [->|]; [discriminate | reflexivity].
    + intros n. reflexivity.
  - intros column Hin.
    repeat (destruct Hin as [<-|Hin];
            [split; [vm_compute; tauto | split; vm_compute; reflexivity]|]).
    destruct Hin.
Qed.

End Dead.

Lemma unfair_is_labelled_yes_witness :
  clean_text latin1_table (Str (u "The results were UNFAIR!")) = u "The results were UNFAIR" /\
  re_search latin1_table (ci (txt "unfair")) true
    (clean_text latin1_table (Str (u "The results were UNFAIR!"))) = true /\
  match_pattern latin1_table (rules_at "Fair_Election_Results")
    (Str (u "The results were UNFAIR!")) = u "Yes".
Proof.
  split; [reflexivity|]. split; [reflexivity|].
  exact (proj2 (unfair_is_labelled_yes latin1_table (Str (u "The results were UNFAIR!"))
                  eq_refl)).
Defined.
